(** * Journal Buddy: context assembly, insights and chat routes

    A shallow embedding of braggy9/journal-buddy:

    - [backend/src/routes/insights.ts]  (mood distribution, mood trend,
      top tags and themes, streak, cached period summaries, patterns),
    - [backend/src/services/claude.ts]  (context assembly, the mood trend
      of the 7-day window, the system prompt, the calls of the text
      completion service),
    - [backend/src/routes/chat.ts]      (one chat turn, reading a
      conversation back),
    - [backend/src/routes/entries.ts]   (listing, reading and deleting
      entries),
    - [backend/src/middleware/errorHandler.ts],
    - [frontend/src/stores/journalStore.ts]  (sending a message from the
      client).

    Conventions of the embedding.

    - JavaScript numbers that hold counts, sums of the mood weights 1, 0
      and -1, array lengths and millisecond time stamps are integers ([Z],
      [nat]): doubles hold them exactly.  The averages of the mood trends,
      the thresholds added to them and the comparisons are IEEE 754 binary64
      ([Js.number], the kernel's [PrimFloat.float]), as [/], [+], [-], [>]
      and [<] compute them.
    - Objects are those of a fresh realm: an object literal inherits the
      twelve members of [Object.prototype] and nothing else.
    - [string | null] is [option string]; JavaScript truthiness of such a
      value ([Js.truthy]) is "present and not empty".
    - The local time zone of the server is UTC, so that [setHours(0,0,0,0)]
      and SQL [DATE(...)] both round a time stamp down to a multiple of
      [DAY_MS].
    - [Array.prototype.sort] is stable (ES2019), which determines its result;
      it is modelled by a stable insertion sort.  SQL [ORDER BY] is modelled
      by the same sort. *)

From Stdlib Require Import PrimFloat.
From Stdlib Require Import List ZArith String Ascii Bool Arith Lia.
From Stdlib Require Import Sorted Permutation.
Import ListNotations.

(* Decimal literals of doubles stand for the nearest double, as in
   JavaScript. *)
Set Warnings "-inexact-float".

Local Open Scope string_scope.
Local Open Scope list_scope.
Local Open Scope Z_scope.

Infix "+++" := String.append (right associativity, at level 60).

Definition nl : string := String "010"%char EmptyString.

(** ** JavaScript primitives *)

Module Js.

(** Truthiness of a [string | null | undefined] value. *)
Definition truthy (s : option string) : bool :=
  match s with
  | Some (String _ _) => true
  | _ => false
  end.

(** [s || d] for a nullable string [s]. *)
Definition or_else (s : option string) (d : string) : string :=
  match s with
  | Some (String c r) => String c r
  | _ => d
  end.

(** [arr.slice(start)] and [arr.slice(0, stop)] for indices within
    [0 .. arr.length]. *)
Definition slice_from {A} (start : nat) (arr : list A) : list A := skipn start arr.
Definition slice_to {A} (stop : nat) (arr : list A) : list A := firstn stop arr.

(** [arr.join(sep)] on an array of strings. *)
Fixpoint join (sep : string) (arr : list string) : string :=
  match arr with
  | [] => EmptyString
  | [x] => x
  | x :: rest => x +++ sep +++ join sep rest
  end.

(** [arr.sort(cmp)]: [cmp a b > 0] puts [a] after [b]; elements that
    compare equal keep their order. *)
Fixpoint insert {A} (cmp : A -> A -> Z) (x : A) (sorted : list A) : list A :=
  match sorted with
  | [] => [x]
  | y :: ys => if cmp x y <=? 0 then x :: y :: ys else y :: insert cmp x ys
  end.

Definition sort {A} (cmp : A -> A -> Z) (arr : list A) : list A :=
  fold_right (insert cmp) [] arr.

(** [arr.reduce((a, b) => a + b, 0)] *)
Definition sum (arr : list Z) : Z := fold_left Z.add arr 0%Z.

(** A number as an IEEE 754 binary64 value.  [number_of_Z] is the double of
    an integer that a double holds exactly (every integer of magnitude up
    to 2^53), built in binary with exact doublings and increments. *)
Definition number : Set := PrimFloat.float.

Fixpoint number_of_pos (p : positive) : number :=
  match p with
  | xH => 1%float
  | xO q => (2 * number_of_pos q)%float
  | xI q => (2 * number_of_pos q + 1)%float
  end.

Definition number_of_Z (z : Z) : number :=
  match z with
  | Z0 => 0%float
  | Zpos p => number_of_pos p
  | Zneg p => (- number_of_pos p)%float
  end.

Definition NaN : number := PrimFloat.nan.

(** [a > b] and [a < b] on numbers; both are false when a side is [NaN]. *)
Definition gt (a b : number) : bool := (b <? a)%float.
Definition lt (a b : number) : bool := (a <? b)%float.

(** The literals [0.1] and [0.2]: the doubles nearest to 1/10 and 2/10,
    which are 0x1.999999999999ap-4 and 0x1.999999999999ap-3. *)
Definition tenth : number := 0.1%float.
Definition fifth : number := 0.2%float.

End Js.

(** ** Rows of the store *)

Record Entry := mkEntry {
  id : string;
  user_id : string;
  content : string;
  mood : option string;
  tags : list string;
  themes : list string;
  word_count : Z;
  created_at : Z;              (* milliseconds since the epoch *)
  deleted_at : option Z        (* soft-delete marker *)
}.

(** ** insights.ts: statistics of [GET /api/insights] *)

Record MoodStats := mkMoodStats { good : nat; okay : nat; rough : nat }.

Inductive Trend := up | stable | down.

(** [moodDistribution[e.mood]++] under [e.mood in moodDistribution], on the
    three counts.  For an inherited member of the object the increment
    writes an own member of that name and leaves the three counts as they
    are, as for a mood that is no key at all. *)
Definition bump (m : string) (d : MoodStats) : option MoodStats :=
  if (m =? "good")%string then Some (mkMoodStats (S (good d)) (okay d) (rough d))
  else if (m =? "okay")%string then Some (mkMoodStats (good d) (S (okay d)) (rough d))
  else if (m =? "rough")%string then Some (mkMoodStats (good d) (okay d) (S (rough d)))
  else None.

Definition moodDistribution (entries : list Entry) : MoodStats :=
  fold_left
    (fun d e =>
       match mood e with
       | Some m => if Js.truthy (Some m)
                   then match bump m d with Some d' => d' | None => d end
                   else d
       | None => d
       end)
    entries (mkMoodStats 0 0 0).

(** The members that every object literal inherits from
    [Object.prototype]; [key in obj] is true of them as of the own keys. *)
Definition OBJECT_PROTOTYPE_KEYS : list string :=
  [ "constructor"; "__defineGetter__"; "__defineSetter__"; "hasOwnProperty";
    "__lookupGetter__"; "__lookupSetter__"; "isPrototypeOf";
    "propertyIsEnumerable"; "toString"; "valueOf"; "__proto__";
    "toLocaleString" ].

Definition inherited (key : string) : bool :=
  existsb (String.eqb key) OBJECT_PROTOTYPE_KEYS.

(** [weights[key]] for a key with [key in weights]: the own keys of
    [{ good: 1, okay: 0, rough: -1 }] hold numbers, the inherited ones hold
    functions (and [__proto__] an object).  [None] is [!(key in weights)]. *)
Inductive Weight := Numeric (w : Z) | Member.

Definition weights (m : string) : option Weight :=
  if (m =? "good")%string then Some (Numeric 1)
  else if (m =? "okay")%string then Some (Numeric 0)
  else if (m =? "rough")%string then Some (Numeric (-1))
  else if inherited m then Some Member
  else None.

(** The accumulator of [entries.reduce((sum, e) => ..., 0)]: a number, or,
    from the first inherited member that [+] has added to it, a string
    ([0 + Object.prototype.toString] is the text
    ["0function toString() { [native code] }"]); [+] on a string and a
    number is again a string. *)
Inductive Accumulator := Sum (n : Z) | Text.

Definition addWeight (sum : Accumulator) (w : Weight) : Accumulator :=
  match sum, w with
  | Sum n, Numeric k => Sum (n + k)
  | _, _ => Text
  end.

(** The callback and the result of [entries.reduce((sum, e) => ..., 0)]. *)
Definition weightStep (sum : Accumulator) (e : Entry) : Accumulator :=
  match mood e with
  | Some m => if Js.truthy (Some m)
              then match weights m with Some w => addWeight sum w | None => sum end
              else sum
  | None => sum
  end.

Definition weightSum (entries : list Entry) : Accumulator :=
  fold_left weightStep entries (Sum 0).

(** [... / Math.max(entries.length, 1)]; a string that is not a numeric
    literal divides to [NaN]. *)
Definition moodScore (entries : list Entry) : Js.number :=
  match weightSum entries with
  | Sum n => (Js.number_of_Z n
              / Js.number_of_Z (Z.max (Z.of_nat (List.length entries)) 1))%float
  | Text => Js.NaN
  end.

Definition midpointOf {A} (entries : list A) : nat := (List.length entries / 2)%nat.
Definition firstHalf (entries : list Entry) : list Entry :=
  Js.slice_from (midpointOf entries) entries.            (* older entries *)
Definition secondHalf (entries : list Entry) : list Entry :=
  Js.slice_to (midpointOf entries) entries.              (* newer entries *)

Definition moodTrend (entries : list Entry) : Trend :=
  let firstHalfScore := moodScore (firstHalf entries) in
  let secondHalfScore := moodScore (secondHalf entries) in
  if Js.gt secondHalfScore (firstHalfScore + Js.tenth)%float then up
  else if Js.lt secondHalfScore (firstHalfScore - Js.tenth)%float then down
  else stable.

(** [Map<string, number>]: an association list in insertion order;
    [set] on a present key keeps the key's position. *)
Fixpoint map_get (k : string) (m : list (string * nat)) : option nat :=
  match m with
  | [] => None
  | (k', v) :: rest => if (k' =? k)%string then Some v else map_get k rest
  end.

Fixpoint map_set (k : string) (v : nat) (m : list (string * nat)) : list (string * nat) :=
  match m with
  | [] => [(k, v)]
  | (k', v') :: rest => if (k' =? k)%string then (k', v) :: rest else (k', v') :: map_set k v rest
  end.

Definition countInto (counts : list (string * nat)) (labels : list string)
  : list (string * nat) :=
  fold_left
    (fun m label => map_set label (match map_get label m with Some n => n | None => 0 end + 1)%nat m)
    labels counts.

Definition tagCounts (entries : list Entry) : list (string * nat) :=
  fold_left (fun m e => countInto m (tags e)) entries [].

Definition themeCounts (entries : list Entry) : list (string * nat) :=
  fold_left (fun m e => countInto m (themes e)) entries [].

Definition byCountDesc (a b : string * nat) : Z := (Z.of_nat (snd b) - Z.of_nat (snd a))%Z.

Record TagCount := mkTagCount { tag : string; count : nat }.

Definition topTags (entries : list Entry) : list TagCount :=
  map (fun p => mkTagCount (fst p) (snd p))
      (Js.slice_to 5 (Js.sort byCountDesc (tagCounts entries))).

Definition topThemes (entries : list Entry) : list string :=
  map fst (Js.slice_to 5 (Js.sort byCountDesc (themeCounts entries))).

(** ** Time *)

Definition DAY_MS : Z := 24 * 60 * 60 * 1000.

(** [d.setHours(0, 0, 0, 0)] *)
Definition setHours0 (t : Z) : Z := DAY_MS * (t / DAY_MS).

(** SQL [DATE(created_at)] as a day number, and the [Date] that
    [new Date(r.entry_date)] makes of it. *)
Definition DATE (t : Z) : Z := t / DAY_MS.
Definition Date_of_day (d : Z) : Z := DAY_MS * d.

(** The calendar date (year, month, day) of a day number, and back: the
    proleptic Gregorian calendar that [Date] uses. *)
Definition civil_from_days (z : Z) : Z * Z * Z :=
  let z := z + 719468 in
  let era := z / 146097 in
  let doe := z - era * 146097 in
  let yoe := (doe - doe / 1460 + doe / 36524 - doe / 146096) / 365 in
  let doy := doe - (365 * yoe + yoe / 4 - yoe / 100) in
  let mp := (5 * doy + 2) / 153 in
  let d := doy - (153 * mp + 2) / 5 + 1 in
  let m := if mp <? 10 then mp + 3 else mp - 9 in
  (yoe + era * 400 + (if m <=? 2 then 1 else 0), m, d).

Definition days_from_civil (y m d : Z) : Z :=
  let y := if m <=? 2 then y - 1 else y in
  let era := y / 400 in
  let yoe := y - era * 400 in
  let doy := (153 * (if 2 <? m then m - 3 else m + 9) + 2) / 5 + d - 1 in
  let doe := yoe * 365 + yoe / 4 - yoe / 100 + doy in
  era * 146097 + doe - 719468.

Definition digit (n : Z) : string :=
  String (ascii_of_nat (48 + Z.to_nat (n mod 10))) EmptyString.
Definition pad2 (n : Z) : string := digit (n / 10) +++ digit n.
Definition pad4 (n : Z) : string := pad2 (n / 100) +++ pad2 n.

(** [date.toISOString().split('T')[0]], for the years 0000 to 9999. *)
Definition isoDate (t : Z) : string :=
  let '(y, m, d) := civil_from_days (t / DAY_MS) in
  pad4 y +++ "-" +++ pad2 m +++ "-" +++ pad2 d.

(** [new Date(now.getFullYear(), now.getMonth(), 1)] *)
Definition monthStart (now : Z) : Z :=
  let '(y, m, _) := civil_from_days (now / DAY_MS) in
  Date_of_day (days_from_civil y m 1).

(** [d.getDay()]: 0 is Sunday; the epoch was a Thursday. *)
Definition getDay (t : Z) : Z := (t / DAY_MS + 4) mod 7.

(** [getWeekStart]: [setDate(getDate() - day + (day === 0 ? -6 : 1))] moves
    the date by that many days, then [setHours(0, 0, 0, 0)]. *)
Definition getWeekStart (date : Z) : Z :=
  let day := getDay date in
  let diff := - day + (if day =? 0 then -6 else 1) in
  setHours0 (date + DAY_MS * diff).

(** ** insights.ts: the loop of [calculateStreak] *)

Fixpoint streakLoop (currentDate : Z) (dates : list Z) (streak : nat) : nat :=
  match dates with
  | [] => streak
  | date :: rest =>
      let entryDate := setHours0 date in
      let diffDays := (currentDate - entryDate) / DAY_MS in
      if (diffDays =? 0) || (diffDays =? 1)
      then streakLoop entryDate rest (S streak)
      else streak
  end.

(** ** claude.ts: the context payload and its mood trend *)

Record RecentEntry := mkRecent {
  r_date : string;
  r_content : string;
  r_mood : option string;
  r_themes : list string
}.

Record ContextPayload := mkContext {
  recentEntries : list RecentEntry;
  ctx_moodTrend : string;
  recurringThemes : list string;
  longTermSummary : string
}.

(** [recentEntriesResult.rows.map(e => ({ date, content, mood, themes }))] *)
Definition toRecent (e : Entry) : RecentEntry :=
  mkRecent (isoDate (created_at e)) (content e) (mood e) (themes e).

Definition moodValue (m : option string) : Z :=
  match m with
  | Some s => if (s =? "good")%string then 1
              else if (s =? "okay")%string then 0
              else if (s =? "rough")%string then -1
              else 0
  | None => 0
  end.

Definition moodValues (entries : list RecentEntry) : list Z :=
  map (fun e => moodValue (r_mood e)) (filter (fun e => Js.truthy (r_mood e)) entries).

Definition NOT_ENOUGH : string := "Not enough data".
Definition TRENDING_UP : string := "Trending up compared to earlier this week".
Definition TRENDING_DOWN : string := "Trending down compared to earlier this week".
Definition RELATIVELY_STABLE : string := "Relatively stable this week".

Definition recentAvgOf (values : list Z) : Js.number :=
  let midpoint := (List.length values / 2)%nat in
  (Js.number_of_Z (Js.sum (Js.slice_to midpoint values))
   / Js.number_of_Z (Z.of_nat midpoint))%float.

Definition olderAvgOf (values : list Z) : Js.number :=
  let midpoint := (List.length values / 2)%nat in
  (Js.number_of_Z (Js.sum (Js.slice_from midpoint values))
   / Js.number_of_Z (Z.of_nat (List.length values - midpoint)))%float.

Definition calculateMoodTrend (entries : list RecentEntry) : string :=
  let values := moodValues entries in
  if (List.length values <? 2)%nat then NOT_ENOUGH
  else
    let recentAvg := recentAvgOf values in
    let olderAvg := olderAvgOf values in
    if Js.gt recentAvg (olderAvg + Js.fifth)%float then TRENDING_UP
    else if Js.lt recentAvg (olderAvg - Js.fifth)%float then TRENDING_DOWN
    else RELATIVELY_STABLE.

Definition recurringThemesOf (entries : list RecentEntry) : list string :=
  let themeCounts := fold_left (fun m e => countInto m (r_themes e)) entries [] in
  Js.slice_to 5
    (map fst (Js.sort byCountDesc (filter (fun p => (2 <=? snd p)%nat) themeCounts))).

(** ** Rows of the other tables *)

Inductive Role := user | assistant.

Module Conversation.
Record t := mk {
  id : string;
  user_id : string;
  entry_id : option string;
  session_type : string;
  updated_at : Z
}.
End Conversation.

Module Message.
Record t := mk {
  conversation_id : string;
  role : Role;
  content : string
}.
End Message.

Module Summary.
Record t := mk {
  user_id : string;
  period_start : Z;            (* a DATE column: day number *)
  period_end : Z;
  period_type : string;
  summary : string;
  entry_count : nat
}.
Definition key (s : t) : string * Z * string := (user_id s, period_start s, period_type s).
End Summary.

(** The store.  [messages_tbl] is kept in insertion order, which is the
    order of [created_at] that the database assigns at insertion. *)
Record Db := mkDb {
  entries_tbl : list Entry;
  conversations_tbl : list Conversation.t;
  messages_tbl : list Message.t;
  summaries_tbl : list Summary.t
}.

(** ** The completion service *)

Inductive ContentBlock :=
| TextBlock (text : string)
| OtherBlock (type : string).

Record ApiRequest := mkRequest {
  model : string;
  max_tokens : Z;
  system : string;
  api_messages : list (Role * string)
}.

Inductive ApiResult :=
| ApiOk (content : list ContentBlock)
| ApiError (msg : string).

(** [response.content.find(block => block.type === 'text')?.text] *)
Fixpoint findText (blocks : list ContentBlock) : option string :=
  match blocks with
  | [] => None
  | TextBlock text :: _ => Some text
  | OtherBlock _ :: rest => findText rest
  end.

Definition MODEL : string := "claude-sonnet-4-5-20250929".
Definition CANNED_REPLY : string := "I'm having trouble responding right now.".

Record Patterns := mkPatterns {
  p_themes : list (string * Z * string);
  emotionalPattern : string;
  unresolvedThreads : list string;
  contradictions : list string;
  growthIndicators : list string
}.

Definition DEFAULT_PATTERNS : Patterns :=
  mkPatterns [] "Unable to detect patterns" [] [] [].

(** ** Effects: the store and the completion service can fail *)

Inductive Error :=
| StoreError (msg : string)
| CompletionError (msg : string).

Inductive Outcome (A : Type) :=
| Ok (a : A)
| Throw (e : Error).
Arguments Ok {A} a.
Arguments Throw {A} e.

(** What a request can see and change: the store, the log of the requests
    sent to the completion service so far, and the number of statements
    sent to the store so far. *)
Record World := mkWorld {
  db : Db;
  apiLog : list ApiRequest;
  dbCalls : nat
}.

Definition M (A : Type) : Type := World -> Outcome A * World.

Definition ret {A} (a : A) : M A := fun w => (Ok a, w).

Definition bind {A B} (m : M A) (f : A -> M B) : M B :=
  fun w =>
    match m w with
    | (Ok a, w') => f a w'
    | (Throw e, w') => (Throw e, w')
    end.

Notation "'let*' x ':=' m 'in' k" := (bind m (fun x => k))
  (at level 10, x name, m at level 100, k at level 200).
Notation "m ';;' k" := (bind m (fun _ => k))
  (at level 100, k at level 200, right associativity).

(** ** SQL statements *)

Definition live (e : Entry) : bool :=
  match deleted_at e with None => true | Some _ => false end.

Definition newestFirst (a b : Entry) : Z := created_at b - created_at a.
Definition oldestFirst (a b : Entry) : Z := created_at a - created_at b.

(** [WHERE user_id = $1 AND created_at >= $2 AND deleted_at IS NULL] *)
Definition inWindow (userId : string) (since : Z) (e : Entry) : bool :=
  (user_id e =? userId)%string && (since <=? created_at e) && live e.

(** [... ORDER BY created_at DESC] *)
Definition select_since (userId : string) (since : Z) (d : Db) : list Entry :=
  Js.sort newestFirst (filter (inWindow userId since) (entries_tbl d)).

(** [... ORDER BY created_at DESC LIMIT 10] *)
Definition select_recent (userId : string) (since : Z) (d : Db) : list Entry :=
  firstn 10 (select_since userId since d).

(** [... ORDER BY created_at ASC] *)
Definition select_since_asc (userId : string) (since : Z) (d : Db) : list Entry :=
  Js.sort oldestFirst (filter (inWindow userId since) (entries_tbl d)).

(** [SELECT DISTINCT DATE(created_at) as entry_date FROM entries
     WHERE user_id = $1 AND deleted_at IS NULL ORDER BY entry_date DESC] *)
Definition newestDay (a b : Z) : Z := b - a.

Definition select_entry_dates (userId : string) (d : Db) : list Z :=
  Js.sort newestDay
    (nodup Z.eq_dec
       (map (fun e => DATE (created_at e))
          (filter (fun e => (user_id e =? userId)%string && live e) (entries_tbl d)))).

(** [SELECT content FROM entries WHERE id = $1] *)
Definition select_entry_content (entryId : string) (d : Db) : list string :=
  map content (filter (fun e => (id e =? entryId)%string) (entries_tbl d)).

(** entries.ts: [UPDATE entries SET deleted_at = CURRENT_TIMESTAMP
     WHERE id = $1 AND user_id = $2 AND deleted_at IS NULL] *)
Definition soft_delete (entryId userId : string) (now : Z) (d : Db) : Db :=
  mkDb (map (fun e => if (id e =? entryId)%string && (user_id e =? userId)%string && live e
                      then mkEntry (id e) (user_id e) (content e) (mood e) (tags e)
                             (themes e) (word_count e) (created_at e) (Some now)
                      else e)
            (entries_tbl d))
       (conversations_tbl d) (messages_tbl d) (summaries_tbl d).

(** [SELECT * FROM conversations WHERE id = $1 AND user_id = $2] *)
Definition select_conversation (conversationId userId : string) (d : Db)
  : list Conversation.t :=
  filter (fun c => (Conversation.id c =? conversationId)%string
                   && (Conversation.user_id c =? userId)%string)
         (conversations_tbl d).

(** [SELECT * FROM messages WHERE conversation_id = $1 ORDER BY created_at ASC] *)
Definition select_messages (conversationId : string) (d : Db) : list Message.t :=
  filter (fun m => (Message.conversation_id m =? conversationId)%string) (messages_tbl d).

(** [INSERT INTO messages (conversation_id, role, content) VALUES (...)] *)
Definition insert_message (conversationId : string) (r : Role) (text : string) (d : Db) : Db :=
  mkDb (entries_tbl d) (conversations_tbl d)
       (messages_tbl d ++ [Message.mk conversationId r text])
       (summaries_tbl d).

(** [UPDATE conversations SET updated_at = CURRENT_TIMESTAMP WHERE id = $1] *)
Definition touch_conversation (conversationId : string) (now : Z) (d : Db) : Db :=
  mkDb (entries_tbl d)
       (map (fun c => if (Conversation.id c =? conversationId)%string
                      then Conversation.mk (Conversation.id c) (Conversation.user_id c)
                             (Conversation.entry_id c) (Conversation.session_type c) now
                      else c)
            (conversations_tbl d))
       (messages_tbl d) (summaries_tbl d).

Definition sameKey (userId : string) (periodStart : Z) (periodType : string)
  (s : Summary.t) : bool :=
  (Summary.user_id s =? userId)%string
  && (Summary.period_start s =? periodStart)
  && (Summary.period_type s =? periodType)%string.

(** [SELECT summary FROM summaries
     WHERE user_id = $1 AND period_start = $2 AND period_type = $3] *)
Definition select_summary (userId : string) (periodStart : Z) (periodType : string)
  (d : Db) : list string :=
  map Summary.summary (filter (sameKey userId periodStart periodType) (summaries_tbl d)).

(** [SELECT summary FROM summaries WHERE user_id = $1 AND period_type = 'monthly'
     ORDER BY period_start DESC LIMIT 1] *)
Definition select_latest_monthly (userId : string) (d : Db) : list string :=
  map Summary.summary
    (firstn 1
       (Js.sort (fun a b => Summary.period_start b - Summary.period_start a)
          (filter (fun s => (Summary.user_id s =? userId)%string
                            && (Summary.period_type s =? "monthly")%string)
                  (summaries_tbl d)))).

(** [INSERT INTO summaries (...) VALUES (...)
     ON CONFLICT (user_id, period_start, period_type)
     DO UPDATE SET summary = $5, entry_count = $6] *)
Fixpoint upsert (row : Summary.t) (rows : list Summary.t) : list Summary.t :=
  match rows with
  | [] => [row]
  | r :: rest =>
      if sameKey (Summary.user_id row) (Summary.period_start row) (Summary.period_type row) r
      then Summary.mk (Summary.user_id r) (Summary.period_start r) (Summary.period_end r)
             (Summary.period_type r) (Summary.summary row) (Summary.entry_count row) :: rest
      else r :: upsert row rest
  end.

Definition upsert_summary (row : Summary.t) (d : Db) : Db :=
  mkDb (entries_tbl d) (conversations_tbl d) (messages_tbl d) (upsert row (summaries_tbl d)).


(** ** entries.ts and the remaining statements of claude.ts and chat.ts *)

(** claude.ts, [generateReflection]:
    [SELECT content, mood, created_at FROM entries
     WHERE user_id = $1 AND id != $2 AND deleted_at IS NULL
     ORDER BY created_at DESC LIMIT 5] *)
Definition select_reflection_context (userId entryId : string) (d : Db) : list Entry :=
  firstn 5
    (Js.sort newestFirst
       (filter (fun e => (user_id e =? userId)%string && negb (id e =? entryId)%string
                         && live e)
               (entries_tbl d))).

Inductive ReflectionStyle := brief | deep | questioning.

Definition styleInstructions (style : ReflectionStyle) : string :=
  match style with
  | brief => "Keep it to 2-3 sentences maximum. One observation or one question, not both."
  | deep => "You can be more thorough - 3-4 sentences exploring patterns or tensions."
  | questioning =>
      "Focus on asking a single, thought-provoking question based on what you noticed."
  end.

(** [e.content.slice(0, 200)]; a string is the sequence of its characters. *)
Definition renderReflectionContext (e : Entry) : string :=
  isoDate (created_at e) +++ " (" +++ Js.or_else (mood e) "no mood" +++ "): "
  +++ substring 0 200 (content e) +++ "...".

Definition reflectionPrompt (entry : Entry) (style : ReflectionStyle) (rows : list Entry)
  : string :=
  let recentContext := Js.join nl (map renderReflectionContext rows) in
  "Generate a reflection on this journal entry." +++ nl +++ nl
  +++ "## Guidelines" +++ nl
  +++ "- Acknowledge the core emotion or experience first" +++ nl
  +++ "- Notice one interesting thing (a pattern, tension, contradiction, or insight)" +++ nl
  +++ "- " +++ styleInstructions style +++ nl
  +++ "- Don't be preachy or prescriptive" +++ nl
  +++ "- Match Tom's tone - if he's being dry, you can be dry" +++ nl +++ nl
  +++ "## Entry" +++ nl
  +++ content entry +++ nl +++ nl
  +++ "## Mood" +++ nl
  +++ Js.or_else (mood entry) "Not specified" +++ nl +++ nl
  +++ "## Recent Context" +++ nl
  +++ Js.or_else (Some recentContext) "No recent entries".

Definition REFLECTION_SYSTEM : string :=
  "You are Tom's journal companion. Generate brief, thoughtful reflections on his entries. Be direct, avoid therapy-speak, and don't be preachy.".

(** entries.ts:
    [SELECT * FROM entries WHERE id = $1 AND user_id = $2 AND deleted_at IS NULL] *)
Definition select_entry (entryId userId : string) (d : Db) : list Entry :=
  filter (fun e => (id e =? entryId)%string && (user_id e =? userId)%string && live e)
         (entries_tbl d).

(** entries.ts, [GET /api/entries]: the parameters of the query string.

    - [q_limit], [q_offset]: [None] when the parameter is absent, so that
      the default of the destructuring ([limit = 20], [offset = 0]) applies;
      [Some n] when the parameter is present and [Number(...)] of its text
      is the natural number [n].  The empty text of [?limit=] is present:
      [Number('')] is 0, so it is [Some 0] and the statement has [LIMIT 0].
      A text of which [Number] makes no natural number has no [ListQuery]:
      the store rejects the statement.
    - [q_mood], [q_tag]: the text of the parameter, [None] when absent; the
      route tests them for truthiness and so ignores an empty text as an
      absent one.
    - [q_startDate], [q_endDate]: the instant that the store makes of a
      text that is present and not empty; [None] when the parameter is
      absent or empty, which the truthiness test of the route ignores
      alike. *)
Record ListQuery := mkListQuery {
  q_limit : option nat;
  q_offset : option nat;
  q_mood : option string;
  q_tag : option string;
  q_startDate : option Z;
  q_endDate : option Z
}.

(** The conditions that the route appends to
    [WHERE user_id = $1 AND deleted_at IS NULL]. *)
Definition listConditions (userId : string) (q : ListQuery) : list (Entry -> bool) :=
  [fun e => (user_id e =? userId)%string && live e]
  ++ (if Js.truthy (q_mood q)
      then [fun e => match mood e with
                     | Some m => (m =? Js.or_else (q_mood q) EmptyString)%string
                     | None => false
                     end]
      else [])
  ++ (if Js.truthy (q_tag q)
      then [fun e => existsb (String.eqb (Js.or_else (q_tag q) EmptyString)) (tags e)]
      else [])
  ++ (match q_startDate q with
      | Some startDate => [fun e => startDate <=? created_at e]
      | None => []
      end)
  ++ (match q_endDate q with
      | Some endDate => [fun e => created_at e <=? endDate]
      | None => []
      end).

(** [Number(limit)] and [Number(offset)] after
    [const { limit = 20, offset = 0, ... } = req.query]. *)
Definition limitOf (q : ListQuery) : nat := match q_limit q with Some n => n | None => 20 end.
Definition offsetOf (q : ListQuery) : nat := match q_offset q with Some n => n | None => 0 end.

(** [... ORDER BY created_at DESC LIMIT $n OFFSET $m] *)
Definition select_entries (userId : string) (q : ListQuery) (d : Db) : list Entry :=
  firstn (limitOf q)
    (skipn (offsetOf q)
       (Js.sort newestFirst
          (filter (fun e => forallb (fun c => c e) (listConditions userId q))
                  (entries_tbl d)))).

(** ** middleware/errorHandler.ts *)

Module AppError.
Record t := mk {
  name : string;
  message : string;
  stack : option string;
  statusCode : option Z;
  code : option string
}.
End AppError.

(** [res.status(statusCode).json({ error: message, ...stack })]; a [stack]
    that is absent or undefined does not appear in the body. *)
Record ErrorResponse := mkErrorResponse {
  res_status : Z;
  res_error : string;
  res_stack : option string
}.

Definition INTERNAL_SERVER_ERROR : string := "Internal server error".

Definition hasCode (err : AppError.t) (c : string) : bool :=
  match AppError.code err with
  | Some c' => (c' =? c)%string
  | None => false
  end.

(** [production] is [process.env.NODE_ENV === 'production']. *)
Definition errorHandler (production : bool) (err : AppError.t) : ErrorResponse :=
  (* err.statusCode || 500, err.message || 'Internal server error' *)
  let statusCode0 :=
    match AppError.statusCode err with
    | Some n => if n =? 0 then 500 else n
    | None => 500
    end in
  let message0 := Js.or_else (Some (AppError.message err)) INTERNAL_SERVER_ERROR in
  let '(statusCode, message) :=
    if hasCode err "23505" then (409, "Resource already exists")
    else if hasCode err "23503" then (400, "Invalid reference")
    else if (AppError.name err =? "SyntaxError")%string then (400, "Invalid JSON")
    else (statusCode0, message0) in
  let message :=
    if production && (statusCode =? 500) then INTERNAL_SERVER_ERROR else message in
  mkErrorResponse statusCode message (if production then None else AppError.stack err).

(** ** frontend: stores/journalStore.ts

    The part of the store that [sendMessage] reads and writes.  An action
    runs to its end before another one starts: no other update of the store
    falls between the request and its answer. *)

Module Client.

Record Message := mkMessage {
  m_id : string;
  m_role : Role;
  m_content : string;
  m_created_at : string
}.

Record Conversation := mkConversation {
  c_id : string;
  c_entry_id : option string;
  c_session_type : string;
  c_messages : list Message;
  c_created_at : string;
  c_updated_at : string
}.

Record Store := mkStore {
  currentConversation : option Conversation;
  isTyping : bool;
  selectedEntryId : option string
}.

(** lib/api.ts: the body of [POST /api/chat] and its answer. *)
Record SendMessageParams := mkParams {
  p_message : string;
  p_conversationId : option string;
  p_entryId : option string
}.

Record ChatResponse := mkResponse {
  r_conversationId : string;
  r_response : string
}.

Definition setCurrentConversation (conversation : option Conversation) (s : Store) : Store :=
  mkStore conversation (isTyping s) (selectedEntryId s).

Definition setIsTyping (typing : bool) (s : Store) : Store :=
  mkStore (currentConversation s) typing (selectedEntryId s).

(** [set((state) => ({ currentConversation: state.currentConversation
      ? { ...state.currentConversation, ... } : null }))] *)
Definition updateConversation (f : Conversation -> Conversation) (s : Store) : Store :=
  mkStore (match currentConversation s with Some c => Some (f c) | None => None end)
          (isTyping s) (selectedEntryId s).

Definition addMessage (message : Message) (s : Store) : Store :=
  updateConversation
    (fun c => mkConversation (c_id c) (c_entry_id c) (c_session_type c)
                (c_messages c ++ [message]) (c_created_at c) (c_updated_at c))
    s.

(** [messages.slice(0, -1)] *)
Definition dropLast {A} (l : list A) : list A := firstn (List.length l - 1) l.

(** The conversation identifier that [sendMessage] puts in the request:
    [currentConversation?.id.startsWith('temp') ? undefined
                                                : currentConversation?.id] *)
Definition wireConversationId (current : option Conversation) : option string :=
  match current with
  | Some c => if String.prefix "temp" (c_id c) then None else Some (c_id c)
  | None => None
  end.

Section Frontend.

(** [api.sendMessage]: [None] when the promise is rejected; [String(n)] and
    [new Date(t).toISOString()]. *)
Variable api_sendMessage : SendMessageParams -> option ChatResponse.
Variable Number_toString : Z -> string.
Variable toISOString : Z -> string.

(** The request that [sendMessage] sends from a store. *)
Definition requestOf (content : string) (s : Store) : SendMessageParams :=
  mkParams content (wireConversationId (currentConversation s))
    (if Js.truthy (selectedEntryId s) then selectedEntryId s else None).

(** [sendMessage(content)], started at the instant [now] and answered at the
    instant [later]. *)
Definition sendMessage (content : string) (now later : Z) (s : Store) : Store :=
  let userMessage :=
    mkMessage ("temp-" +++ Number_toString now) user content (toISOString now) in
  let s1 :=
    match currentConversation s with
    | Some _ => addMessage userMessage s
    | None =>
        setCurrentConversation
          (Some (mkConversation ("temp-conv-" +++ Number_toString now) (selectedEntryId s)
                   (if Js.truthy (selectedEntryId s) then "entry_reflection" else "freeform")
                   [userMessage] (toISOString now) (toISOString now)))
          s
    end in
  let s2 := setIsTyping true s1 in
  let s3 :=
    match api_sendMessage (requestOf content s) with
    | Some response =>
        let assistantMessage :=
          mkMessage ("assistant-" +++ Number_toString later) assistant (r_response response)
            (toISOString later) in
        updateConversation
          (fun c => mkConversation (r_conversationId response) (c_entry_id c)
                      (c_session_type c) (c_messages c ++ [assistantMessage])
                      (c_created_at c) (c_updated_at c))
          s2
    | None =>
        updateConversation
          (fun c => mkConversation (c_id c) (c_entry_id c) (c_session_type c)
                      (dropLast (c_messages c)) (c_created_at c) (c_updated_at c))
          s2
    end in
  setIsTyping false s3.

End Frontend.

End Client.
(** ** Vocabulary of the statements *)

Definition hasMood (m : string) (e : Entry) : bool :=
  match mood e with Some s => (s =? m)%string | None => false end.

Definition countMood (m : string) (entries : list Entry) : nat :=
  List.length (filter (hasMood m) entries).

(** An entry whose mood names a member that objects inherit, such as
    [toString]; the entries route stores no such mood. *)
Definition inheritedMood (e : Entry) : bool :=
  match mood e with Some s => inherited s | None => false end.

(** The average of a half: good entries minus rough entries over the
    number of entries (1 for the empty half), as a double; not a number
    when the half holds a mood that names an inherited member. *)
Definition halfAvg (half : list Entry) : Js.number :=
  if existsb inheritedMood half then Js.NaN
  else (Js.number_of_Z (Z.of_nat (countMood "good" half) - Z.of_nat (countMood "rough" half))
        / Js.number_of_Z (Z.max (Z.of_nat (List.length half)) 1))%float.

Definition mooded (entries : list RecentEntry) : list RecentEntry :=
  filter (fun e => Js.truthy (r_mood e)) entries.

Definition saysMood (m : string) (e : RecentEntry) : bool :=
  match r_mood e with Some s => (s =? m)%string | None => false end.

Definition moodedAvg (half : list RecentEntry) : Js.number :=
  (Js.number_of_Z (Z.of_nat (List.length (filter (saysMood "good") half))
                   - Z.of_nat (List.length (filter (saysMood "rough") half)))
   / Js.number_of_Z (Z.of_nat (List.length half)))%float.

Definition inGrace (g : Z) : bool := (g =? 0) || (g =? 1).

Definition atMostOne (g : Z) : bool := g <=? 1.

Fixpoint gaps (prev : Z) (days : list Z) : list Z :=
  match days with
  | [] => []
  | d :: rest => (prev - d) :: gaps d rest
  end.

Fixpoint leading {A} (p : A -> bool) (l : list A) : nat :=
  match l with
  | [] => 0
  | x :: rest => if p x then S (leading p rest) else 0
  end.

Fixpoint descending (days : list Z) : Prop :=
  match days with
  | d1 :: rest => match rest with d2 :: _ => d2 < d1 | [] => True end /\ descending rest
  | [] => True
  end.

Definition notAfter (today : Z) (days : list Z) : Prop :=
  match days with d :: _ => d <= today | [] => True end.

Definition streakOf (now : Z) (days : list Z) : nat :=
  streakLoop (setHours0 now) (map Date_of_day days) 0.

Definition contiguous (today : Z) (n : nat) : list Z :=
  map (fun i => today - Z.of_nat i) (seq 0 n).

(** [wp m Q w]: running [m] in the world [w] ends in an outcome and a world
    that satisfy [Q]. *)
Definition wp {A} (m : M A) (Q : Outcome A -> World -> Prop) (w : World) : Prop :=
  let (r, w') := m w in Q r w'.

Definition isAssistant (m : Message.t) : bool :=
  match Message.role m with assistant => true | user => false end.

(** The messages of role 'assistant' that the store holds. *)
Definition assistantMessages (d : Db) : list Message.t :=
  filter isAssistant (messages_tbl d).


(** [sub] occurs in [s]. *)
Definition contains (s sub : string) : Prop := exists pre post, s = pre +++ sub +++ post.

(** The store without its soft-deleted entries. *)
Definition purge (d : Db) : Db :=
  mkDb (filter live (entries_tbl d)) (conversations_tbl d) (messages_tbl d) (summaries_tbl d).

Definition purgeWorld (w : World) : World :=
  mkWorld (purge (db w)) (apiLog w) (dbCalls w).

(** The scenario of three entries written 6, 3 and 1 days before [now]. *)
Definition scenario_entry (ident : string) (now daysAgo : Z) (m : string)
  (labels : list string) : Entry :=
  mkEntry ident "tom" "entry text" (Some m) labels [] 2 (now - daysAgo * DAY_MS) None.

Definition entry_T6 (now : Z) : Entry := scenario_entry "T-6" now 6 "rough" ["work"].
Definition entry_T3 (now : Z) : Entry := scenario_entry "T-3" now 3 "okay" ["work"; "health"].
Definition entry_T1 (now : Z) : Entry := scenario_entry "T-1" now 1 "good" ["wins"].

Definition scenario_db (now : Z) : Db :=
  mkDb [entry_T6 now; entry_T3 now; entry_T1 now] [] [] [].

(** The trend that the specification's words prescribe for the context
    window: the whole sequence is cut at its floor midpoint, each half is
    averaged over the number of its entries, the thresholds are 0.1. *)
Definition spec_halfAvg (half : list RecentEntry) : Js.number :=
  (Js.number_of_Z (Js.sum (map (fun e => moodValue (r_mood e)) half))
   / Js.number_of_Z (Z.of_nat (List.length half)))%float.

Definition spec_moodTrend (entries : list RecentEntry) : Trend :=
  let midpoint := (List.length entries / 2)%nat in
  let newerAvg := spec_halfAvg (firstn midpoint entries) in
  let olderAvg := spec_halfAvg (skipn midpoint entries) in
  if Js.gt newerAvg (olderAvg + Js.tenth)%float then up
  else if Js.lt newerAvg (olderAvg - Js.tenth)%float then down
  else stable.

(** ** Concrete services and stores *)

Definition PERSONA : string := "You are Tom's journal companion.".
Definition GUIDELINES : string := "## Guidelines".

Definition store_up (n : nat) : option string := None.
Definition completion_says (text : string) (n : nat) (req : ApiRequest) : ApiResult :=
  ApiOk [TextBlock text].
Definition completion_times_out (n : nat) (req : ApiRequest) : ApiResult :=
  ApiError "Request timed out.".
Definition completion_without_text (n : nat) (req : ApiRequest) : ApiResult := ApiOk [].
Definition uuid_of (n : nat) : string := "conversation-" +++ pad2 (Z.of_nat n).
Definition parse_objects_only (s : string) : option Patterns :=
  if (s =? "{}")%string then Some (mkPatterns [] EmptyString [] [] []) else None.

(** 1 January 2024, 09:00 UTC. *)
Definition demo_now : Z := Date_of_day 19723 + 9 * 60 * 60 * 1000.

Definition empty_world : World := mkWorld (mkDb [] [] [] []) [] 0.

Definition recent_of (m : option string) : RecentEntry :=
  mkRecent "2024-01-01" "entry text" m [].

(** An entry without mood followed by an older good one; and ten entries
    with moods, the newest good, the others okay. *)
Definition sparse_moods : list RecentEntry := [recent_of None; recent_of (Some "good")].
Definition ten_moods : list RecentEntry :=
  recent_of (Some "good") :: repeat (recent_of (Some "okay")) 9.

(** A soft-deleted entry of tom, and two entries of ana. *)
Definition deleted_entry : Entry :=
  mkEntry "11111111-1111-4111-8111-111111111111" "tom" "A thought I deleted."
    (Some "rough") ["work"] ["doubt"] 4 (demo_now - DAY_MS) (Some (demo_now - 1000)).
Definition ana_entry_1 : Entry :=
  mkEntry "22222222-2222-4222-8222-222222222222" "ana" "Ana's private note."
    (Some "good") [] [] 3 (demo_now - DAY_MS) None.
Definition ana_entry_2 : Entry :=
  mkEntry "33333333-3333-4333-8333-333333333333" "ana" "Another note of Ana."
    None [] [] 4 (demo_now - 2 * DAY_MS) None.

Definition world_with_deleted : World := mkWorld (mkDb [deleted_entry] [] [] []) [] 0.
Definition scenario_world : World := mkWorld (scenario_db demo_now) [] 0.

Definition good_entry : Entry :=
  mkEntry "44444444-4444-4444-8444-444444444444" "tom" "A good day." (Some "good")
    [] [] 3 (demo_now - DAY_MS) None.

Definition empty_context : ContextPayload := mkContext [] NOT_ENOUGH [] EmptyString.

(** An entry of tom written on the Monday of [demo_now], one hour earlier. *)
Definition week_entry : Entry :=
  mkEntry "55555555-5555-4555-8555-555555555555" "tom" "Back at work." (Some "okay")
    ["work"] [] 3 (demo_now - 60 * 60 * 1000) None.
Definition week_world : World := mkWorld (mkDb [week_entry] [] [] []) [] 0.

(** Entries of tom written three days before [demo_now] and one day after
    it; a store of entries of today, yesterday and three days ago; a store
    of the entry of tomorrow alone. *)
Definition old_entry : Entry :=
  mkEntry "77777777-7777-4777-8777-777777777777" "tom" "A slow start." (Some "okay")
    [] [] 3 (demo_now - 3 * DAY_MS) None.
Definition tomorrow_entry : Entry :=
  mkEntry "88888888-8888-4888-8888-888888888888" "tom" "Written ahead." None
    [] [] 2 (demo_now + DAY_MS) None.
Definition streak_world : World :=
  mkWorld (mkDb [old_entry; good_entry; week_entry] [] [] []) [] 0.
Definition tomorrow_world : World := mkWorld (mkDb [tomorrow_entry] [] [] []) [] 0.

(** ** Further vocabulary *)

(** The entry has one of the three moods that the schema of the entries
    route admits. *)
Definition knownMood (e : Entry) : bool :=
  hasMood "good" e || hasMood "okay" e || hasMood "rough" e.

(** The distinct labels of a sequence, in the order of their first
    occurrence. *)
Fixpoint firstSeen (labels : list string) : list string :=
  match labels with
  | [] => []
  | x :: rest => x :: filter (fun y => negb (y =? x)%string) (firstSeen rest)
  end.

Definition occurrences (labels : list string) (t : string) : nat :=
  count_occ string_dec labels t.

Definition hasKey (t : string) (m : list (string * nat)) : bool :=
  existsb (fun p => (fst p =? t)%string) m.

Definition byCount (p : string * nat) : Z := Z.of_nat (snd p).

(** The first five pairs of a tally sorted by count, largest first. *)
Definition ranked (m : list (string * nat)) : list (string * nat) :=
  Js.slice_to 5 (Js.sort byCountDesc m).

(** [a] is an initial segment of [b]. *)
Definition prefixOf {A} (a b : list A) : Prop := exists rest, b = a ++ rest.

(** The entries that a user can see: their own, not soft-deleted. *)
Definition visible (userId : string) (d : Db) : list Entry :=
  filter (fun e => (user_id e =? userId)%string && live e) (entries_tbl d).

(** The user has an entry, not soft-deleted, written on the day [day]. *)
Definition wroteOn (userId : string) (d : Db) (day : Z) : bool :=
  existsb (fun e => DATE (created_at e) =? day) (visible userId d).

Definition ownSummaries (userId : string) (d : Db) : list Summary.t :=
  filter (fun s => (Summary.user_id s =? userId)%string) (summaries_tbl d).

Definition ownMonthly (userId : string) (d : Db) : list Summary.t :=
  filter (fun s => (Summary.user_id s =? userId)%string
                   && (Summary.period_type s =? "monthly")%string)
         (summaries_tbl d).

(** The query of a page: the same filters with the given offset and limit. *)
Definition pageOf (q : ListQuery) (offset limit : nat) : ListQuery :=
  mkListQuery (Some limit) (Some offset) (q_mood q) (q_tag q) (q_startDate q) (q_endDate q).

(** The parts of the calendar computation: the first day of the year [yoe]
    of a 400-year era that begins on a 1 March, the year of a day of the era,
    and the first day of the month [mp] of a year that begins in March. *)
Definition yearStart (yoe : Z) : Z := 365 * yoe + yoe / 4 - yoe / 100.
Definition yearOf (doe : Z) : Z := (doe - doe / 1460 + doe / 36524 - doe / 146096) / 365.
Definition monthOffset (mp : Z) : Z := (153 * mp + 2) / 5.

(** ** Further stores *)

(** The store of the scenario with entries of ana and a soft-deleted entry
    of tom among its entries, and with a conversation of ana. *)
Definition crowded_world : World :=
  mkWorld
    (mkDb [ana_entry_1; entry_T6 demo_now; deleted_entry; entry_T3 demo_now; ana_entry_2;
           entry_T1 demo_now]
          [Conversation.mk "conversation-of-ana" "ana" None "freeform" (demo_now - DAY_MS)]
          [Message.mk "conversation-of-ana" user "Something only ana should read."]
          [])
    [] 0.

(** A second entry of tom written today, and the store of an entry of
    yesterday and two of today. *)
Definition late_entry : Entry :=
  mkEntry "66666666-6666-4666-8666-666666666666" "tom" "Still at work." (Some "rough")
    ["work"] [] 3 (demo_now + 60 * 60 * 1000) None.

Definition two_day_world : World := mkWorld (mkDb [good_entry; week_entry; late_entry] [] [] []) [] 0.
Definition two_entry_world : World := mkWorld (mkDb [good_entry; week_entry] [] [] []) [] 0.

(** The store from which the entries with the identifier [entryId] are
    removed. *)
Definition erased (entryId : string) (d : Db) : Db :=
  mkDb (filter (fun e => negb (id e =? entryId)%string) (entries_tbl d))
       (conversations_tbl d) (messages_tbl d) (summaries_tbl d).

(** Twenty entries, newest first: three rough and seven okay ones, then
    four rough and six okay ones.  Ten entries of the context window: three
    rough and two okay ones, then four rough and an okay one.  An entry
    whose mood names a member that every object inherits. *)
Definition entry_of_mood (m : option string) : Entry :=
  mkEntry "99999999-9999-4999-8999-999999999999" "tom" "entry text" m [] [] 2 demo_now None.

Definition boundary_entries : list Entry :=
  repeat (entry_of_mood (Some "rough")) 3 ++ repeat (entry_of_mood (Some "okay")) 7
  ++ repeat (entry_of_mood (Some "rough")) 4 ++ repeat (entry_of_mood (Some "okay")) 6.

Definition boundary_moods : list RecentEntry :=
  repeat (recent_of (Some "rough")) 3 ++ repeat (recent_of (Some "okay")) 2
  ++ repeat (recent_of (Some "rough")) 4 ++ repeat (recent_of (Some "okay")) 1.

Definition member_entry : Entry := entry_of_mood (Some "toString").
(** ** The backend, given its services *)

Section Backend.

Set Default Proof Using "Type".

(** The fixed persona text of [claude.ts] and the fixed instruction texts
    that end the summary and pattern prompts. *)
Variable BASE_SYSTEM_PROMPT : string.
Variable SUMMARY_GUIDELINES : string.
Variable PATTERNS_INSTRUCTIONS : string.

(** The outcome of the n-th request sent to the completion service, whether
    the n-th statement sent to the store fails, the identifier the store
    gives to the n-th conversation, and [JSON.parse] ([None]: it throws). *)
Variable anthropic_create : nat -> ApiRequest -> ApiResult.
Variable db_fault : nat -> option string.
Variable gen_uuid : nat -> string.
Variable JSON_parse : string -> option Patterns.

(** [await query(...)]: one statement, which reads and may change the store. *)
Definition query {A} (stmt : Db -> A * Db) : M A :=
  fun w =>
    match db_fault (dbCalls w) with
    | Some msg => (Throw (StoreError msg), mkWorld (db w) (apiLog w) (S (dbCalls w)))
    | None =>
        let (a, d) := stmt (db w) in
        (Ok a, mkWorld d (apiLog w) (S (dbCalls w)))
    end.

Definition reading {A} (sel : Db -> A) : Db -> A * Db := fun d => (sel d, d).
Definition writing (upd : Db -> Db) : Db -> unit * Db := fun d => (tt, upd d).

(** [await anthropic.messages.create(...)] *)
Definition messages_create (req : ApiRequest) : M (list ContentBlock) :=
  fun w =>
    let w' := mkWorld (db w) (apiLog w ++ [req]) (dbCalls w) in
    match anthropic_create (List.length (apiLog w)) req with
    | ApiOk blocks => (Ok blocks, w')
    | ApiError msg => (Throw (CompletionError msg), w')
    end.

(** *** claude.ts *)

Definition assembleContext (userId : string) (now : Z) : M ContextPayload :=
  let sevenDaysAgo := now - 7 * DAY_MS in
  let* rows := query (reading (select_recent userId sevenDaysAgo)) in
  let recent := map toRecent rows in
  let moodTrend := calculateMoodTrend recent in
  let recurring := recurringThemesOf recent in
  let* summaryResult := query (reading (select_latest_monthly userId)) in
  let longTerm := Js.or_else (hd_error summaryResult) EmptyString in
  ret (mkContext recent moodTrend recurring longTerm).

Definition renderRecent (e : RecentEntry) : string :=
  nl +++ "**" +++ r_date e +++ "** (" +++ Js.or_else (r_mood e) "no mood logged" +++ ")" +++ nl
  +++ r_content e +++ nl.

Definition themesLine (context : ContextPayload) : string :=
  if (0 <? List.length (recurringThemes context))%nat
  then Js.join ", " (recurringThemes context)
  else "No clear patterns yet".

Definition longTermLine (context : ContextPayload) : string :=
  Js.or_else (Some (longTermSummary context)) "No long-term summary available yet".

Definition contextSection (context : ContextPayload) : string :=
  nl +++ "## Current Context" +++ nl +++ nl
  +++ "### Recent Entries (Last 7 Days)" +++ nl
  +++ Js.join (nl +++ "---" +++ nl) (map renderRecent (recentEntries context)) +++ nl +++ nl
  +++ "### Mood Pattern" +++ nl
  +++ ctx_moodTrend context +++ nl +++ nl
  +++ "### Recurring Themes" +++ nl
  +++ themesLine context +++ nl +++ nl
  +++ "### Long-Term Context" +++ nl
  +++ longTermLine context +++ nl.

Definition sessionSection (currentEntry : option string) : string :=
  if Js.truthy currentEntry
  then nl +++ "## This Session" +++ nl +++ nl
       +++ "### Current Entry Being Discussed" +++ nl
       +++ Js.or_else currentEntry EmptyString +++ nl
  else EmptyString.

Definition buildSystemPrompt (context : ContextPayload) (currentEntry : option string)
  : string :=
  BASE_SYSTEM_PROMPT +++ nl +++ nl +++ "---" +++ nl
  +++ contextSection context +++ nl +++ sessionSection currentEntry.

Definition chat (context : ContextPayload) (conversationHistory : list (Role * string))
  (currentEntry : option string) : M string :=
  let systemPrompt := buildSystemPrompt context currentEntry in
  let* response :=
    messages_create (mkRequest MODEL 1024 systemPrompt conversationHistory) in
  ret (Js.or_else (findText response) CANNED_REPLY).

Definition renderSummaryEntry (e : Entry) : string :=
  nl +++ "**" +++ isoDate (created_at e) +++ "** (" +++ Js.or_else (mood e) "no mood" +++ ")" +++ nl
  +++ content e +++ nl.

Definition generateWeeklySummary (rows : list Entry) : M string :=
  let entriesText := Js.join (nl +++ "---" +++ nl) (map renderSummaryEntry rows) in
  let prompt :=
    "Generate a weekly reflection for Tom's journal." +++ nl +++ nl
    +++ "## This Week's Entries" +++ nl +++ entriesText +++ SUMMARY_GUIDELINES in
  let* response :=
    messages_create
      (mkRequest MODEL 800
         "You are Tom's journal companion. Generate thoughtful weekly summaries that capture the emotional arc of his week."
         [(user, prompt)]) in
  ret (Js.or_else (findText response) EmptyString).

Definition renderPatternEntry (e : Entry) : string :=
  nl +++ "**" +++ isoDate (created_at e) +++ "** (" +++ Js.or_else (mood e) "no mood" +++ ") ["
  +++ Js.join ", " (tags e) +++ "]" +++ nl
  +++ content e +++ nl.

Definition detectPatterns (rows : list Entry) : M Patterns :=
  let entriesText := Js.join (nl +++ "---" +++ nl) (map renderPatternEntry rows) in
  let prompt :=
    "Analyze these journal entries and extract patterns." +++ nl +++ nl
    +++ "## Entries" +++ nl +++ entriesText +++ PATTERNS_INSTRUCTIONS in
  let* response :=
    messages_create
      (mkRequest MODEL 1000
         "You are analyzing journal entries for patterns. Return only valid JSON, no explanation."
         [(user, prompt)]) in
  match JSON_parse (Js.or_else (findText response) "{}") with
  | Some parsed => ret parsed
  | None => ret DEFAULT_PATTERNS
  end.

(** *** insights.ts *)

Record WeeklyInsights := mkInsights {
  period_start_date : string;
  period_end_date : string;
  entryCount : nat;
  totalWords : Z;
  ins_moodDistribution : MoodStats;
  ins_moodTrend : Trend;
  ins_topTags : list TagCount;
  ins_topThemes : list string;
  ins_streak : nat
}.

Definition calculateStreak (userId : string) (now : Z) : M nat :=
  let* result := query (reading (select_entry_dates userId)) in
  match result with
  | [] => ret 0%nat
  | _ =>
      let dates := map Date_of_day result in
      let today := setHours0 now in
      ret (streakLoop today dates 0)
  end.

Definition periodStartDate (period : string) (now : Z) : Z :=
  if (period =? "week")%string then now - 7 * DAY_MS
  else if (period =? "month")%string then now - 30 * DAY_MS
  else if (period =? "quarter")%string then now - 90 * DAY_MS
  else now - 7 * DAY_MS.

(** [GET /api/insights] *)
Definition insightsGet (userId period : string) (now : Z) : M WeeklyInsights :=
  let startDate := periodStartDate period now in
  let* rows := query (reading (select_since userId startDate)) in
  let* streak := calculateStreak userId now in
  let totalWords := fold_left (fun sum e => sum + word_count e) rows 0 in
  ret (mkInsights (isoDate startDate) (isoDate now) (List.length rows) totalWords
         (moodDistribution rows) (moodTrend rows) (topTags rows) (topThemes rows) streak).

Inductive SummaryReply :=
| SummaryJson (summary : string)
| SummaryNull (message : string).

Definition periodTypeOf (period : string) : string :=
  if (period =? "month")%string then "monthly" else "weekly".

Definition summaryStart (periodType : string) (now : Z) : Z :=
  if (periodType =? "monthly")%string then monthStart now else getWeekStart now.

(** [GET /api/insights/summary] *)
Definition summaryGet (userId period : string) (now : Z) : M SummaryReply :=
  let periodType := periodTypeOf period in
  let startDate := summaryStart periodType now in
  let* existingSummary := query (reading (select_summary userId (DATE startDate) periodType)) in
  match existingSummary with
  | stored :: _ => ret (SummaryJson stored)
  | [] =>
      let* rows := query (reading (select_since_asc userId startDate)) in
      match rows with
      | [] => ret (SummaryNull "No entries for this period")
      | _ =>
          let* summary := generateWeeklySummary rows in
          query (writing (upsert_summary
                   (Summary.mk userId (DATE startDate) (DATE now) periodType summary
                      (List.length rows)))) ;;
          ret (SummaryJson summary)
      end
  end.

Inductive PatternsReply :=
| PatternsJson (patterns : Patterns)
| PatternsNull (message : string).

(** [GET /api/insights/patterns] *)
Definition patternsGet (userId : string) (now : Z) : M PatternsReply :=
  let thirtyDaysAgo := now - 30 * DAY_MS in
  let* rows := query (reading (select_since userId thirtyDaysAgo)) in
  if (List.length rows <? 3)%nat
  then ret (PatternsNull "Need more entries to detect patterns")
  else
    let* patterns := detectPatterns rows in
    ret (PatternsJson patterns).

(** *** chat.ts *)

Inductive ChatReply :=
| ChatJson (conversationId response : string)
| ChatNotFound.

(** [INSERT INTO conversations (user_id, entry_id, session_type)
     VALUES ($1, $2, $3) RETURNING *] *)
Definition insert_conversation (userId : string) (entryId : option string)
  (sessionType : string) (now : Z) (d : Db) : Conversation.t * Db :=
  let row := Conversation.mk (gen_uuid (List.length (conversations_tbl d)))
               userId entryId sessionType now in
  (row, mkDb (entries_tbl d) (conversations_tbl d ++ [row]) (messages_tbl d) (summaries_tbl d)).

(** The conversation of the turn: the stored one, or a new one. *)
Definition findOrCreateConversation (userId : string)
  (conversationId entryId : option string) (now : Z) : M (option Conversation.t) :=
  if Js.truthy conversationId
  then
    let* convResult :=
      query (reading (select_conversation (Js.or_else conversationId EmptyString) userId)) in
    ret (hd_error convResult)
  else
    let sessionType := if Js.truthy entryId then "entry_reflection" else "freeform" in
    let* row :=
      query (insert_conversation userId
               (if Js.truthy entryId then entryId else None) sessionType now) in
    ret (Some row).

(** [POST /api/chat] *)
Definition chatPost (userId message : string) (conversationId entryId : option string)
  (now : Z) : M ChatReply :=
  let* found := findOrCreateConversation userId conversationId entryId now in
  match found with
  | None => ret ChatNotFound
  | Some conversation =>
      let cid := Conversation.id conversation in
      query (writing (insert_message cid user message)) ;;
      let* messagesResult := query (reading (select_messages cid)) in
      let conversationHistory :=
        map (fun m => (Message.role m, Message.content m)) messagesResult in
      let* context := assembleContext userId now in
      let* currentEntry :=
        (if Js.truthy (Conversation.entry_id conversation)
         then
           let* entryResult :=
             query (reading (select_entry_content
                               (Js.or_else (Conversation.entry_id conversation) EmptyString))) in
           ret (hd_error entryResult)
         else ret None) in
      let* response := chat context conversationHistory currentEntry in
      query (writing (insert_message cid assistant response)) ;;
      query (writing (touch_conversation cid now)) ;;
      ret (ChatJson cid response)
  end.


(** *** Vocabulary of the statements about failures *)

(** From [w] to [w'] statements and requests were only added. *)
Definition grows (w w' : World) : Prop :=
  (dbCalls w <= dbCalls w')%nat /\ exists new, apiLog w' = apiLog w ++ new.

(** No statement and no completion request issued between [w] and [w']
    failed. *)
Definition clean (w w' : World) : Prop :=
  (forall n, (dbCalls w <= n < dbCalls w')%nat -> db_fault n = None)
  /\ (forall n req, (List.length (apiLog w) <= n)%nat ->
                    nth_error (apiLog w') n = Some req ->
                    exists blocks, anthropic_create n req = ApiOk blocks).

(** The last statement or request issued between [w] and [w'] failed with
    the error [e]. *)
Definition failedLast (w w' : World) (e : Error) : Prop :=
  match e with
  | StoreError msg =>
      exists n, dbCalls w' = S n /\ (dbCalls w <= n)%nat /\ db_fault n = Some msg
  | CompletionError msg =>
      exists log req, apiLog w' = log ++ [req]
                      /\ (List.length (apiLog w) <= List.length log)%nat
                      /\ anthropic_create (List.length log) req = ApiError msg
  end.

(** [m] surfaces failures: it succeeds only if nothing failed, and what it
    throws is the failure it met. *)
Definition surfaces {A} (m : M A) : Prop :=
  forall w,
    wp m (fun r w' =>
            grows w w'
            /\ match r with
               | Ok _ => clean w w'
               | Throw e => failedLast w w' e
               end) w.

(** The context payload that [assembleContext] computes from a store that
    answers. *)
Definition contextOf (userId : string) (now : Z) (d : Db) : ContextPayload :=
  let recent := map toRecent (select_recent userId (now - 7 * DAY_MS) d) in
  mkContext recent (calculateMoodTrend recent) (recurringThemesOf recent)
    (Js.or_else (hd_error (select_latest_monthly userId d)) EmptyString).

(** The system prompts of the requests sent to the completion service. *)
Definition promptsSent (w : World) : list string := map system (apiLog w).

(** *** claude.ts: the reflection on an entry *)

Definition generateReflection (userId : string) (entry : Entry) (style : ReflectionStyle)
  : M string :=
  let* recentResult := query (reading (select_reflection_context userId (id entry))) in
  let prompt := reflectionPrompt entry style recentResult in
  let* response :=
    messages_create (mkRequest MODEL 300 REFLECTION_SYSTEM [(user, prompt)]) in
  ret (Js.or_else (findText response) EmptyString).

(** *** entries.ts *)

(** [GET /api/entries] *)
Definition entriesList (userId : string) (q : ListQuery) : M (list Entry * nat) :=
  let* result := query (reading (select_entries userId q)) in
  ret (result, List.length result).

Inductive EntryReply :=
| EntryJson (entry : Entry)
| EntryNotFound.

(** [GET /api/entries/:id] *)
Definition entryGet (userId entryId : string) : M EntryReply :=
  let* result := query (reading (select_entry entryId userId)) in
  match result with
  | [] => ret EntryNotFound
  | entry :: _ => ret (EntryJson entry)
  end.

Inductive DeleteReply :=
| NoContent
| DeleteNotFound.

(** [DELETE /api/entries/:id]; the statement answers with the number of the
    rows that it changed. *)
Definition entryDelete (userId entryId : string) (now : Z) : M DeleteReply :=
  let* rowCount :=
    query (fun d => (List.length (select_entry entryId userId d),
                     soft_delete entryId userId now d)) in
  if (rowCount =? 0)%nat then ret DeleteNotFound else ret NoContent.

(** *** chat.ts: reading a conversation *)

Inductive ConversationReply :=
| ConversationJson (conversation : Conversation.t) (messages : list Message.t)
| ConversationNotFound.

(** [GET /api/chat/conversations/:id] *)
Definition conversationGet (userId conversationId : string) : M ConversationReply :=
  let* convResult := query (reading (select_conversation conversationId userId)) in
  match convResult with
  | [] => ret ConversationNotFound
  | conversation :: _ =>
      let* messagesResult := query (reading (select_messages conversationId)) in
      ret (ConversationJson conversation messagesResult)
  end.

(** ** Running a request *)

Lemma append_assoc (a b c : string) : (a +++ b) +++ c = a +++ b +++ c.
Proof. induction a as [|ch a IH]; cbn; [reflexivity|now rewrite IH]. Qed.

Lemma wp_ret {A} (a : A) (Q : Outcome A -> World -> Prop) (w : World) :
  wp (ret a) Q w <-> Q (Ok a) w.
Proof. reflexivity. Qed.

Lemma wp_bind {A B} (m : M A) (f : A -> M B) (Q : Outcome B -> World -> Prop) (w : World) :
  wp (bind m f) Q w
  <-> wp m (fun r w' => match r with
                        | Ok a => wp (f a) Q w'
                        | Throw e => Q (Throw e) w'
                        end) w.
Proof. unfold wp, bind. destruct (m w) as [[a|e] w']; reflexivity. Qed.

Lemma wp_query {A} (stmt : Db -> A * Db) (Q : Outcome A -> World -> Prop) (w : World) :
  wp (query stmt) Q w
  <-> match db_fault (dbCalls w) with
      | Some msg => Q (Throw (StoreError msg)) (mkWorld (db w) (apiLog w) (S (dbCalls w)))
      | None => Q (Ok (fst (stmt (db w))))
                  (mkWorld (snd (stmt (db w))) (apiLog w) (S (dbCalls w)))
      end.
Proof.
  unfold wp, query. destruct (db_fault (dbCalls w)); [reflexivity|].
  destruct (stmt (db w)); reflexivity.
Qed.

Lemma wp_messages_create (req : ApiRequest) (Q : Outcome (list ContentBlock) -> World -> Prop)
  (w : World) :
  wp (messages_create req) Q w
  <-> match anthropic_create (List.length (apiLog w)) req with
      | ApiOk blocks => Q (Ok blocks) (mkWorld (db w) (apiLog w ++ [req]) (dbCalls w))
      | ApiError msg =>
          Q (Throw (CompletionError msg)) (mkWorld (db w) (apiLog w ++ [req]) (dbCalls w))
      end.
Proof.
  unfold wp, messages_create.
  destruct (anthropic_create (List.length (apiLog w)) req); reflexivity.
Qed.

Lemma wp_mono {A} (m : M A) (Q Q' : Outcome A -> World -> Prop) (w : World) :
  (forall r w', Q r w' -> Q' r w') -> wp m Q w -> wp m Q' w.
Proof. unfold wp. intros H. destruct (m w). apply H. Qed.

Lemma wp_run {A} (m : M A) (Q : Outcome A -> World -> Prop) (w : World) :
  wp m Q w <-> Q (fst (m w)) (snd (m w)).
Proof. unfold wp. destruct (m w); reflexivity. Qed.

Ltac wp_step :=
  cbn beta iota;
  lazymatch goal with
  | |- wp (bind _ _) _ _ => apply wp_bind
  | |- wp (ret _) _ _ => apply wp_ret
  | |- wp (query _) _ _ =>
      apply wp_query; cbn [db apiLog dbCalls fst snd reading writing];
      lazymatch goal with
      | |- match db_fault ?n with _ => _ end =>
          let F := fresh "Hfault" in destruct (db_fault n) eqn:F
      end
  | |- wp (messages_create _) _ _ =>
      apply wp_messages_create; cbn [db apiLog dbCalls];
      lazymatch goal with
      | |- match anthropic_create ?n ?req with _ => _ end =>
          let F := fresh "Hapi" in destruct (anthropic_create n req) eqn:F
      end
  | |- wp (if ?b then _ else _) _ _ => let F := fresh "Hif" in destruct b eqn:F
  | |- wp (match ?x with _ => _ end) _ _ => let F := fresh "Hcase" in destruct x eqn:F
  end.


(** ** A chat turn whose completion fails *)

Lemma assistantMessages_user (cid text : string) (d : Db) :
  assistantMessages (insert_message cid user text d) = assistantMessages d.
Proof.
  unfold assistantMessages, insert_message. cbn [messages_tbl].
  rewrite filter_app. cbn. apply app_nil_r.
Qed.

(** C8: when the completion request of a chat turn fails (a timeout
    included), the turn stores no message of role 'assistant': the assistant
    messages of the store are those it held before, the turn never answers
    with a reply, and once the request was sent the turn ends with the
    completion error itself; with a store that answers, the turn ends with
    that error unless the conversation was not found. *)
Theorem failed_completion_saves_no_reply
  (userId message : string) (conversationId entryId : option string) (now : Z)
  (w : World) (msg : string) :
  (forall req, anthropic_create (List.length (apiLog w)) req = ApiError msg) ->
  wp (chatPost userId message conversationId entryId now)
     (fun r w' =>
        assistantMessages (db w') = assistantMessages (db w)
        /\ (forall cid response, r <> Ok (ChatJson cid response))
        /\ (apiLog w' <> apiLog w -> r = Throw (CompletionError msg))
        /\ ((forall n, db_fault n = None) ->
            r = Ok ChatNotFound \/ r = Throw (CompletionError msg)))
     w.
Proof.
  intros Hfail.
  unfold chatPost, findOrCreateConversation, assembleContext, chat.
  repeat wp_step.
  all: cbn [db apiLog dbCalls fst snd insert_conversation].
  all: rewrite ?assistantMessages_user.
  all: try (rewrite Hfail in *; try discriminate).
  all: split; [reflexivity|].
  all: split; [intros cid response; discriminate|].
  all: split;
    [ intros Hlog; try (exfalso; apply Hlog; reflexivity); congruence
    | intros Hup; try (rewrite Hup in *; discriminate); auto ].
  all: right; congruence.
Qed.

(** ** Failures are surfaced *)

Lemma nth_error_Some_lt {A} (l : list A) (n : nat) (x : A) :
  nth_error l n = Some x -> (n < List.length l)%nat.
Proof. intros H. apply nth_error_Some. congruence. Qed.

Lemma grows_refl (w : World) : grows w w.
Proof. split; [lia|]. exists []. now rewrite app_nil_r. Qed.

Lemma grows_trans (w1 w2 w3 : World) : grows w1 w2 -> grows w2 w3 -> grows w1 w3.
Proof.
  intros [H1 [n1 E1]] [H2 [n2 E2]]. split; [lia|].
  exists (n1 ++ n2). now rewrite E2, E1, app_assoc.
Qed.

Lemma clean_refl (w : World) : clean w w.
Proof.
  split; [intros n Hn; lia|].
  intros n req Hn Hnth. apply nth_error_Some_lt in Hnth. lia.
Qed.

Lemma clean_trans (w1 w2 w3 : World) :
  grows w1 w2 -> grows w2 w3 -> clean w1 w2 -> clean w2 w3 -> clean w1 w3.
Proof.
  intros [G1 [n1 E1]] [G2 [n2 E2]] [D1 A1] [D2 A2]. split.
  - intros n Hn. destruct (Nat.lt_ge_cases n (dbCalls w2)); [apply D1|apply D2]; lia.
  - intros n req Hn Hnth.
    destruct (Nat.lt_ge_cases n (List.length (apiLog w2))) as [Hlt|Hge].
    + apply A1; [exact Hn|]. rewrite E2, nth_error_app1 in Hnth; assumption.
    + now apply A2.
Qed.

Lemma failedLast_grows (w1 w2 w3 : World) (e : Error) :
  grows w1 w2 -> failedLast w2 w3 e -> failedLast w1 w3 e.
Proof.
  intros [G1 [n1 E1]]. destruct e as [msg|msg]; cbn.
  - intros (n & En & Hn & Hf). exists n. repeat split; [exact En|lia|exact Hf].
  - intros (log & req & El & Hl & Hf). exists log, req. repeat split; try assumption.
    rewrite E1, length_app in Hl. lia.
Qed.

Lemma surfaces_ret {A} (a : A) : surfaces (ret a).
Proof. intros w. apply wp_ret. split; [apply grows_refl|apply clean_refl]. Qed.

Lemma surfaces_bind {A B} (m : M A) (f : A -> M B) :
  surfaces m -> (forall a, surfaces (f a)) -> surfaces (bind m f).
Proof.
  intros Hm Hf w. apply wp_bind. eapply wp_mono; [|apply Hm].
  intros [a|e] w1; cbn beta iota; [|intros Hthrown; exact Hthrown].
  intros [G1 C1]. eapply wp_mono; [|apply Hf].
  intros [b|e] w2 [G2 C2].
  - split; [eapply grows_trans; eassumption|eapply clean_trans; eassumption].
  - split; [eapply grows_trans; eassumption|eapply failedLast_grows; eassumption].
Qed.

Lemma surfaces_query {A} (stmt : Db -> A * Db) : surfaces (query stmt).
Proof.
  intros w. apply wp_query. destruct (db_fault (dbCalls w)) as [msg|] eqn:Hf.
  - split.
    + split; cbn; [lia|]. exists []. now rewrite app_nil_r.
    + cbn. exists (dbCalls w). repeat split; [lia|exact Hf].
  - split.
    + split; cbn; [lia|]. exists []. now rewrite app_nil_r.
    + split; cbn.
      * intros n Hn. replace n with (dbCalls w) by lia. exact Hf.
      * intros n req Hn Hnth. apply nth_error_Some_lt in Hnth. lia.
Qed.

Lemma surfaces_messages_create (req : ApiRequest) : surfaces (messages_create req).
Proof.
  intros w. apply wp_messages_create.
  destruct (anthropic_create (List.length (apiLog w)) req) as [blocks|msg] eqn:Hc.
  - split.
    + split; cbn; [lia|]. now exists [req].
    + split; cbn.
      * intros n Hn. lia.
      * intros n req' Hn Hnth. pose proof (nth_error_Some_lt _ _ _ Hnth) as Hlt.
        rewrite length_app in Hlt. cbn in Hlt.
        assert (n = List.length (apiLog w)) as -> by lia.
        rewrite nth_error_app2, Nat.sub_diag in Hnth by lia. cbn in Hnth.
        injection Hnth as <-. now exists blocks.
  - split.
    + split; cbn; [lia|]. now exists [req].
    + cbn. exists (apiLog w), req. repeat split; [lia|exact Hc].
Qed.

Ltac surfaces_step :=
  lazymatch goal with
  | |- surfaces (bind _ _) => apply surfaces_bind; [|intros ?]
  | |- surfaces (ret _) => apply surfaces_ret
  | |- surfaces (query _) => apply surfaces_query
  | |- surfaces (messages_create _) => apply surfaces_messages_create
  | |- surfaces (if ?b then _ else _) => destruct b
  | |- surfaces (match ?x with _ => _ end) => destruct x
  end.

Lemma surfaces_assembleContext (userId : string) (now : Z) :
  surfaces (assembleContext userId now).
Proof. unfold assembleContext. repeat surfaces_step. Qed.

Lemma surfaces_chat (context : ContextPayload) (history : list (Role * string))
  (currentEntry : option string) : surfaces (chat context history currentEntry).
Proof. unfold chat. repeat surfaces_step. Qed.

Lemma surfaces_generateWeeklySummary (rows : list Entry) :
  surfaces (generateWeeklySummary rows).
Proof. unfold generateWeeklySummary. repeat surfaces_step. Qed.

Lemma surfaces_detectPatterns (rows : list Entry) : surfaces (detectPatterns rows).
Proof. unfold detectPatterns. repeat surfaces_step. Qed.

Lemma surfaces_calculateStreak (userId : string) (now : Z) :
  surfaces (calculateStreak userId now).
Proof. unfold calculateStreak. repeat surfaces_step. Qed.

Lemma surfaces_insightsGet (userId period : string) (now : Z) :
  surfaces (insightsGet userId period now).
Proof.
  unfold insightsGet. repeat surfaces_step. apply surfaces_calculateStreak.
Qed.

Lemma surfaces_summaryGet (userId period : string) (now : Z) :
  surfaces (summaryGet userId period now).
Proof.
  unfold summaryGet. repeat surfaces_step. apply surfaces_generateWeeklySummary.
Qed.

Lemma surfaces_patternsGet (userId : string) (now : Z) :
  surfaces (patternsGet userId now).
Proof.
  unfold patternsGet. repeat surfaces_step. apply surfaces_detectPatterns.
Qed.

Lemma surfaces_chatPost (userId message : string) (conversationId entryId : option string)
  (now : Z) : surfaces (chatPost userId message conversationId entryId now).
Proof.
  unfold chatPost, findOrCreateConversation. repeat surfaces_step.
  all: try apply surfaces_assembleContext; try apply surfaces_chat.
Qed.

Lemma chat_without_text (context : ContextPayload) (history : list (Role * string))
  (currentEntry : option string) (w : World) (blocks : list ContentBlock) :
  (forall req, anthropic_create (List.length (apiLog w)) req = ApiOk blocks) ->
  Js.truthy (findText blocks) = false ->
  fst (chat context history currentEntry w) = Ok CANNED_REPLY.
Proof.
  intros Hok Hnone. unfold chat, bind, messages_create, ret. rewrite Hok. cbn [fst].
  destruct (findText blocks) as [[|c text]|]; try reflexivity. discriminate.
Qed.

Lemma chat_thrown (context : ContextPayload) (history : list (Role * string))
  (currentEntry : option string) (w : World) (msg : string) :
  (forall req, anthropic_create (List.length (apiLog w)) req = ApiError msg) ->
  fst (chat context history currentEntry w) = Throw (CompletionError msg).
Proof.
  intros Herr. unfold chat, bind, messages_create, ret. now rewrite Herr.
Qed.

Lemma summary_without_text (rows : list Entry) (w : World) (blocks : list ContentBlock) :
  (forall req, anthropic_create (List.length (apiLog w)) req = ApiOk blocks) ->
  Js.truthy (findText blocks) = false ->
  fst (generateWeeklySummary rows w) = Ok EmptyString.
Proof.
  intros Hok Hnone. unfold generateWeeklySummary, bind, messages_create, ret.
  rewrite Hok. cbn [fst].
  destruct (findText blocks) as [[|c text]|]; try reflexivity. discriminate.
Qed.

Lemma patterns_unparsed (rows : list Entry) (w : World) (blocks : list ContentBlock) :
  (forall req, anthropic_create (List.length (apiLog w)) req = ApiOk blocks) ->
  JSON_parse (Js.or_else (findText blocks) "{}") = None ->
  fst (detectPatterns rows w) = Ok DEFAULT_PATTERNS.
Proof.
  intros Hok Hparse. unfold detectPatterns, bind, messages_create, ret.
  rewrite Hok. now rewrite Hparse.
Qed.

(** C9 (as amended): a statement of the store or a completion request that
    throws is surfaced: each route (insights, summary, patterns, chat turn)
    succeeds only if none of the statements and requests it issued failed,
    and what it throws is the failure it met.  A completion response without
    usable text is not treated as a failure: chat substitutes the canned
    reply 'I'm having trouble responding right now.', generateWeeklySummary
    the empty string, and detectPatterns the default empty pattern result
    when the text is not valid JSON. *)
Theorem thrown_failures_surface :
  (forall userId period now, surfaces (insightsGet userId period now))
  /\ (forall userId period now, surfaces (summaryGet userId period now))
  /\ (forall userId now, surfaces (patternsGet userId now))
  /\ (forall userId message conversationId entryId now,
        surfaces (chatPost userId message conversationId entryId now))
  /\ (forall context history currentEntry w msg,
        (forall req, anthropic_create (List.length (apiLog w)) req = ApiError msg) ->
        fst (chat context history currentEntry w) = Throw (CompletionError msg))
  /\ (forall context history currentEntry w blocks,
        (forall req, anthropic_create (List.length (apiLog w)) req = ApiOk blocks) ->
        Js.truthy (findText blocks) = false ->
        fst (chat context history currentEntry w) = Ok CANNED_REPLY)
  /\ (forall rows w blocks,
        (forall req, anthropic_create (List.length (apiLog w)) req = ApiOk blocks) ->
        Js.truthy (findText blocks) = false ->
        fst (generateWeeklySummary rows w) = Ok EmptyString)
  /\ (forall rows w blocks,
        (forall req, anthropic_create (List.length (apiLog w)) req = ApiOk blocks) ->
        JSON_parse (Js.or_else (findText blocks) "{}") = None ->
        fst (detectPatterns rows w) = Ok DEFAULT_PATTERNS).
Proof.
  split; [exact surfaces_insightsGet|].
  split; [exact surfaces_summaryGet|].
  split; [exact surfaces_patternsGet|].
  split; [exact surfaces_chatPost|].
  split; [exact chat_thrown|].
  split; [exact chat_without_text|].
  split; [exact summary_without_text|exact patterns_unparsed].
Qed.

(** ** Cached summaries *)











(** ** What reaches the prompt of a chat turn *)

Lemma contextOf_ext (userId : string) (now : Z) (d d' : Db) :
  entries_tbl d' = entries_tbl d -> summaries_tbl d' = summaries_tbl d ->
  contextOf userId now d' = contextOf userId now d.
Proof.
  intros He Hs.
  unfold contextOf, select_recent, select_since, select_latest_monthly.
  now rewrite He, Hs.
Qed.

Lemma chatPost_new_prompt (userId message entryId : string) (now : Z) (w : World) :
  (forall n, db_fault n = None) ->
  Js.truthy (Some entryId) = true ->
  wp (chatPost userId message None (Some entryId) now)
     (fun _ w' =>
        exists history,
          apiLog w'
          = apiLog w
            ++ [mkRequest MODEL 1024
                  (buildSystemPrompt (contextOf userId now (db w))
                     (hd_error (select_entry_content entryId (db w))))
                  history])
     w.
Proof.
  intros Hup Htruthy. destruct entryId as [|c entryId]; [discriminate|].
  unfold chatPost, findOrCreateConversation, assembleContext, chat.
  cbn [Js.truthy].
  repeat wp_step.
  all: try (rewrite Hup in *; discriminate).
  all: cbn [db apiLog dbCalls fst snd insert_conversation Conversation.entry_id
            Conversation.id Js.truthy Js.or_else] in *.
  all: try discriminate.
  all: match goal with
       | |- context [select_entry_content _ ?D] =>
           rewrite <- (contextOf_ext userId now (db w) D) by reflexivity;
           change (select_entry_content (String c entryId) D)
             with (select_entry_content (String c entryId) (db w))
       end.
  all: eexists; reflexivity.
Qed.

Lemma contains_refl_mid (pre sub post : string) : contains (pre +++ sub +++ post) sub.
Proof. now exists pre, post. Qed.

Lemma contains_prefixed (a s sub : string) : contains s sub -> contains (a +++ s) sub.
Proof.
  intros (pre & post & ->). exists (a +++ pre), post. now rewrite append_assoc.
Qed.

Lemma contains_suffixed (s b sub : string) : contains s sub -> contains (s +++ b) sub.
Proof.
  intros (pre & post & ->). exists pre, (post +++ b). now rewrite !append_assoc.
Qed.

Lemma append_nil_r (s : string) : s +++ EmptyString = s.
Proof. induction s as [|c s IH]; cbn; [reflexivity|now rewrite IH]. Qed.

Lemma sessionSection_contains (entryText : string) :
  Js.truthy (Some entryText) = true ->
  contains (sessionSection (Some entryText))
    ("### Current Entry Being Discussed" +++ nl +++ entryText +++ nl).
Proof.
  intros Htruthy. unfold sessionSection. rewrite Htruthy.
  destruct entryText as [|c rest]; [discriminate|]. cbn [Js.or_else].
  exists (nl +++ "## This Session" +++ nl +++ nl), EmptyString.
  now rewrite !append_assoc, append_nil_r.
Qed.

Lemma prompt_contains_current (context : ContextPayload) (entryText : string) :
  Js.truthy (Some entryText) = true ->
  contains (buildSystemPrompt context (Some entryText))
    ("### Current Entry Being Discussed" +++ nl +++ entryText +++ nl).
Proof.
  intros Htruthy. unfold buildSystemPrompt.
  repeat apply contains_prefixed. now apply sessionSection_contains.
Qed.


(** ** The sections of the system prompt *)

Lemma themesLine_cases (context : ContextPayload) :
  themesLine context
  = match recurringThemes context with
    | [] => "No clear patterns yet"
    | _ :: _ => Js.join ", " (recurringThemes context)
    end.
Proof. unfold themesLine. destruct (recurringThemes context); reflexivity. Qed.

Lemma longTermLine_cases (context : ContextPayload) :
  longTermLine context
  = match longTermSummary context with
    | EmptyString => "No long-term summary available yet"
    | String _ _ => longTermSummary context
    end.
Proof. unfold longTermLine. destruct (longTermSummary context); reflexivity. Qed.

Lemma contextSection_recent (context : ContextPayload) :
  contains (contextSection context) ("### Recent Entries (Last 7 Days)" +++ nl).
Proof.
  unfold contextSection.
  exists (nl +++ "## Current Context" +++ nl +++ nl). eexists.
  rewrite !append_assoc. reflexivity.
Qed.

Lemma contextSection_mood (context : ContextPayload) :
  contains (contextSection context) ("### Mood Pattern" +++ nl +++ ctx_moodTrend context +++ nl).
Proof.
  unfold contextSection.
  exists (nl +++ "## Current Context" +++ nl +++ nl
          +++ "### Recent Entries (Last 7 Days)" +++ nl
          +++ Js.join (nl +++ "---" +++ nl) (map renderRecent (recentEntries context))
          +++ nl +++ nl).
  eexists. rewrite !append_assoc. reflexivity.
Qed.

Lemma contextSection_themes (context : ContextPayload) :
  contains (contextSection context) ("### Recurring Themes" +++ nl +++ themesLine context +++ nl).
Proof.
  unfold contextSection.
  exists (nl +++ "## Current Context" +++ nl +++ nl
          +++ "### Recent Entries (Last 7 Days)" +++ nl
          +++ Js.join (nl +++ "---" +++ nl) (map renderRecent (recentEntries context))
          +++ nl +++ nl
          +++ "### Mood Pattern" +++ nl +++ ctx_moodTrend context +++ nl +++ nl).
  eexists. rewrite !append_assoc. reflexivity.
Qed.

Lemma contextSection_longTerm (context : ContextPayload) :
  contains (contextSection context)
    ("### Long-Term Context" +++ nl +++ longTermLine context +++ nl).
Proof.
  unfold contextSection.
  exists (nl +++ "## Current Context" +++ nl +++ nl
          +++ "### Recent Entries (Last 7 Days)" +++ nl
          +++ Js.join (nl +++ "---" +++ nl) (map renderRecent (recentEntries context))
          +++ nl +++ nl
          +++ "### Mood Pattern" +++ nl +++ ctx_moodTrend context +++ nl +++ nl
          +++ "### Recurring Themes" +++ nl +++ themesLine context +++ nl +++ nl).
  exists EmptyString. rewrite !append_assoc, ?append_nil_r. reflexivity.
Qed.

Lemma prompt_contains_context (context : ContextPayload) (currentEntry : option string)
  (sub : string) :
  contains (contextSection context) sub ->
  contains (buildSystemPrompt context currentEntry) sub.
Proof.
  intros H. unfold buildSystemPrompt.
  do 5 apply contains_prefixed. now apply contains_suffixed.
Qed.

Lemma sessionSection_cases (currentEntry : option string) :
  sessionSection currentEntry
  = match currentEntry with
    | Some (String c rest) =>
        nl +++ "## This Session" +++ nl +++ nl
        +++ "### Current Entry Being Discussed" +++ nl +++ String c rest +++ nl
    | _ => EmptyString
    end.
Proof. destruct currentEntry as [[|c rest]|]; reflexivity. Qed.

Lemma renderRecent_cases (e : RecentEntry) :
  renderRecent e
  = nl +++ "**" +++ r_date e +++ "** ("
    +++ match r_mood e with
        | Some (String c rest) => String c rest
        | _ => "no mood logged"
        end
    +++ ")" +++ nl +++ r_content e +++ nl.
Proof. unfold renderRecent. destruct (r_mood e) as [[|c rest]|]; reflexivity. Qed.

(** C4 (as amended): the prompt is, character for character, the persona
    text, a rule, the four context sections and the session part.  The four
    context sections are rendered whatever their backing data: the recent
    entries one after the other, separated by rules, each with its date, its
    mood or 'no mood logged' and its content; the mood trend; the recurring
    themes joined by commas, or 'No clear patterns yet' for the empty list,
    under the heading that is always there; the long-term summary, or 'No
    long-term summary available yet' for the empty one.  Only the section
    'This Session' is left out, exactly when there is no current entry or it
    is empty: the session part is then empty, and otherwise it is the two
    headings and the entry. *)
Theorem prompt_renders_every_section (context : ContextPayload)
  (currentEntry : option string) :
  let prompt := buildSystemPrompt context currentEntry in
  let entryLines := fun e : RecentEntry =>
    nl +++ "**" +++ r_date e +++ "** ("
    +++ match r_mood e with
        | Some (String c rest) => String c rest
        | _ => "no mood logged"
        end
    +++ ")" +++ nl +++ r_content e +++ nl in
  let themes :=
    match recurringThemes context with
    | [] => "No clear patterns yet"
    | _ :: _ => Js.join ", " (recurringThemes context)
    end in
  let longTerm :=
    match longTermSummary context with
    | EmptyString => "No long-term summary available yet"
    | String _ _ => longTermSummary context
    end in
  let session :=
    match currentEntry with
    | Some (String c rest) =>
        nl +++ "## This Session" +++ nl +++ nl
        +++ "### Current Entry Being Discussed" +++ nl +++ String c rest +++ nl
    | _ => EmptyString
    end in
  prompt
  = BASE_SYSTEM_PROMPT +++ nl +++ nl +++ "---" +++ nl
    +++ nl +++ "## Current Context" +++ nl +++ nl
    +++ "### Recent Entries (Last 7 Days)" +++ nl
    +++ Js.join (nl +++ "---" +++ nl) (map entryLines (recentEntries context))
    +++ nl +++ nl
    +++ "### Mood Pattern" +++ nl +++ ctx_moodTrend context +++ nl +++ nl
    +++ "### Recurring Themes" +++ nl +++ themes +++ nl +++ nl
    +++ "### Long-Term Context" +++ nl +++ longTerm +++ nl
    +++ nl +++ session
  /\ (exists rest, prompt = BASE_SYSTEM_PROMPT +++ rest)
  /\ contains prompt ("### Recent Entries (Last 7 Days)" +++ nl)
  /\ contains prompt ("### Mood Pattern" +++ nl +++ ctx_moodTrend context +++ nl)
  /\ contains prompt ("### Recurring Themes" +++ nl +++ themes +++ nl)
  /\ contains prompt ("### Long-Term Context" +++ nl +++ longTerm +++ nl)
  /\ (currentEntry = None \/ currentEntry = Some EmptyString ->
      prompt = buildSystemPrompt context None /\ session = EmptyString)
  /\ (forall c rest, currentEntry = Some (String c rest) ->
      prompt
      = buildSystemPrompt context None
        +++ nl +++ "## This Session" +++ nl +++ nl
        +++ "### Current Entry Being Discussed" +++ nl +++ String c rest +++ nl).
Proof.
  intros prompt entryLines themes longTerm session. subst prompt.
  split.
  - unfold buildSystemPrompt, contextSection.
    rewrite themesLine_cases, longTermLine_cases, sessionSection_cases.
    fold themes longTerm session.
    rewrite (map_ext renderRecent entryLines) by apply renderRecent_cases.
    rewrite !append_assoc. reflexivity.
  - split; [unfold buildSystemPrompt; eexists; reflexivity|].
    split; [apply prompt_contains_context, contextSection_recent|].
    split; [apply prompt_contains_context, contextSection_mood|].
    split; [subst themes; rewrite <- themesLine_cases;
            apply prompt_contains_context, contextSection_themes|].
    split; [subst longTerm; rewrite <- longTermLine_cases;
            apply prompt_contains_context, contextSection_longTerm|].
    split.
    + subst session. intros [->| ->]; split; reflexivity.
    + intros c rest ->. unfold buildSystemPrompt.
      rewrite !sessionSection_cases, !append_assoc, ?append_nil_r. reflexivity.
Qed.

(** ** Soft-deleted entries and the aggregations *)

Lemma filter_filter_implied {A} (p q : A -> bool) (l : list A) :
  (forall x, p x = true -> q x = true) -> filter p (filter q l) = filter p l.
Proof.
  intros Himp. induction l as [|x l IH]; [reflexivity|]. cbn.
  destruct (q x) eqn:Eq; cbn; rewrite IH; [reflexivity|].
  destruct (p x) eqn:Ep; [|reflexivity]. apply Himp in Ep. congruence.
Qed.

Lemma inWindow_live (userId : string) (since : Z) (e : Entry) :
  inWindow userId since e = true -> live e = true.
Proof. unfold inWindow. intros H. now apply andb_prop in H as [_ H]. Qed.

Lemma select_since_purge (userId : string) (since : Z) (d : Db) :
  select_since userId since (purge d) = select_since userId since d.
Proof.
  unfold select_since, purge. cbn [entries_tbl].
  now rewrite filter_filter_implied by apply inWindow_live.
Qed.

Lemma select_recent_purge (userId : string) (since : Z) (d : Db) :
  select_recent userId since (purge d) = select_recent userId since d.
Proof. unfold select_recent. now rewrite select_since_purge. Qed.

Lemma select_since_asc_purge (userId : string) (since : Z) (d : Db) :
  select_since_asc userId since (purge d) = select_since_asc userId since d.
Proof.
  unfold select_since_asc, purge. cbn [entries_tbl].
  now rewrite filter_filter_implied by apply inWindow_live.
Qed.

Lemma select_entry_dates_purge (userId : string) (d : Db) :
  select_entry_dates userId (purge d) = select_entry_dates userId d.
Proof.
  unfold select_entry_dates, purge. cbn [entries_tbl].
  rewrite filter_filter_implied; [reflexivity|].
  intros e H. now apply andb_prop in H as [_ H].
Qed.

Lemma contextOf_purge (userId : string) (now : Z) (d : Db) :
  contextOf userId now (purge d) = contextOf userId now d.
Proof. unfold contextOf. now rewrite select_recent_purge. Qed.

Lemma assembleContext_purge (userId : string) (now : Z) (w : World) :
  fst (assembleContext userId now (purgeWorld w)) = fst (assembleContext userId now w).
Proof.
  unfold assembleContext, bind, query, reading, ret, purgeWorld. cbn [db apiLog dbCalls].
  destruct (db_fault (dbCalls w)); [reflexivity|]. cbn [db apiLog dbCalls].
  destruct (db_fault (S (dbCalls w))); [reflexivity|]. cbn [fst].
  now rewrite select_recent_purge.
Qed.

Lemma insightsGet_purge (userId period : string) (now : Z) (w : World) :
  fst (insightsGet userId period now (purgeWorld w)) = fst (insightsGet userId period now w).
Proof.
  unfold insightsGet, calculateStreak, bind, query, reading, ret, purgeWorld.
  cbn [db apiLog dbCalls].
  destruct (db_fault (dbCalls w)); [reflexivity|]. cbn [db apiLog dbCalls].
  destruct (db_fault (S (dbCalls w))); [reflexivity|]. cbn [db apiLog dbCalls].
  rewrite select_since_purge, select_entry_dates_purge.
  destruct (select_entry_dates userId (db w)); reflexivity.
Qed.

(** ** The streak of a store that answers *)

Lemma calculateStreak_streakOf (userId : string) (now : Z) (w : World) :
  db_fault (dbCalls w) = None ->
  fst (calculateStreak userId now w) = Ok (streakOf now (select_entry_dates userId (db w))).
Proof.
  intros Hup. unfold calculateStreak, bind, query, reading, ret. rewrite Hup.
  cbn [db]. destruct (select_entry_dates userId (db w)); reflexivity.
Qed.

(** ** A chat turn that succeeds *)

Lemma select_messages_insert (cid : string) (r : Role) (text : string) (d : Db) :
  select_messages cid (insert_message cid r text d)
  = select_messages cid d ++ [Message.mk cid r text].
Proof.
  unfold select_messages, insert_message. cbn [messages_tbl].
  rewrite filter_app. cbn [filter Message.conversation_id]. now rewrite String.eqb_refl.
Qed.

Lemma select_conversation_id (cid userId : string) (d : Db) (c : Conversation.t) :
  In c (select_conversation cid userId d) ->
  In c (conversations_tbl d) /\ Conversation.id c = cid /\ Conversation.user_id c = userId.
Proof.
  unfold select_conversation. rewrite filter_In, andb_true_iff, !String.eqb_eq.
  intros (Hin & Hid & Huser). auto.
Qed.

Lemma hd_error_In {A} (l : list A) (x : A) : hd_error l = Some x -> In x l.
Proof. destruct l as [|y l]; [discriminate|]. intros [= ->]. now left. Qed.

(** X18: a chat turn with a store that answers and a completion that
    comes back.  Unless the conversation named is not found, the turn answers
    with the text of the completion (the canned reply when it has none), it
    adds to the store the message of the user and then the reply, both in the
    conversation of the turn, and nothing else to the messages; it leaves the
    entries and the summaries as they are; and it sends one completion
    request, whose messages are those that the conversation held, followed by
    the message of the user.  The conversation is the one named, or a new one
    when none is named. *)
Theorem chat_turn_stores_both_messages
  (userId message : string) (conversationId entryId : option string) (now : Z)
  (w : World) (blocks : list ContentBlock) :
  (forall n, db_fault n = None) ->
  (forall req, anthropic_create (List.length (apiLog w)) req = ApiOk blocks) ->
  let reply := Js.or_else (findText blocks) CANNED_REPLY in
  wp (chatPost userId message conversationId entryId now)
     (fun r w' =>
        (r = Ok ChatNotFound /\ db w' = db w /\ apiLog w' = apiLog w
         /\ exists named, conversationId = Some named
                          /\ select_conversation named userId (db w) = [])
        \/ exists cid,
             r = Ok (ChatJson cid reply)
             /\ (Js.truthy conversationId = true -> conversationId = Some cid)
             /\ (Js.truthy conversationId = false ->
                 cid = gen_uuid (List.length (conversations_tbl (db w))))
             /\ messages_tbl (db w')
                = messages_tbl (db w)
                  ++ [Message.mk cid user message; Message.mk cid assistant reply]
             /\ entries_tbl (db w') = entries_tbl (db w)
             /\ summaries_tbl (db w') = summaries_tbl (db w)
             /\ exists prompt,
                  apiLog w'
                  = apiLog w
                    ++ [mkRequest MODEL 1024 prompt
                          (map (fun m => (Message.role m, Message.content m))
                               (select_messages cid (db w))
                           ++ [(user, message)])])
     w.
Proof.
  intros Hup Hok reply.
  unfold chatPost, findOrCreateConversation, assembleContext, chat.
  repeat wp_step.
  all: try (rewrite Hup in *; discriminate).
  all: cbn [db apiLog dbCalls fst snd insert_conversation] in *.
  all: try (rewrite Hok in Hapi; discriminate).
  all: try (rewrite Hok in Hapi; injection Hapi as <-); fold reply.
  all: try (left; split; [reflexivity|]; split; [reflexivity|]; split; [reflexivity|];
            destruct conversationId as [[|c named]|]; try discriminate;
            exists (String c named); split; [reflexivity|];
            cbn [Js.or_else] in Hcase;
            destruct (select_conversation (String c named) userId (db w));
            [reflexivity|discriminate]).
  all: right; eexists; split; [reflexivity|].
  all: split;
    [ intros Hnamed; try congruence;
      destruct conversationId as [[|c named]|]; try discriminate;
      cbn [Js.or_else] in Hcase; apply hd_error_In, select_conversation_id in Hcase;
      destruct Hcase as (_ & -> & _); reflexivity
    | ].
  all: split; [intros Hnone; try congruence; reflexivity|].
  all: split; [cbn; rewrite <- app_assoc; reflexivity|].
  all: split; [reflexivity|]. 
  all: split; [reflexivity|].
  all: eexists; rewrite select_messages_insert, map_app; reflexivity.
Qed.

(** X19: a chat turn that names a conversation which the user does not
    own, or which does not exist, is refused: it answers that the
    conversation was not found (or fails on the store), it stores nothing,
    not even the message of the user, and it sends no completion request. *)
Theorem foreign_conversation_is_refused
  (userId message named : string) (entryId : option string) (now : Z) (w : World) :
  Js.truthy (Some named) = true ->
  (forall c, In c (conversations_tbl (db w)) ->
             Conversation.id c = named -> Conversation.user_id c <> userId) ->
  wp (chatPost userId message (Some named) entryId now)
     (fun r w' =>
        db w' = db w /\ apiLog w' = apiLog w
        /\ (r = Ok ChatNotFound \/ exists msg, r = Throw (StoreError msg)))
     w.
Proof.
  intros Htruthy Hforeign.
  assert (Hnone : select_conversation named userId (db w) = []).
  { destruct (select_conversation named userId (db w)) as [|c rest] eqn:Hsel; [reflexivity|].
    assert (Hin : In c (select_conversation named userId (db w)))
      by (rewrite Hsel; now left).
    apply select_conversation_id in Hin as (Hin & Hid & Huser).
    exfalso. exact (Hforeign c Hin Hid Huser). }
  unfold chatPost, findOrCreateConversation. rewrite Htruthy.
  destruct named as [|ch named]; [discriminate|]. cbn [Js.or_else].
  apply wp_bind, wp_bind, wp_query. cbn [reading fst snd db apiLog dbCalls].
  destruct (db_fault (dbCalls w)) as [msg|].
  - cbn. split; [reflexivity|]. split; [reflexivity|]. right. now exists msg.
  - apply wp_ret. rewrite Hnone. cbn [hd_error]. apply wp_ret. cbn.
    split; [reflexivity|]. split; [reflexivity|]. now left.
Qed.

(** ** Reading a conversation back *)

Lemma select_conversation_touch (cid userId other : string) (now : Z) (d : Db) :
  select_conversation cid userId (touch_conversation other now d)
  = map (fun c => if (Conversation.id c =? other)%string
                  then Conversation.mk (Conversation.id c) (Conversation.user_id c)
                         (Conversation.entry_id c) (Conversation.session_type c) now
                  else c)
        (select_conversation cid userId d).
Proof.
  unfold select_conversation, touch_conversation. cbn [conversations_tbl].
  induction (conversations_tbl d) as [|c rest IH]; [reflexivity|]. cbn [map filter].
  destruct (Conversation.id c =? other)%string eqn:Hother;
    cbn [Conversation.id Conversation.user_id];
    destruct (Conversation.id c =? cid)%string, (Conversation.user_id c =? userId)%string;
    cbn [andb map]; rewrite ?Hother, IH; reflexivity.
Qed.

Lemma conversationGet_after_turn (userId cid message reply : string) (now : Z)
  (d : Db) (log : list ApiRequest) (calls : nat) (c : Conversation.t)
  (before : list Message.t) :
  (forall n, db_fault n = None) ->
  In c (select_conversation cid userId d) ->
  select_messages cid d = before ->
  exists conversation,
    fst (conversationGet userId cid
           (mkWorld (touch_conversation cid now
                       (insert_message cid assistant reply
                          (insert_message cid user message d)))
              log calls))
    = Ok (ConversationJson conversation
            (before ++ [Message.mk cid user message; Message.mk cid assistant reply]))
    /\ Conversation.id conversation = cid
    /\ Conversation.user_id conversation = userId
    /\ Conversation.updated_at conversation = now.
Proof.
  intros Hup Hin <-.
  unfold conversationGet, bind, query, reading, ret. cbn [db apiLog dbCalls].
  rewrite Hup, select_conversation_touch.
  change (select_conversation cid userId
            (insert_message cid assistant reply (insert_message cid user message d)))
    with (select_conversation cid userId d).
  destruct (select_conversation cid userId d) as [|first rest] eqn:Hsel; [destruct Hin|].
  assert (Hfirst : In first (select_conversation cid userId d)) by (rewrite Hsel; now left).
  apply select_conversation_id in Hfirst as (_ & Hid & Huser).
  cbn [map]. rewrite Hid, String.eqb_refl. cbn [db apiLog dbCalls]. rewrite Hup.
  eexists. split.
  - cbn [fst]. do 2 f_equal.
    change (select_messages cid
              (touch_conversation cid now
                 (insert_message cid assistant reply (insert_message cid user message d))))
      with (select_messages cid
              (insert_message cid assistant reply (insert_message cid user message d))).
    now rewrite !select_messages_insert, <- app_assoc.
  - cbn [Conversation.id Conversation.user_id Conversation.updated_at]. auto.
Qed.

(** X21: a conversation read back after a chat turn.  When a turn of a
    user has answered for the conversation [cid], and the store answers,
    reading the conversation gives a conversation with this identifier that
    the user owns, whose time stamp is that of the turn, and its messages are
    those it held before the turn, followed by the message of the user and
    the reply. *)
Theorem conversation_read_after_turn
  (userId message : string) (conversationId entryId : option string) (now : Z)
  (w : World) (cid reply : string) :
  (forall n, db_fault n = None) ->
  fst (chatPost userId message conversationId entryId now w) = Ok (ChatJson cid reply) ->
  exists conversation,
    fst (conversationGet userId cid (snd (chatPost userId message conversationId entryId now w)))
    = Ok (ConversationJson conversation
            (select_messages cid (db w)
             ++ [Message.mk cid user message; Message.mk cid assistant reply]))
    /\ Conversation.id conversation = cid
    /\ Conversation.user_id conversation = userId
    /\ Conversation.updated_at conversation = now.
Proof.
  intros Hup.
  pose proof (proj1 (wp_run (chatPost userId message conversationId entryId now)
                       (fun r w' =>
                          r = Ok (ChatJson cid reply) ->
                          exists conversation,
                            fst (conversationGet userId cid w')
                            = Ok (ConversationJson conversation
                                    (select_messages cid (db w)
                                     ++ [Message.mk cid user message;
                                         Message.mk cid assistant reply]))
                            /\ Conversation.id conversation = cid
                            /\ Conversation.user_id conversation = userId
                            /\ Conversation.updated_at conversation = now) w)) as Hrun.
  apply Hrun. clear Hrun.
  unfold chatPost, findOrCreateConversation, assembleContext, chat.
  repeat wp_step.
  all: try (rewrite Hup in *; discriminate).
  all: cbn [db apiLog dbCalls fst snd insert_conversation] in *.
  all: intros Hr; try discriminate Hr.
  all: injection Hr as Hcid Hreply.
  all: rewrite Hcid, Hreply.
  all: try (destruct conversationId as [[|ch named]|]; try discriminate;
            cbn [Js.or_else] in Hcase; apply hd_error_In in Hcase;
            pose proof (select_conversation_id _ _ _ _ Hcase) as (_ & Hnamed & _);
            rewrite <- Hnamed, Hcid in Hcase;
            exact (conversationGet_after_turn userId cid message reply now (db w) _ _ t
                     _ Hup Hcase eq_refl)).
  all: eapply conversationGet_after_turn; [exact Hup| |reflexivity].
  all: unfold select_conversation; cbn [conversations_tbl]; apply filter_In.
  all: (split; [apply in_or_app; right; now left|]).
  all: cbn [Conversation.id Conversation.user_id]; now rewrite !String.eqb_refl.
Qed.

(** ** Assembling the context *)

Lemma assembleContext_contextOf (userId : string) (now : Z) (w : World) :
  wp (assembleContext userId now)
     (fun r w' =>
        db w' = db w /\ apiLog w' = apiLog w
        /\ forall context, r = Ok context -> context = contextOf userId now (db w))
     w.
Proof.
  unfold assembleContext. repeat wp_step.
  all: cbn [db apiLog dbCalls fst snd].
  all: split; [reflexivity|]; split; [reflexivity|].
  all: intros context Hr; try discriminate Hr.
  now injection Hr as <-.
Qed.

(** ** The patterns route *)

(** X10: the patterns route never changes the store.  With fewer than
    three entries of the user in the last thirty days it sends no completion
    request and answers that more entries are needed (or fails on the
    store); with three or more, an answer comes with one completion request
    of at most 1000 tokens, and it holds patterns. *)
Theorem patterns_need_three_entries (userId : string) (now : Z) (w : World) :
  let rows := select_since userId (now - 30 * DAY_MS) (db w) in
  wp (patternsGet userId now)
     (fun r w' =>
        db w' = db w
        /\ ((List.length rows < 3)%nat ->
            apiLog w' = apiLog w
            /\ (r = Ok (PatternsNull "Need more entries to detect patterns")
                \/ exists msg, r = Throw (StoreError msg)))
        /\ ((3 <= List.length rows)%nat ->
            forall reply, r = Ok reply ->
              exists patterns req,
                reply = PatternsJson patterns
                /\ apiLog w' = apiLog w ++ [req]
                /\ model req = MODEL /\ max_tokens req = 1000))
     w.
Proof.
  intros rows. unfold patternsGet, detectPatterns.
  repeat wp_step.
  all: cbn [db apiLog dbCalls fst snd].
  all: subst rows.
  all: split; [reflexivity|].
  all: split;
    [ intros Hfew;
      first [ exfalso; apply Nat.ltb_ge in Hif; lia
            | split; [reflexivity|];
              first [left; reflexivity | right; eexists; reflexivity] ]
    | intros Hmany reply Hr;
      first [ discriminate Hr
            | exfalso; apply Nat.ltb_lt in Hif; lia
            | injection Hr as <-;
              eexists; eexists; split; [reflexivity|]; split; [reflexivity|];
              split; reflexivity ] ].
Qed.

(** ** The summary route *)


(** ** The reflection on an entry *)

Lemma generateReflection_run (userId : string) (entry : Entry) (style : ReflectionStyle)
  (w : World) :
  wp (generateReflection userId entry style)
     (fun r w' =>
        db w' = db w
        /\ forall text,
             r = Ok text ->
             let req := mkRequest MODEL 300 REFLECTION_SYSTEM
                          [(user, reflectionPrompt entry style
                                    (select_reflection_context userId (id entry) (db w)))] in
             apiLog w' = apiLog w ++ [req]
             /\ exists blocks,
                  anthropic_create (List.length (apiLog w)) req = ApiOk blocks
                  /\ text = Js.or_else (findText blocks) EmptyString)
     w.
Proof.
  unfold generateReflection. repeat wp_step.
  all: cbn [db apiLog dbCalls fst snd].
  all: split; [reflexivity|].
  all: intros text Hr; try discriminate Hr.
  injection Hr as <-. split; [reflexivity|]. now exists content0.
Qed.

Lemma surfaces_generateReflection (userId : string) (entry : Entry) (style : ReflectionStyle) :
  surfaces (generateReflection userId entry style).
Proof. unfold generateReflection. repeat surfaces_step. Qed.

(** ** Deleting an entry *)

Lemma soft_delete_none (entryId userId : string) (now : Z) (d : Db) :
  select_entry entryId userId d = [] -> soft_delete entryId userId now d = d.
Proof.
  unfold select_entry, soft_delete. destruct d as [es cs ms ss]. cbn [entries_tbl
    conversations_tbl messages_tbl summaries_tbl]. intros Hnone. f_equal.
  induction es as [|e es IH]; [reflexivity|]. cbn [filter map] in *.
  destruct ((id e =? entryId)%string && (user_id e =? userId)%string && live e);
    [discriminate|]. now rewrite IH.
Qed.

Lemma select_entry_soft_delete (entryId userId : string) (now : Z) (d : Db) :
  select_entry entryId userId (soft_delete entryId userId now d) = [].
Proof.
  unfold select_entry, soft_delete. cbn [entries_tbl].
  induction (entries_tbl d) as [|e es IH]; [reflexivity|]. cbn [filter map].
  destruct ((id e =? entryId)%string && (user_id e =? userId)%string && live e) eqn:Hhit.
  - cbn [id user_id live deleted_at]. now rewrite andb_false_r.
  - now rewrite Hhit.
Qed.

Lemma visible_soft_delete_own (entryId userId : string) (now : Z) (d : Db) :
  visible userId (soft_delete entryId userId now d)
  = filter (fun e => negb (id e =? entryId)%string) (visible userId d).
Proof.
  unfold visible, soft_delete. cbn [entries_tbl].
  induction (entries_tbl d) as [|e es IH]; [reflexivity|]. cbn [filter map].
  destruct (id e =? entryId)%string eqn:Hid, (user_id e =? userId)%string eqn:Huser,
    (live e) eqn:Hlive; cbn [andb id user_id live deleted_at filter negb];
    rewrite ?Hid, ?Huser, ?Hlive; cbn [andb filter negb]; rewrite ?Hid; cbn [negb];
    now rewrite IH.
Qed.

Lemma visible_soft_delete_other (entryId userId other : string) (now : Z) (d : Db) :
  other <> userId ->
  visible other (soft_delete entryId userId now d) = visible other d.
Proof.
  intros Hother. unfold visible, soft_delete. cbn [entries_tbl].
  induction (entries_tbl d) as [|e es IH]; [reflexivity|]. cbn [filter map].
  destruct (id e =? entryId)%string eqn:Hid, (String.eqb_spec (user_id e) userId) as [Huser|Huser],
    (live e) eqn:Hlive; cbn [andb id user_id live deleted_at]; rewrite ?Hlive, IH;
    try reflexivity.
  destruct (String.eqb_spec (user_id e) other) as [Heq|_]; [congruence|reflexivity].
Qed.

(** X20: deleting an entry.  The route changes no conversation, message
    or summary, removes no entry and changes nothing of what another user can
    see.  When it answers, the user can see the entries seen before except
    those with the identifier named, no entry with this identifier can be
    read or deleted by the user any more, the answer is 204 exactly when the
    user could see such an entry, and a refusal leaves the store as it was. *)
Theorem entry_delete_hides_entry (userId entryId : string) (now : Z) (w : World) :
  wp (entryDelete userId entryId now)
     (fun r w' =>
        conversations_tbl (db w') = conversations_tbl (db w)
        /\ messages_tbl (db w') = messages_tbl (db w)
        /\ summaries_tbl (db w') = summaries_tbl (db w)
        /\ map id (entries_tbl (db w')) = map id (entries_tbl (db w))
        /\ (forall other, other <> userId -> visible other (db w') = visible other (db w))
        /\ (forall e, r = Throw e -> db w' = db w)
        /\ (forall reply,
              r = Ok reply ->
              visible userId (db w')
              = filter (fun e => negb (id e =? entryId)%string) (visible userId (db w))
              /\ (reply = NoContent <-> select_entry entryId userId (db w) <> [])
              /\ (reply = DeleteNotFound -> db w' = db w)
              /\ (forall later,
                    db_fault (dbCalls w') = None ->
                    fst (entryGet userId entryId w') = Ok EntryNotFound
                    /\ fst (entryDelete userId entryId later w') = Ok DeleteNotFound)))
     w.
Proof.
  unfold entryDelete. repeat wp_step.
  all: cbn [db apiLog dbCalls fst snd].
  all: split; [reflexivity|]; split; [reflexivity|]; split; [reflexivity|].
  all: split;
    [ try reflexivity; unfold soft_delete; cbn [entries_tbl]; rewrite map_map;
      apply map_ext; intros e; now destruct (_ && _) |].
  all: split; [intros other Hother; try reflexivity; now apply visible_soft_delete_other|].
  all: split; [intros err Hr; try discriminate Hr; reflexivity|].
  all: intros reply Hr; try discriminate Hr; injection Hr as <-.
  all: split; [apply visible_soft_delete_own|].
  all: split;
    [ split; [intros Hr; try discriminate Hr | intros Hsome; try reflexivity] |].
  all: try (apply Nat.eqb_neq in Hif; intros Hnone; rewrite Hnone in Hif; now apply Hif).
  all: try (apply Nat.eqb_eq, length_zero_iff_nil in Hif; contradiction).
  all: split;
    [ intros Hr; try discriminate Hr;
      apply Nat.eqb_eq, length_zero_iff_nil in Hif; now apply soft_delete_none |].
  all: intros later Hup; unfold entryGet, entryDelete, bind, query, reading, ret.
  all: cbn [db apiLog dbCalls] in *; rewrite Hup; cbn [fst snd].
  all: now rewrite select_entry_soft_delete.
Qed.

(** ** What the reading routes return *)

Lemma insightsGet_run (userId period : string) (now : Z) (w : World) :
  wp (insightsGet userId period now)
     (fun r w' =>
        db w' = db w /\ apiLog w' = apiLog w
        /\ forall insights,
             r = Ok insights ->
             let startDate := periodStartDate period now in
             let rows := select_since userId startDate (db w) in
             insights
             = mkInsights (isoDate startDate) (isoDate now) (List.length rows)
                 (fold_left (fun sum e => sum + word_count e) rows 0)
                 (moodDistribution rows) (moodTrend rows) (topTags rows) (topThemes rows)
                 (streakOf now (select_entry_dates userId (db w))))
     w.
Proof.
  unfold insightsGet, calculateStreak. repeat wp_step.
  all: cbn [db apiLog dbCalls fst snd].
  all: split; [reflexivity|]; split; [reflexivity|].
  all: intros insights Hr; try discriminate Hr; injection Hr as <-.
  all: reflexivity.
Qed.

Lemma entriesList_run (userId : string) (q : ListQuery) (w : World) :
  wp (entriesList userId q)
     (fun r w' =>
        db w' = db w /\ apiLog w' = apiLog w
        /\ forall rows n,
             r = Ok (rows, n) ->
             rows = select_entries userId q (db w) /\ n = List.length rows)
     w.
Proof.
  unfold entriesList. repeat wp_step.
  all: cbn [db apiLog dbCalls fst snd].
  all: split; [reflexivity|]; split; [reflexivity|].
  all: intros rows n Hr; try discriminate Hr.
  injection Hr as <- <-. split; reflexivity.
Qed.

(** ** What a chat turn leaves behind *)

Lemma touched_ids (cid : string) (now : Z) (l : list Conversation.t) :
  map Conversation.id
    (map (fun c => if (Conversation.id c =? cid)%string
                   then Conversation.mk (Conversation.id c) (Conversation.user_id c)
                          (Conversation.entry_id c) (Conversation.session_type c) now
                   else c) l)
  = map Conversation.id l.
Proof.
  rewrite map_map. apply map_ext. intros c.
  now destruct (Conversation.id c =? cid)%string.
Qed.

(** X26: what a chat turn leaves behind, whatever fails.  The turn never
    changes entries or summaries, adds at most one conversation and sends at
    most one completion request.  It only appends to the messages: nothing,
    or the message of the user (when the turn then failed), or the message
    of the user followed by the reply.  A turn that answers has stored both;
    a turn that finds no conversation has stored nothing; and a turn that
    fails after the message of the user was stored leaves it stored. *)
Theorem chat_turn_only_appends
  (userId message : string) (conversationId entryId : option string) (now : Z) (w : World) :
  wp (chatPost userId message conversationId entryId now)
     (fun r w' =>
        entries_tbl (db w') = entries_tbl (db w)
        /\ summaries_tbl (db w') = summaries_tbl (db w)
        /\ (exists added,
              map Conversation.id (conversations_tbl (db w'))
              = map Conversation.id (conversations_tbl (db w)) ++ added
              /\ (List.length added <= 1)%nat)
        /\ (exists sent, apiLog w' = apiLog w ++ sent /\ (List.length sent <= 1)%nat)
        /\ exists tail,
             messages_tbl (db w') = messages_tbl (db w) ++ tail
             /\ (tail = []
                 \/ (exists cid, tail = [Message.mk cid user message])
                 \/ (exists cid reply,
                       tail = [Message.mk cid user message; Message.mk cid assistant reply]))
             /\ (r = Ok ChatNotFound -> tail = [])
             /\ (forall cid reply,
                   r = Ok (ChatJson cid reply) ->
                   tail = [Message.mk cid user message; Message.mk cid assistant reply])
             /\ (forall cid, tail = [Message.mk cid user message] -> exists e, r = Throw e))
     w.
Proof.
  unfold chatPost, findOrCreateConversation, assembleContext, chat.
  repeat wp_step.
  all: cbn [db apiLog dbCalls fst snd insert_conversation insert_message touch_conversation
            entries_tbl summaries_tbl conversations_tbl messages_tbl].
  all: split; [reflexivity|]; split; [reflexivity|].
  all: split;
    [ rewrite ?touched_ids;
      first [ exists []; split; [now rewrite app_nil_r|cbn; lia]
            | eexists [_]; split; [now rewrite map_app|cbn; lia] ] |].
  all: split;
    [ first [ exists []; split; [now rewrite app_nil_r|cbn; lia]
            | eexists [_]; split; [reflexivity|cbn; lia] ] |].
  all: rewrite <- ?app_assoc; cbn [app].
  all: first
    [ exists []; split; [now rewrite app_nil_r|];
      split; [now left|]; split; [reflexivity|];
      split; [intros cid reply Hr; discriminate Hr|intros cid Htail; discriminate Htail]
    | eexists [_]; split; [reflexivity|];
      split; [right; left; eexists; reflexivity|];
      split; [intros Hr; discriminate Hr|];
      split; [intros cid reply Hr; discriminate Hr|intros cid Htail; eexists; reflexivity]
    | eexists [_; _]; split; [reflexivity|];
      split; [right; right; eexists; eexists; reflexivity|];
      split; [intros Hr; discriminate Hr|];
      split; [intros cid reply Hr; try discriminate Hr; now injection Hr as <- <-
             |intros cid Htail; discriminate Htail] ].
Qed.

End Backend.
(** ** Facts about the two mood trends *)

Lemma literals_as_doubles :
  Js.tenth = 0x1.999999999999ap-4%float /\ Js.fifth = 0x1.999999999999ap-3%float.
Proof. split; reflexivity. Qed.

Lemma weights_cases (m : string) :
  (m = "good" /\ weights m = Some (Numeric 1))
  \/ (m = "okay" /\ weights m = Some (Numeric 0))
  \/ (m = "rough" /\ weights m = Some (Numeric (-1)))
  \/ (m <> "good" /\ m <> "okay" /\ m <> "rough"
      /\ weights m = if inherited m then Some Member else None).
Proof.
  unfold weights.
  destruct (String.eqb_spec m "good") as [->|Hg]; [now left|].
  destruct (String.eqb_spec m "okay") as [->|Ho]; [now right; left|].
  destruct (String.eqb_spec m "rough") as [->|Hr]; [now right; right; left|].
  now right; right; right.
Qed.

Lemma inherited_truthy (m : string) : inherited m = true -> Js.truthy (Some m) = true.
Proof. destruct m; [discriminate|reflexivity]. Qed.

(** One step of the reduction: a text stays a text, a number becomes a text
    at a mood that names an inherited member, and otherwise counts a good
    entry up and a rough one down. *)
Lemma weightStep_count (sum : Accumulator) (e : Entry) :
  weightStep sum e
  = match sum with
    | Text => Text
    | Sum n =>
        if inheritedMood e then Text
        else Sum (n + (if hasMood "good" e then 1 else 0)
                    - (if hasMood "rough" e then 1 else 0))
    end.
Proof.
  unfold weightStep, hasMood, inheritedMood. destruct (mood e) as [m|].
  - destruct (weights_cases m) as [[-> ->]|[[-> ->]|[[-> ->]|(Hg & Ho & Hr & ->)]]];
      try (destruct sum; cbn; [f_equal; lia|reflexivity]).
    destruct (String.eqb_spec m "good"); [contradiction|].
    destruct (String.eqb_spec m "rough"); [contradiction|].
    destruct (inherited m) eqn:Hin.
    + rewrite (inherited_truthy m Hin). now destruct sum.
    + destruct (Js.truthy (Some m)); destruct sum; try reflexivity; f_equal; lia.
  - destruct sum; [f_equal; lia|reflexivity].
Qed.

Lemma weightSum_text (entries : list Entry) : fold_left weightStep entries Text = Text.
Proof.
  induction entries as [|e rest IH]; [reflexivity|].
  cbn [fold_left]. now rewrite weightStep_count.
Qed.

Lemma weightSum_from (entries : list Entry) (acc : Z) :
  fold_left weightStep entries (Sum acc)
  = if existsb inheritedMood entries then Text
    else Sum (acc + Z.of_nat (countMood "good" entries)
                - Z.of_nat (countMood "rough" entries)).
Proof.
  revert acc. induction entries as [|e rest IH]; intros acc; cbn [fold_left existsb].
  - unfold countMood. cbn. f_equal. lia.
  - rewrite weightStep_count. destruct (inheritedMood e); cbn [orb].
    + apply weightSum_text.
    + rewrite IH. destruct (existsb inheritedMood rest); [reflexivity|].
      unfold countMood. cbn [filter].
      destruct (hasMood "good" e), (hasMood "rough" e); cbn [List.length]; f_equal; lia.
Qed.

Lemma weightSum_count (entries : list Entry) :
  weightSum entries
  = if existsb inheritedMood entries then Text
    else Sum (Z.of_nat (countMood "good" entries) - Z.of_nat (countMood "rough" entries)).
Proof. unfold weightSum. now rewrite weightSum_from. Qed.

Lemma moodScore_halfAvg (half : list Entry) : moodScore half = halfAvg half.
Proof.
  unfold moodScore, halfAvg. rewrite weightSum_count.
  now destruct (existsb inheritedMood half).
Qed.

Lemma halves_partition (entries : list Entry) :
  secondHalf entries ++ firstHalf entries = entries
  /\ List.length (secondHalf entries) = midpointOf entries
  /\ List.length (firstHalf entries) = (List.length entries - midpointOf entries)%nat.
Proof.
  unfold secondHalf, firstHalf, Js.slice_to, Js.slice_from, midpointOf.
  assert (Hle : (List.length entries / 2 <= List.length entries)%nat)
    by (apply Nat.Div0.div_le_upper_bound; lia).
  repeat split.
  - apply firstn_skipn.
  - rewrite length_firstn. lia.
  - now rewrite length_skipn.
Qed.

Lemma moodTrend_spec (entries : list Entry) :
  let newerAvg := halfAvg (secondHalf entries) in
  let olderAvg := halfAvg (firstHalf entries) in
  (moodTrend entries = up <-> Js.gt newerAvg (olderAvg + Js.tenth)%float = true)
  /\ (moodTrend entries = down <->
        Js.gt newerAvg (olderAvg + Js.tenth)%float = false
        /\ Js.lt newerAvg (olderAvg - Js.tenth)%float = true)
  /\ (moodTrend entries = stable <->
        Js.gt newerAvg (olderAvg + Js.tenth)%float = false
        /\ Js.lt newerAvg (olderAvg - Js.tenth)%float = false).
Proof.
  intros newerAvg olderAvg. unfold moodTrend. rewrite !moodScore_halfAvg.
  fold newerAvg olderAvg.
  destruct (Js.gt newerAvg (olderAvg + Js.tenth)%float);
    [|destruct (Js.lt newerAvg (olderAvg - Js.tenth)%float)];
    repeat split; intros; try discriminate; try tauto; try easy.
Qed.

Lemma sum_from (values : list Z) (acc : Z) :
  fold_left Z.add values acc = acc + Js.sum values.
Proof.
  unfold Js.sum. revert acc. induction values as [|v rest IH]; intros acc; cbn [fold_left].
  - lia.
  - rewrite IH, (IH (0 + v)). lia.
Qed.

Lemma moodValue_count (e : RecentEntry) :
  moodValue (r_mood e)
  = (if saysMood "good" e then 1 else 0) - (if saysMood "rough" e then 1 else 0).
Proof.
  unfold moodValue, saysMood. destruct (r_mood e) as [s|]; [|reflexivity].
  destruct (String.eqb_spec s "good") as [->|Hg]; [reflexivity|].
  destruct (String.eqb_spec s "okay") as [->|Ho]; [reflexivity|].
  destruct (String.eqb_spec s "rough") as [->|Hr]; reflexivity.
Qed.

Lemma sum_moodValue (half : list RecentEntry) :
  Js.sum (map (fun e => moodValue (r_mood e)) half)
  = Z.of_nat (List.length (filter (saysMood "good") half))
    - Z.of_nat (List.length (filter (saysMood "rough") half)).
Proof.
  induction half as [|e rest IH]; [reflexivity|].
  unfold Js.sum in *. cbn [map fold_left filter]. rewrite sum_from. unfold Js.sum.
  rewrite IH, moodValue_count.
  destruct (saysMood "good" e), (saysMood "rough" e); cbn [List.length]; lia.
Qed.

Lemma half_le (n : nat) : (n / 2 <= n)%nat.
Proof. apply Nat.Div0.div_le_upper_bound. lia. Qed.

Lemma recentAvgOf_mooded (entries : list RecentEntry) :
  recentAvgOf (moodValues entries)
  = moodedAvg (firstn (List.length (mooded entries) / 2) (mooded entries)).
Proof.
  unfold recentAvgOf, moodValues, moodedAvg, Js.slice_to. fold (mooded entries).
  rewrite length_map, firstn_map, sum_moodValue, length_firstn.
  now rewrite (Nat.min_l _ _ (half_le _)).
Qed.

Lemma olderAvgOf_mooded (entries : list RecentEntry) :
  olderAvgOf (moodValues entries)
  = moodedAvg (skipn (List.length (mooded entries) / 2) (mooded entries)).
Proof.
  unfold olderAvgOf, moodValues, moodedAvg, Js.slice_from. fold (mooded entries).
  now rewrite length_map, skipn_map, sum_moodValue, length_skipn.
Qed.

Lemma trend_texts_distinct :
  NOT_ENOUGH <> TRENDING_UP /\ NOT_ENOUGH <> TRENDING_DOWN /\ NOT_ENOUGH <> RELATIVELY_STABLE
  /\ TRENDING_UP <> TRENDING_DOWN /\ TRENDING_UP <> RELATIVELY_STABLE
  /\ TRENDING_DOWN <> RELATIVELY_STABLE.
Proof. repeat split; discriminate. Qed.

Lemma calculateMoodTrend_sentinel (entries : list RecentEntry) :
  calculateMoodTrend entries = NOT_ENOUGH <-> (List.length (mooded entries) < 2)%nat.
Proof.
  unfold calculateMoodTrend, moodValues. fold (mooded entries). rewrite length_map.
  destruct (Nat.ltb_spec (List.length (mooded entries)) 2) as [Hlt|Hge].
  - tauto.
  - split; [|lia]. intros H.
    destruct (Js.gt _ _); [discriminate|]. destruct (Js.lt _ _); discriminate.
Qed.

Lemma calculateMoodTrend_spec (entries : list RecentEntry) :
  let kept := mooded entries in
  let midpoint := (List.length kept / 2)%nat in
  let recentAvg := moodedAvg (firstn midpoint kept) in
  let olderAvg := moodedAvg (skipn midpoint kept) in
  (calculateMoodTrend entries = TRENDING_UP <->
     (2 <= List.length kept)%nat
     /\ Js.gt recentAvg (olderAvg + Js.fifth)%float = true)
  /\ (calculateMoodTrend entries = TRENDING_DOWN <->
        (2 <= List.length kept)%nat
        /\ Js.gt recentAvg (olderAvg + Js.fifth)%float = false
        /\ Js.lt recentAvg (olderAvg - Js.fifth)%float = true)
  /\ (calculateMoodTrend entries = RELATIVELY_STABLE <->
        (2 <= List.length kept)%nat
        /\ Js.gt recentAvg (olderAvg + Js.fifth)%float = false
        /\ Js.lt recentAvg (olderAvg - Js.fifth)%float = false).
Proof.
  intros kept midpoint recentAvg olderAvg.
  unfold calculateMoodTrend.
  rewrite recentAvgOf_mooded, olderAvgOf_mooded.
  unfold moodValues. fold (mooded entries). rewrite length_map.
  fold kept. fold midpoint. fold recentAvg olderAvg.
  pose proof trend_texts_distinct as (D1 & D2 & D3 & D4 & D5 & D6).
  destruct (Nat.ltb_spec (List.length kept) 2) as [Hlt|Hge].
  - repeat split; intros; try congruence; try lia; try (exfalso; lia); tauto.
  - destruct (Js.gt recentAvg (olderAvg + Js.fifth)%float);
      [|destruct (Js.lt recentAvg (olderAvg - Js.fifth)%float)];
      repeat split; intros; try congruence; try assumption; try tauto; try easy.
Qed.

Lemma mooded_length (entries : list RecentEntry) :
  (List.length (mooded entries) <= List.length entries)%nat.
Proof. apply filter_length_le. Qed.

Lemma saysMood_toRecent (m : string) (half : list Entry) :
  List.length (filter (saysMood m) (map toRecent half)) = countMood m half.
Proof.
  unfold countMood. induction half as [|e rest IH]; [reflexivity|]. cbn [map filter].
  change (saysMood m (toRecent e)) with (hasMood m e).
  destruct (hasMood m e); cbn [List.length]; now rewrite IH.
Qed.

Lemma spec_halfAvg_moodScore (half : list Entry) :
  half <> [] -> existsb inheritedMood half = false ->
  spec_halfAvg (map toRecent half) = moodScore half.
Proof.
  intros Hne Hplain. unfold spec_halfAvg. rewrite moodScore_halfAvg. unfold halfAvg.
  rewrite Hplain, sum_moodValue, !saysMood_toRecent, length_map.
  replace (Z.max (Z.of_nat (List.length half)) 1) with (Z.of_nat (List.length half));
    [reflexivity|].
  destruct half; [contradiction|cbn [List.length]; lia].
Qed.

Lemma existsb_halves {A} (f : A -> bool) (n : nat) (l : list A) :
  existsb f l = false -> existsb f (firstn n l) = false /\ existsb f (skipn n l) = false.
Proof.
  intros H. rewrite <- (firstn_skipn n l), existsb_app in H.
  now apply orb_false_iff in H.
Qed.

(** What the specification describes for the context window is what the
    insights route computes, of two entries or more whose moods name no
    inherited member. *)
Lemma spec_trend_is_insights_trend (entries : list Entry) :
  (2 <= List.length entries)%nat -> existsb inheritedMood entries = false ->
  spec_moodTrend (map toRecent entries) = moodTrend entries.
Proof.
  intros Hlen Hplain.
  destruct (existsb_halves inheritedMood (List.length entries / 2) entries Hplain)
    as [Hnewer Holder].
  assert (Hmid : (1 <= List.length entries / 2)%nat)
    by (apply Nat.div_le_lower_bound; lia).
  pose proof (half_le (List.length entries)) as Hle.
  assert (Hlt : (List.length entries / 2 < List.length entries)%nat)
    by (apply Nat.div_lt; lia).
  unfold spec_moodTrend, moodTrend, firstHalf, secondHalf, midpointOf, Js.slice_from,
    Js.slice_to.
  rewrite length_map, firstn_map, skipn_map, !spec_halfAvg_moodScore; try assumption;
    try reflexivity.
  - intros Hnil. apply (f_equal (@List.length Entry)) in Hnil.
    rewrite length_skipn in Hnil. cbn [List.length] in Hnil. lia.
  - intros Hnil. apply (f_equal (@List.length Entry)) in Hnil.
    rewrite length_firstn in Hnil. cbn [List.length] in Hnil. lia.
Qed.

(** C1 (as amended): the mood trend of GET /api/insights partitions the
    full newest-first sequence at its floor midpoint and averages each half
    with the number of entries of the half as denominator (1 for an empty
    half), an entry without mood adding 0 and a mood that names an inherited
    member of objects making the average not a number; the averages are
    doubles, and with the additions and comparisons of doubles the trend is
    'up' exactly when newerAvg > olderAvg + 0.1, 'down' exactly when it is
    not 'up' and newerAvg < olderAvg - 0.1, and 'stable' otherwise.  The
    mood trend of the 7-day context window (calculateMoodTrend) first drops
    the entries without mood, answers 'Not enough data' exactly when fewer
    than two are left, partitions the remaining ones at their floor
    midpoint, averages each half over the mood-bearing entries only, and
    uses the threshold 0.2 in the same way.  The trend that the claim
    describes is the one of the insights route, for two entries or more
    whose moods name no inherited member. *)
Theorem mood_trends_characterised (entries : list Entry) (recent : list RecentEntry) :
  let newer := secondHalf entries in
  let older := firstHalf entries in
  let kept := mooded recent in
  let midpoint := (List.length kept / 2)%nat in
  let recentAvg := moodedAvg (firstn midpoint kept) in
  let olderAvg := moodedAvg (skipn midpoint kept) in
  (newer ++ older = entries /\ List.length newer = (List.length entries / 2)%nat)
  /\ (moodScore newer = halfAvg newer /\ moodScore older = halfAvg older)
  /\ (moodTrend entries = up <->
        Js.gt (halfAvg newer) (halfAvg older + Js.tenth)%float = true)
  /\ (moodTrend entries = down <->
        Js.gt (halfAvg newer) (halfAvg older + Js.tenth)%float = false
        /\ Js.lt (halfAvg newer) (halfAvg older - Js.tenth)%float = true)
  /\ (moodTrend entries = stable <->
        Js.gt (halfAvg newer) (halfAvg older + Js.tenth)%float = false
        /\ Js.lt (halfAvg newer) (halfAvg older - Js.tenth)%float = false)
  /\ (calculateMoodTrend recent = NOT_ENOUGH <-> (List.length kept < 2)%nat)
  /\ (calculateMoodTrend recent = TRENDING_UP <->
        (2 <= List.length kept)%nat
        /\ Js.gt recentAvg (olderAvg + Js.fifth)%float = true)
  /\ (calculateMoodTrend recent = TRENDING_DOWN <->
        (2 <= List.length kept)%nat
        /\ Js.gt recentAvg (olderAvg + Js.fifth)%float = false
        /\ Js.lt recentAvg (olderAvg - Js.fifth)%float = true)
  /\ (calculateMoodTrend recent = RELATIVELY_STABLE <->
        (2 <= List.length kept)%nat
        /\ Js.gt recentAvg (olderAvg + Js.fifth)%float = false
        /\ Js.lt recentAvg (olderAvg - Js.fifth)%float = false)
  /\ recentAvgOf (moodValues recent) = recentAvg
  /\ olderAvgOf (moodValues recent) = olderAvg
  /\ ((2 <= List.length entries)%nat -> existsb inheritedMood entries = false ->
      spec_moodTrend (map toRecent entries) = moodTrend entries).
Proof.
  intros newer older kept midpoint recentAvg olderAvg.
  destruct (halves_partition entries) as (Hsplit & Hnewer & _).
  destruct (moodTrend_spec entries) as (Hup & Hdown & Hstable).
  destruct (calculateMoodTrend_spec recent) as (Cup & Cdown & Cstable).
  split; [split; [exact Hsplit|exact Hnewer]|].
  split; [split; apply moodScore_halfAvg|].
  split; [exact Hup|]. split; [exact Hdown|]. split; [exact Hstable|].
  split; [apply calculateMoodTrend_sentinel|].
  split; [exact Cup|]. split; [exact Cdown|]. split; [exact Cstable|].
  split; [apply recentAvgOf_mooded|].
  split; [apply olderAvgOf_mooded|apply spec_trend_is_insights_trend].
Qed.

Lemma moodTrend_single (e : Entry) :
  moodTrend [e]
  = if hasMood "good" e then down else if hasMood "rough" e then up else stable.
Proof.
  unfold moodTrend, firstHalf, secondHalf, midpointOf, Js.slice_from, Js.slice_to.
  cbn [List.length Nat.div Nat.divmod fst skipn firstn].
  rewrite !moodScore_halfAvg. unfold halfAvg, countMood. cbn [existsb filter orb].
  unfold inheritedMood, hasMood. destruct (mood e) as [m|]; [|reflexivity].
  destruct (weights_cases m) as [[-> _]|[[-> _]|[[-> _]|(Hg & Ho & Hr & _)]]];
    try reflexivity.
  destruct (String.eqb_spec m "good"); [contradiction|].
  destruct (String.eqb_spec m "rough"); [contradiction|].
  destruct (inherited m); reflexivity.
Qed.

(** C6 (as amended): calculateMoodTrend, the trend of the context window,
    returns the sentinel 'Not enough data' exactly when fewer than two
    entries carry a mood, hence for every sequence of fewer than two
    entries.  The mood trend of GET /api/insights has no sentinel: it is
    'stable' for the empty sequence, and for a single entry it is 'down' when
    the entry's mood is good, 'up' when it is rough, and 'stable' otherwise. *)
Theorem mood_trend_of_few_entries (recent : list RecentEntry) :
  (List.length recent < 2)%nat ->
  calculateMoodTrend recent = NOT_ENOUGH
  /\ (forall entries,
        calculateMoodTrend entries = NOT_ENOUGH <-> (List.length (mooded entries) < 2)%nat)
  /\ moodTrend [] = stable
  /\ (forall e,
        moodTrend [e]
        = if hasMood "good" e then down else if hasMood "rough" e then up else stable).
Proof.
  intros Hfew. split.
  - apply calculateMoodTrend_sentinel. pose proof (mooded_length recent). lia.
  - split; [intros entries; apply calculateMoodTrend_sentinel|].
    split; [reflexivity|apply moodTrend_single].
Qed.

(** ** Facts about the streak *)

Lemma DAY_MS_pos : 0 < DAY_MS.
Proof. reflexivity. Qed.

Lemma setHours0_day (d : Z) : setHours0 (Date_of_day d) = Date_of_day d.
Proof.
  unfold setHours0, Date_of_day. rewrite (Z.mul_comm DAY_MS d), Z.div_mul; [ring|].
  pose proof DAY_MS_pos. lia.
Qed.

Lemma diffDays_days (c d : Z) : (Date_of_day c - Date_of_day d) / DAY_MS = c - d.
Proof.
  unfold Date_of_day. rewrite <- Z.mul_sub_distr_l, (Z.mul_comm DAY_MS), Z.div_mul; [reflexivity|].
  pose proof DAY_MS_pos. lia.
Qed.

Lemma streakLoop_step (c d : Z) (rest : list Z) (n : nat) :
  streakLoop (Date_of_day c) (map Date_of_day (d :: rest)) n
  = if inGrace (c - d) then streakLoop (Date_of_day d) (map Date_of_day rest) (S n) else n.
Proof. cbn [map streakLoop]. now rewrite setHours0_day, diffDays_days. Qed.

Lemma streakLoop_leading (days : list Z) (c : Z) (n : nat) :
  streakLoop (Date_of_day c) (map Date_of_day days) n
  = (n + leading inGrace (gaps c days))%nat.
Proof.
  revert c n. induction days as [|d rest IH]; intros c n.
  - cbn. lia.
  - rewrite streakLoop_step. cbn [gaps leading].
    destruct (inGrace (c - d)); [rewrite IH|]; lia.
Qed.

Lemma streakOf_leading (now : Z) (days : list Z) :
  streakOf now days = leading inGrace (gaps (DATE now) days).
Proof.
  unfold streakOf. change (setHours0 now) with (Date_of_day (DATE now)).
  now rewrite streakLoop_leading.
Qed.

Lemma last_cons (d x : Z) (pre : list Z) : last (d :: pre) x = last pre d.
Proof.
  revert d x. induction pre as [|a pre IH]; intros d x; [reflexivity|].
  change (last (d :: a :: pre) x) with (last (a :: pre) x). now rewrite !IH.
Qed.

Lemma gaps_app (today : Z) (pre rest : list Z) :
  gaps today (pre ++ rest) = gaps today pre ++ gaps (last pre today) rest.
Proof.
  revert today. induction pre as [|d pre IH]; intros today; [reflexivity|].
  cbn [app gaps]. now rewrite IH, last_cons.
Qed.

Lemma length_gaps (today : Z) (days : list Z) :
  List.length (gaps today days) = List.length days.
Proof. revert today. induction days; intros; cbn; congruence. Qed.

Lemma leading_all {A} (p : A -> bool) (pre rest : list A) :
  forallb p pre = true -> leading p (pre ++ rest) = (List.length pre + leading p rest)%nat.
Proof.
  induction pre as [|x pre IH]; cbn; [reflexivity|].
  intros H. apply andb_prop in H as [-> H]. now rewrite IH.
Qed.

Lemma gaps_contiguous (today : Z) (n : nat) (k : nat) :
  gaps (today - Z.of_nat k + 1) (map (fun i => today - Z.of_nat i) (seq k n))
  = repeat 1 n.
Proof.
  revert k. induction n as [|n IH]; intros k; [reflexivity|].
  cbn [seq map gaps repeat]. f_equal; [lia|].
  rewrite <- (IH (S k)). f_equal. lia.
Qed.

Lemma streakOf_contiguous (now : Z) (n : nat) :
  streakOf now (contiguous (DATE now) n) = n.
Proof.
  rewrite streakOf_leading. unfold contiguous.
  destruct n as [|n]; [reflexivity|].
  cbn [seq map gaps leading]. replace (DATE now - (DATE now - Z.of_nat 0)) with 0 by lia.
  cbn [inGrace Z.eqb orb]. f_equal.
  replace (DATE now - Z.of_nat 0) with (DATE now - Z.of_nat 1 + 1) by lia.
  rewrite gaps_contiguous. induction n; cbn; congruence.
Qed.

Lemma streakOf_truncated (now : Z) (pre rest : list Z) (d : Z) :
  forallb inGrace (gaps (DATE now) pre) = true ->
  1 < last pre (DATE now) - d ->
  streakOf now (pre ++ d :: rest) = List.length pre.
Proof.
  intros Hpre Hgap. rewrite streakOf_leading, gaps_app, leading_all by exact Hpre.
  rewrite length_gaps. cbn [gaps leading].
  replace (inGrace (last pre (DATE now) - d)) with false; [lia|].
  unfold inGrace. symmetry. apply orb_false_iff. split; apply Z.eqb_neq; lia.
Qed.

Lemma descending_gaps (today : Z) (days : list Z) :
  descending days -> notAfter today days -> Forall (fun g => 0 <= g) (gaps today days).
Proof.
  revert today. induction days as [|d rest IH]; intros today Hdesc Hhead; [constructor|].
  cbn in *. destruct Hdesc as [Hnext Hdesc]. constructor; [lia|].
  apply IH; [exact Hdesc|]. destruct rest; cbn; [exact I|lia].
Qed.

Lemma leading_within (gs : list Z) :
  Forall (fun g => 0 <= g) gs -> leading inGrace gs = leading atMostOne gs.
Proof.
  induction 1 as [|g gs Hg _ IH]; [reflexivity|]. cbn [leading]. rewrite IH.
  replace (inGrace g) with (atMostOne g); [reflexivity|].
  unfold inGrace, atMostOne. destruct (Z.leb_spec g 1), (Z.eqb_spec g 0), (Z.eqb_spec g 1); cbn; lia.
Qed.

Lemma leading_monotone (gs gs' : list Z) :
  Forall2 Z.le gs gs' ->
  (leading atMostOne gs' <= leading atMostOne gs)%nat.
Proof.
  induction 1 as [|g g' gs gs' Hle _ IH]; [reflexivity|]. cbn [leading].
  destruct (atMostOne g') eqn:E', (atMostOne g) eqn:E; try lia.
  unfold atMostOne in E', E. apply Z.leb_le in E'. apply Z.leb_gt in E. lia.
Qed.

(** ** The scenario of three entries *)

Lemma insert_before {A} (cmp : A -> A -> Z) (x y : A) (ys : list A) :
  cmp x y <= 0 -> Js.insert cmp x (y :: ys) = x :: y :: ys.
Proof. intros H. cbn. now destruct (Z.leb_spec (cmp x y) 0); [|lia]. Qed.

Lemma insert_after {A} (cmp : A -> A -> Z) (x y : A) (ys : list A) :
  0 < cmp x y -> Js.insert cmp x (y :: ys) = y :: Js.insert cmp x ys.
Proof. intros H. cbn. now destruct (Z.leb_spec (cmp x y) 0); [lia|]. Qed.

Lemma scenario_window (now : Z) (e : Entry) :
  user_id e = "tom" -> deleted_at e = None -> now - 7 * DAY_MS <= created_at e ->
  inWindow "tom" (now - 7 * DAY_MS) e = true.
Proof.
  intros Hu Hd Hc. unfold inWindow, live. rewrite Hu, Hd.
  apply Z.leb_le in Hc. rewrite Hc. reflexivity.
Qed.

Ltac scenario_arith :=
  unfold entry_T1, entry_T3, entry_T6, scenario_entry, newestFirst, DAY_MS;
  cbn [created_at user_id deleted_at]; first [reflexivity | lia].

Lemma scenario_rows (now : Z) :
  select_since "tom" (now - 7 * DAY_MS) (scenario_db now)
  = [entry_T1 now; entry_T3 now; entry_T6 now].
Proof.
  unfold select_since, scenario_db. cbn [entries_tbl filter].
  rewrite !scenario_window by scenario_arith.
  cbn [Js.sort fold_right]. change (Js.insert newestFirst (entry_T1 now) []) with [entry_T1 now].
  rewrite (insert_after newestFirst (entry_T3 now)) by scenario_arith.
  change (Js.insert newestFirst (entry_T3 now) []) with [entry_T3 now].
  rewrite (insert_after newestFirst (entry_T6 now)) by scenario_arith.
  rewrite (insert_after newestFirst (entry_T6 now)) by scenario_arith.
  reflexivity.
Qed.

(** C2 (as amended): the route reads the three entries newest first, as
    [T-1, T-3, T-6]; topTags is then work 2, wins 1, health 1 (ties in the
    order of first appearance in that sequence), and the mood trend
    partitions at midpoint 1 into the newer half [T-1] of average 1 and the
    older half [T-3, T-6] of average -1/2, which yields 'up'. *)
Theorem scenario_insights (now : Z) :
  let rows := select_since "tom" (now - 7 * DAY_MS) (scenario_db now) in
  rows = [entry_T1 now; entry_T3 now; entry_T6 now]
  /\ topTags rows = [mkTagCount "work" 2; mkTagCount "wins" 1; mkTagCount "health" 1]
  /\ midpointOf rows = 1%nat
  /\ secondHalf rows = [entry_T1 now]
  /\ firstHalf rows = [entry_T3 now; entry_T6 now]
  /\ moodScore (secondHalf rows) = 1%float
  /\ moodScore (firstHalf rows) = (-0.5)%float
  /\ moodTrend rows = up.
Proof.
  intros rows. subst rows. rewrite scenario_rows.
  repeat split; reflexivity.
Qed.

(** ** The dates that the streak walks *)

Lemma insert_In (x y : Z) (l : list Z) :
  In y (Js.insert newestDay x l) <-> y = x \/ In y l.
Proof.
  induction l as [|z l IH]; cbn.
  - intuition auto.
  - destruct (newestDay x z <=? 0); cbn; [intuition auto|].
    rewrite IH. intuition auto.
Qed.

Lemma insert_descending (x : Z) (l : list Z) :
  descending l -> ~ In x l -> descending (Js.insert newestDay x l).
Proof.
  induction l as [|z l IH]; cbn [Js.insert]; [cbn; auto|].
  intros Hdesc Hnotin. unfold newestDay at 1.
  destruct (Z.leb_spec (z - x) 0) as [Hle|Hgt].
  - split; [|exact Hdesc]. assert (z <> x) by (intros ->; apply Hnotin; now left). lia.
  - destruct Hdesc as [Hhead Hdesc]. split.
    + destruct l as [|z' l]; cbn [Js.insert]; [lia|].
      destruct (newestDay x z' <=? 0); lia.
    + apply IH; [exact Hdesc|]. intros Hin. apply Hnotin. now right.
Qed.

Lemma sort_descending (l : list Z) : NoDup l -> descending (Js.sort newestDay l).
Proof.
  induction 1 as [|x l Hnotin _ IH]; [exact I|].
  cbn [Js.sort fold_right]. apply insert_descending; [exact IH|].
  intros Hin. apply Hnotin. clear - Hin.
  induction l as [|z l IHl]; [exact Hin|].
  cbn [Js.sort fold_right] in Hin. apply insert_In in Hin as [->|Hin]; [now left|].
  right. now apply IHl.
Qed.

Lemma select_entry_dates_descending (userId : string) (d : Db) :
  descending (select_entry_dates userId d).
Proof. unfold select_entry_dates. apply sort_descending, NoDup_nodup. Qed.

(** C7 (as amended): calculateStreak, on a store that answers, walks the
    distinct entry dates of the user, which the store gives in descending
    order, backward from today: the streak is the number of leading dates
    whose day difference to the previously counted date (today at first) is
    0 or 1.  A contiguous daily sequence of n days ending today has streak
    n, and when the dates before a gap of two days or more are each 0 or 1
    day from the previous one, the streak is their number.  When no date is
    after today, the walk ends at the first difference greater than 1, and a
    store whose gaps are pointwise larger has a streak that is not larger. *)
Theorem streak_walk (db_fault : nat -> option string) (userId : string) (now : Z)
  (w : World) :
  db_fault (dbCalls w) = None ->
  let today := DATE now in
  let days := select_entry_dates userId (db w) in
  let streak := fst (calculateStreak db_fault userId now w) in
  descending days
  /\ streak = Ok (leading inGrace (gaps today days))
  /\ (forall n, days = contiguous today n -> streak = Ok n)
  /\ (forall pre d rest,
        days = pre ++ d :: rest ->
        forallb inGrace (gaps today pre) = true ->
        2 <= last pre today - d ->
        streak = Ok (List.length pre))
  /\ (notAfter today days ->
      streak = Ok (leading atMostOne (gaps today days))
      /\ (forall w',
            db_fault (dbCalls w') = None ->
            Forall2 Z.le (gaps today days) (gaps today (select_entry_dates userId (db w'))) ->
            exists n n',
              streak = Ok n
              /\ fst (calculateStreak db_fault userId now w') = Ok n'
              /\ (n' <= n)%nat)).
Proof.
  intros Hup today days streak. subst streak.
  rewrite (calculateStreak_streakOf db_fault userId now w Hup). fold days.
  pose proof (select_entry_dates_descending userId (db w)) as Hdesc. fold days in Hdesc.
  subst today.
  split; [exact Hdesc|].
  split; [f_equal; apply streakOf_leading|].
  split; [intros n ->; f_equal; apply streakOf_contiguous|].
  split.
  - intros pre d rest -> Hpre Hgap. f_equal. apply streakOf_truncated; [exact Hpre|lia].
  - intros Hhead.
    pose proof (descending_gaps (DATE now) days Hdesc Hhead) as Hpos.
    split; [f_equal; rewrite streakOf_leading; now apply leading_within|].
    intros w' Hup' Hle.
    rewrite (calculateStreak_streakOf db_fault userId now w' Hup').
    eexists. eexists. split; [reflexivity|]. split; [reflexivity|].
    rewrite !streakOf_leading, (leading_within _ Hpos).
    assert (Hpos' : Forall (fun g => 0 <= g)
                      (gaps (DATE now) (select_entry_dates userId (db w')))).
    { clear - Hpos Hle. induction Hle; [constructor|].
      inversion Hpos; subst. constructor; [lia|auto]. }
    rewrite (leading_within _ Hpos'). now apply leading_monotone.
Qed.

(** ** Soft deletion and the reads of entries *)

Lemma insert_In_any {A} (cmp : A -> A -> Z) (x y : A) (l : list A) :
  In x (Js.insert cmp y l) <-> y = x \/ In x l.
Proof.
  induction l as [|z l IH]; cbn [Js.insert].
  - reflexivity.
  - destruct (cmp y z <=? 0); [reflexivity|]. cbn [In]. rewrite IH. tauto.
Qed.

Lemma sort_In {A} (cmp : A -> A -> Z) (x : A) (l : list A) :
  In x (Js.sort cmp l) <-> In x l.
Proof.
  induction l as [|y l IH]; [reflexivity|]. cbn [Js.sort fold_right].
  fold (Js.sort cmp l). rewrite insert_In_any, IH. reflexivity.
Qed.

Lemma select_entry_content_soft_delete (target entryId owner : string) (now : Z) (d : Db) :
  select_entry_content target (soft_delete entryId owner now d)
  = select_entry_content target d.
Proof.
  unfold select_entry_content, soft_delete. cbn [entries_tbl].
  induction (entries_tbl d) as [|e rest IH]; [reflexivity|]. cbn [map filter].
  destruct ((id e =? entryId)%string && (user_id e =? owner)%string && live e);
    cbn [id]; destruct (id e =? target)%string; cbn [map content]; now rewrite IH.
Qed.

Lemma select_since_soft_delete (entryId owner : string) (now since : Z) (d : Db) (e : Entry) :
  In e (select_since owner since (soft_delete entryId owner now d)) -> id e <> entryId.
Proof.
  unfold select_since, soft_delete. cbn [entries_tbl]. rewrite sort_In, filter_In, in_map_iff.
  intros [(x & Hx & _) Hwin]. unfold inWindow in Hwin.
  apply andb_prop in Hwin as [Hwin Hlive]. apply andb_prop in Hwin as [Huser _].
  apply String.eqb_eq in Huser.
  destruct (String.eqb_spec (id x) entryId) as [Hid|Hid];
    destruct (String.eqb_spec (user_id x) owner) as [Hown|Hown];
    destruct (live x) eqn:Hl; cbn [andb] in Hx; subst e;
    cbn [id user_id live deleted_at] in *;
    first [assumption | discriminate | congruence].
Qed.

(** ** More on the statistics of the insights route *)

Lemma bump_counts (m : string) (d : MoodStats) :
  let d' := match bump m d with Some d' => d' | None => d end in
  good d' = (good d + if (m =? "good")%string then 1 else 0)%nat
  /\ okay d' = (okay d + if (m =? "okay")%string then 1 else 0)%nat
  /\ rough d' = (rough d + if (m =? "rough")%string then 1 else 0)%nat.
Proof.
  unfold bump.
  destruct (String.eqb_spec m "good") as [->|Hg]; [cbn; lia|].
  destruct (String.eqb_spec m "okay") as [->|Ho]; [cbn; lia|].
  destruct (String.eqb_spec m "rough") as [->|Hr]; cbn; lia.
Qed.

Lemma countMood_cons (m : string) (e : Entry) (rest : list Entry) :
  countMood m (e :: rest) = ((if hasMood m e then 1 else 0) + countMood m rest)%nat.
Proof. unfold countMood. cbn [filter]. now destruct (hasMood m e). Qed.

Lemma moodDistribution_from (entries : list Entry) (acc : MoodStats) :
  let d :=
    fold_left
      (fun d e =>
         match mood e with
         | Some m => if Js.truthy (Some m)
                     then match bump m d with Some d' => d' | None => d end
                     else d
         | None => d
         end)
      entries acc in
  good d = (good acc + countMood "good" entries)%nat
  /\ okay d = (okay acc + countMood "okay" entries)%nat
  /\ rough d = (rough acc + countMood "rough" entries)%nat.
Proof.
  revert acc. induction entries as [|e rest IH]; intros acc; cbn [fold_left].
  - unfold countMood. cbn. lia.
  - cbv zeta in IH |- *. destruct (IH
      (match mood e with
       | Some m => if Js.truthy (Some m)
                   then match bump m acc with Some d' => d' | None => acc end
                   else acc
       | None => acc
       end)) as (Hg & Ho & Hr).
    rewrite Hg, Ho, Hr, !countMood_cons. clear IH Hg Ho Hr. unfold hasMood.
    destruct (mood e) as [m|]; [|lia].
    destruct m as [|c m]; [cbn; lia|].
    destruct (bump_counts (String c m) acc) as (Hg & Ho & Hr).
    cbn [Js.truthy]. rewrite Hg, Ho, Hr.
    destruct (String c m =? "good")%string, (String c m =? "okay")%string,
      (String c m =? "rough")%string; lia.
Qed.

Lemma countMood_known (entries : list Entry) :
  (countMood "good" entries + countMood "okay" entries + countMood "rough" entries)%nat
  = List.length (filter knownMood entries).
Proof.
  induction entries as [|e rest IH]; [reflexivity|].
  rewrite !countMood_cons. cbn [filter]. unfold knownMood at 1.
  assert (Hone : ((if hasMood "good" e then 1 else 0) + (if hasMood "okay" e then 1 else 0)
                  + (if hasMood "rough" e then 1 else 0))%nat
                 = if hasMood "good" e || hasMood "okay" e || hasMood "rough" e
                   then 1%nat else 0%nat).
  { unfold hasMood. destruct (mood e) as [m|]; [|reflexivity].
    destruct (String.eqb_spec m "good") as [->|Hg]; [reflexivity|].
    destruct (String.eqb_spec m "okay") as [->|Ho]; [reflexivity|].
    destruct (String.eqb_spec m "rough") as [->|Hr]; reflexivity. }
  destruct (hasMood "good" e || hasMood "okay" e || hasMood "rough" e);
    cbn [List.length]; lia.
Qed.

Lemma filter_all_length {A} (p : A -> bool) (l : list A) :
  List.length (filter p l) = List.length l <-> forallb p l = true.
Proof.
  induction l as [|x l IH]; [cbn; tauto|]. cbn.
  pose proof (filter_length_le p l). destruct (p x); cbn; [rewrite <- IH; lia|].
  split; [lia|discriminate].
Qed.

(** X1: the three buckets of the mood distribution count the entries whose
    mood is good, okay and rough; together they never exceed the number of
    entries, and they reach it exactly when every entry has one of the three
    moods. *)
Theorem moodDistribution_counts (entries : list Entry) :
  let d := moodDistribution entries in
  good d = countMood "good" entries
  /\ okay d = countMood "okay" entries
  /\ rough d = countMood "rough" entries
  /\ (good d + okay d + rough d <= List.length entries)%nat
  /\ ((good d + okay d + rough d)%nat = List.length entries
      <-> forallb knownMood entries = true).
Proof.
  intros d. destruct (moodDistribution_from entries (mkMoodStats 0 0 0)) as (Hg & Ho & Hr).
  fold (moodDistribution entries) in Hg, Ho, Hr. fold d in Hg, Ho, Hr. cbn in Hg, Ho, Hr.
  rewrite Hg, Ho, Hr, countMood_known.
  repeat split; try reflexivity.
  - apply filter_length_le.
  - apply filter_all_length.
  - apply filter_all_length.
Qed.

(** ** Counting labels *)

Lemma hasKey_In (t : string) (m : list (string * nat)) :
  hasKey t m = true <-> In t (map fst m).
Proof.
  unfold hasKey. rewrite existsb_exists, in_map_iff. split.
  - intros (p & Hin & Heq). apply String.eqb_eq in Heq. now exists p.
  - intros (p & Heq & Hin). exists p. split; [exact Hin|]. now apply String.eqb_eq.
Qed.

Lemma map_get_absent (x : string) (m : list (string * nat)) :
  hasKey x m = false -> map_get x m = None.
Proof.
  induction m as [|[k v] m IH]; [reflexivity|]. cbn.
  destruct (k =? x)%string; [discriminate|exact IH].
Qed.

Lemma map_set_absent (x : string) (v : nat) (m : list (string * nat)) :
  hasKey x m = false -> map_set x v m = m ++ [(x, v)].
Proof.
  induction m as [|[k w] m IH]; [reflexivity|]. cbn.
  destruct (k =? x)%string; [discriminate|]. intros H. now rewrite IH.
Qed.

Lemma bump_absent (x : string) (m : list (string * nat)) :
  ~ In x (map fst m) ->
  map (fun p => if (fst p =? x)%string then (fst p, (snd p + 1)%nat) else p) m = m.
Proof.
  induction m as [|[k w] m IH]; [reflexivity|]. cbn [map fst snd]. intros Hnotin.
  destruct (String.eqb_spec k x) as [->|Hne]; [exfalso; apply Hnotin; now left|].
  f_equal. apply IH. intros Hin. apply Hnotin. now right.
Qed.

Lemma map_set_present (x : string) (m : list (string * nat)) :
  NoDup (map fst m) -> hasKey x m = true ->
  map_set x (match map_get x m with Some n => n | None => 0 end + 1) m
  = map (fun p => if (fst p =? x)%string then (fst p, (snd p + 1)%nat) else p) m.
Proof.
  induction m as [|[k w] m IH]; [discriminate|]. cbn [map fst snd map_set map_get hasKey existsb].
  intros Hnd Hkey. inversion Hnd as [|? ? Hnotin Hnd']; subst.
  destruct (String.eqb_spec k x) as [->|Hne].
  - f_equal. symmetry. now apply bump_absent.
  - cbn [orb] in Hkey. f_equal. now apply IH.
Qed.

Lemma occurrences_cons (x t : string) (rest : list string) :
  occurrences (x :: rest) t
  = ((if (x =? t)%string then 1 else 0) + occurrences rest t)%nat.
Proof.
  unfold occurrences. cbn [count_occ].
  destruct (string_dec x t) as [->|Hne]; [now rewrite String.eqb_refl|].
  now destruct (String.eqb_spec x t).
Qed.

Lemma filter_and {A} (p q : A -> bool) (l : list A) :
  filter (fun x => p x && q x) l = filter p (filter q l).
Proof.
  induction l as [|x l IH]; [reflexivity|]. cbn [filter].
  destruct (q x) eqn:Hq, (p x) eqn:Hp; cbn [andb filter]; rewrite ?Hp, IH; reflexivity.
Qed.

Lemma countInto_spec (labels : list string) (m : list (string * nat)) :
  NoDup (map fst m) ->
  countInto m labels
  = map (fun p => (fst p, (snd p + occurrences labels (fst p))%nat)) m
    ++ map (fun t => (t, occurrences labels t))
         (filter (fun t => negb (hasKey t m)) (firstSeen labels)).
Proof.
  revert m. induction labels as [|x rest IH]; intros m Hnd.
  - cbn. rewrite app_nil_r. induction m as [|[k v] m IHm]; [reflexivity|].
    cbn in *. inversion Hnd; subst. rewrite <- IHm by assumption.
    now rewrite Nat.add_0_r.
  - unfold countInto in *. cbn [fold_left firstSeen filter].
    destruct (hasKey x m) eqn:Hkey; cbn [negb].
    + rewrite (map_set_present x m Hnd Hkey), IH.
      2:{ rewrite map_map. cbn.
          replace (map (fun p => fst (if (fst p =? x)%string
                                     then (fst p, (snd p + 1)%nat) else p)) m)
            with (map fst m); [exact Hnd|].
          apply map_ext. intros [k v]. cbn. now destruct (k =? x)%string. }
      f_equal.
      * rewrite map_map. apply map_ext. intros [k v]. cbn [fst snd].
        rewrite occurrences_cons, (String.eqb_sym x k).
        destruct (k =? x)%string; cbn [fst snd]; f_equal; lia.
      * assert (Hsame : forall t, hasKey t
                  (map (fun p => if (fst p =? x)%string
                                 then (fst p, (snd p + 1)%nat) else p) m) = hasKey t m).
        { intros t. unfold hasKey. clear. induction m as [|[k v] m IHm]; [reflexivity|].
          cbn [map existsb fst]. rewrite IHm. now destruct (k =? x)%string. }
        rewrite (filter_ext _ _ (fun t => f_equal negb (Hsame t))).
        rewrite filter_filter_implied.
        2:{ intros t Ht. destruct (String.eqb_spec t x) as [->|]; [|reflexivity].
            rewrite Hkey in Ht. discriminate. }
        apply map_ext_in. intros t Hin. apply filter_In in Hin as [_ Ht].
        rewrite occurrences_cons. destruct (String.eqb_spec x t) as [->|]; [|reflexivity].
        rewrite Hkey in Ht. discriminate.
    + rewrite (map_get_absent x m Hkey), (map_set_absent x _ m Hkey), IH.
      2:{ rewrite map_app. cbn. apply NoDup_app; [exact Hnd|repeat constructor; easy|].
          intros k Hin [<-|[]]. apply hasKey_In in Hin. congruence. }
      rewrite map_app, <- app_assoc. cbn [map app fst snd]. f_equal.
      * apply map_ext_in. intros [k v] Hin. cbn [fst snd]. rewrite occurrences_cons.
        destruct (String.eqb_spec x k) as [->|]; [|reflexivity].
        exfalso. assert (hasKey k m = true) by (apply hasKey_In, in_map_iff; now exists (k, v)).
        congruence.
      * rewrite occurrences_cons, String.eqb_refl. f_equal.
        assert (Hkeys : forall t, hasKey t (m ++ [(x, (0 + 1)%nat)])
                                  = hasKey t m || (x =? t)%string).
        { intros t. unfold hasKey. rewrite existsb_app. cbn. now rewrite orb_false_r. }
        rewrite (filter_ext _ (fun t => negb (hasKey t m) && negb (t =? x)%string)).
        2:{ intros t. rewrite Hkeys, negb_orb, (String.eqb_sym x t). reflexivity. }
        rewrite filter_and.
        apply map_ext_in. intros t Hin. apply filter_In in Hin as [Hin _].
        apply filter_In in Hin as [_ Hne]. rewrite occurrences_cons.
        rewrite String.eqb_sym. now destruct (t =? x)%string.
Qed.

(** ** Sorting by a key, largest first *)

Section SortDescending.

Context {A : Type} (key : A -> Z) (cmp : A -> A -> Z).
Hypothesis cmp_key : forall a b, cmp a b = key b - key a.

Lemma insert_perm (x : A) (l : list A) : Permutation (Js.insert cmp x l) (x :: l).
Proof.
  induction l as [|y l IH]; cbn [Js.insert]; [reflexivity|].
  destruct (cmp x y <=? 0); [reflexivity|].
  rewrite IH. apply perm_swap.
Qed.

Lemma sort_perm (l : list A) : Permutation (Js.sort cmp l) l.
Proof.
  induction l as [|x l IH]; [reflexivity|]. cbn [Js.sort fold_right].
  fold (Js.sort cmp l). now rewrite insert_perm, IH.
Qed.

Lemma insert_sorted (x : A) (l : list A) :
  StronglySorted (fun a b => key b <= key a) l ->
  StronglySorted (fun a b => key b <= key a) (Js.insert cmp x l).
Proof using cmp_key.
  induction 1 as [|y l Hsorted IH Hall]; cbn [Js.insert].
  - repeat constructor.
  - rewrite cmp_key. destruct (Z.leb_spec (key y - key x) 0) as [Hle|Hgt].
    + constructor; [now constructor|]. constructor; [lia|].
      eapply Forall_impl; [|exact Hall]. cbn. intros; lia.
    + constructor; [exact IH|].
      rewrite (Forall_forall (fun b => key b <= key y)). intros b Hin.
      apply (Permutation_in _ (insert_perm x l)) in Hin. destruct Hin as [<-|Hin]; [lia|].
      rewrite Forall_forall in Hall. now apply Hall.
Qed.

Lemma sort_sorted (l : list A) :
  StronglySorted (fun a b => key b <= key a) (Js.sort cmp l).
Proof using cmp_key.
  induction l as [|x l IH]; [constructor|]. cbn [Js.sort fold_right].
  now apply insert_sorted.
Qed.

Lemma insert_stable (k : Z) (x : A) (l : list A) :
  filter (fun y => key y =? k) (Js.insert cmp x l)
  = filter (fun y => key y =? k) (x :: l).
Proof using cmp_key.
  induction l as [|y l IH]; cbn [Js.insert]; [reflexivity|].
  rewrite cmp_key. destruct (Z.leb_spec (key y - key x) 0) as [Hle|Hgt]; [reflexivity|].
  cbn [filter] in *. rewrite IH.
  destruct (Z.eqb_spec (key x) k), (Z.eqb_spec (key y) k); try reflexivity. lia.
Qed.

Lemma sort_stable (k : Z) (l : list A) :
  filter (fun y => key y =? k) (Js.sort cmp l) = filter (fun y => key y =? k) l.
Proof using cmp_key.
  induction l as [|x l IH]; [reflexivity|]. cbn [Js.sort fold_right].
  fold (Js.sort cmp l). rewrite insert_stable. cbn [filter]. now rewrite IH.
Qed.

Lemma skipn_In (n : nat) (l : list A) (b : A) : In b (skipn n l) -> In b l.
Proof.
  intros Hin. rewrite <- (firstn_skipn n l). apply in_or_app. now right.
Qed.

Lemma sorted_firstn_skipn (n : nat) (l : list A) (a b : A) :
  StronglySorted (fun a b => key b <= key a) l ->
  In a (firstn n l) -> In b (skipn n l) -> key b <= key a.
Proof.
  intros Hsorted. revert n. induction Hsorted as [|y l Hsorted IH Hall]; intros n Ha Hb.
  - destruct n; destruct Ha.
  - destruct n as [|n]; [destruct Ha|]. cbn [firstn skipn] in Ha, Hb.
    destruct Ha as [<-|Ha]; [|now apply (IH n)].
    rewrite Forall_forall in Hall. apply Hall. eapply skipn_In; eassumption.
Qed.

End SortDescending.

(** ** The tallies of tags and themes *)

Lemma firstSeen_In (t : string) (labels : list string) :
  In t (firstSeen labels) <-> In t labels.
Proof.
  induction labels as [|x rest IH]; [reflexivity|]. cbn [firstSeen In].
  rewrite filter_In, IH, negb_true_iff.
  destruct (String.eqb_spec t x) as [->|Hne]; split; auto.
  - intros [Heq|[Hin _]]; [now left|now right].
  - intros [Heq|Hin]; [now left|right; now split].
Qed.

Lemma firstSeen_NoDup (labels : list string) : NoDup (firstSeen labels).
Proof.
  induction labels as [|x rest IH]; [constructor|]. cbn [firstSeen]. constructor.
  - rewrite filter_In, String.eqb_refl. intros [_ H]. discriminate.
  - now apply NoDup_filter.
Qed.

Lemma countInto_app (m : list (string * nat)) (a b : list string) :
  countInto m (a ++ b) = countInto (countInto m a) b.
Proof. unfold countInto. apply fold_left_app. Qed.

Lemma countInto_flat {A} (labelsOf : A -> list string) (rows : list A)
  (m : list (string * nat)) :
  fold_left (fun m e => countInto m (labelsOf e)) rows m
  = countInto m (flat_map labelsOf rows).
Proof.
  revert m. induction rows as [|e rows IH]; intros m; [reflexivity|].
  cbn [fold_left flat_map]. now rewrite IH, countInto_app.
Qed.

Lemma countInto_tally (labels : list string) :
  countInto [] labels = map (fun t => (t, occurrences labels t)) (firstSeen labels).
Proof.
  rewrite countInto_spec by constructor. cbn [map app hasKey existsb negb].
  f_equal. induction (firstSeen labels) as [|x l IH]; [reflexivity|].
  cbn [filter]. now rewrite IH.
Qed.

Lemma occurrences_pos (labels : list string) (t : string) :
  In t labels <-> (1 <= occurrences labels t)%nat.
Proof. unfold occurrences. apply count_occ_In. Qed.

Lemma tally_keys (labels : list string) :
  map fst (countInto [] labels) = firstSeen labels.
Proof.
  rewrite countInto_tally, map_map. cbn [fst]. apply map_id.
Qed.

Lemma tally_In (labels : list string) (p : string * nat) :
  In p (countInto [] labels)
  <-> In (fst p) labels /\ snd p = occurrences labels (fst p).
Proof.
  rewrite countInto_tally, in_map_iff. split.
  - intros (t & <- & Hin). cbn. split; [now apply firstSeen_In|reflexivity].
  - intros [Hin Hcount]. exists (fst p). split; [|now apply firstSeen_In].
    destruct p as [t n]. cbn in *. now subst n.
Qed.

(** ** The five most frequent labels of a tally *)

Lemma byCountDesc_key (a b : string * nat) : byCountDesc a b = byCount b - byCount a.
Proof. reflexivity. Qed.

Lemma firstn_incl {A} (n : nat) (l : list A) (x : A) : In x (firstn n l) -> In x l.
Proof.
  intros Hin. rewrite <- (firstn_skipn n l). apply in_or_app. now left.
Qed.

Lemma firstn_NoDup {A} (n : nat) (l : list A) : NoDup l -> NoDup (firstn n l).
Proof.
  intros Hnd. rewrite <- (firstn_skipn n l) in Hnd. now apply NoDup_app_remove_r in Hnd.
Qed.

Lemma firstn_sorted {A} (R : A -> A -> Prop) (n : nat) (l : list A) :
  StronglySorted R l -> StronglySorted R (firstn n l).
Proof.
  intros Hsorted. revert n. induction Hsorted as [|x l Hsorted IH Hall]; intros n.
  - rewrite firstn_nil. constructor.
  - destruct n as [|n]; [constructor|]. cbn [firstn]. constructor; [apply IH|].
    rewrite Forall_forall in *. intros y Hin. apply Hall. now apply firstn_incl in Hin.
Qed.

Lemma sorted_weaken {A} (R R' : A -> A -> Prop) (l : list A) :
  (forall a b, R a b -> R' a b) -> StronglySorted R l -> StronglySorted R' l.
Proof.
  intros Himp. induction 1 as [|x l Hsorted IH Hall]; constructor; [exact IH|].
  eapply Forall_impl; [|exact Hall]. intros b. apply Himp.
Qed.

Lemma sorted_map {A B} (f : A -> B) (R : B -> B -> Prop) (l : list A) :
  StronglySorted (fun a b => R (f a) (f b)) l -> StronglySorted R (map f l).
Proof.
  induction 1 as [|x l Hsorted IH Hall]; cbn [map]; constructor; [exact IH|].
  rewrite Forall_forall in *. intros y Hin. apply in_map_iff in Hin as (a & <- & Hin).
  now apply Hall.
Qed.

Lemma ranked_length (m : list (string * nat)) :
  List.length (ranked m) = Nat.min 5 (List.length m).
Proof.
  unfold ranked, Js.slice_to. rewrite length_firstn.
  now rewrite (Permutation_length (sort_perm byCountDesc m)).
Qed.

Lemma ranked_In (m : list (string * nat)) (p : string * nat) :
  In p (ranked m) -> In p m.
Proof.
  unfold ranked, Js.slice_to. intros Hin. apply firstn_incl in Hin.
  now apply sort_In in Hin.
Qed.

Lemma ranked_all (m : list (string * nat)) (p : string * nat) :
  (List.length m <= 5)%nat -> In p m -> In p (ranked m).
Proof.
  intros Hlen Hin. unfold ranked, Js.slice_to. rewrite firstn_all2.
  - now apply sort_In.
  - now rewrite (Permutation_length (sort_perm byCountDesc m)).
Qed.

Lemma ranked_NoDup (m : list (string * nat)) :
  NoDup (map fst m) -> NoDup (map fst (ranked m)).
Proof.
  intros Hnd. unfold ranked, Js.slice_to. rewrite <- firstn_map. apply firstn_NoDup.
  eapply Permutation_NoDup; [|exact Hnd].
  apply Permutation_map. symmetry. apply sort_perm.
Qed.

Lemma ranked_sorted (m : list (string * nat)) :
  StronglySorted (fun a b => (snd b <= snd a)%nat) (ranked m).
Proof.
  unfold ranked, Js.slice_to. apply firstn_sorted.
  apply sorted_weaken with (R := fun a b => byCount b <= byCount a).
  - unfold byCount. intros a b. lia.
  - apply (sort_sorted byCount byCountDesc byCountDesc_key).
Qed.

Lemma ranked_best (m : list (string * nat)) (p q : string * nat) :
  In p m -> ~ In p (ranked m) -> In q (ranked m) -> (snd p <= snd q)%nat.
Proof.
  unfold ranked, Js.slice_to. intros Hin Hout Hq.
  apply (sort_In byCountDesc) in Hin.
  rewrite <- (firstn_skipn 5 (Js.sort byCountDesc m)) in Hin.
  apply in_app_or in Hin as [Hin|Hin]; [contradiction|].
  pose proof (sorted_firstn_skipn byCount 5 _ q p
                (sort_sorted byCount byCountDesc byCountDesc_key m) Hq Hin) as Hle.
  unfold byCount in Hle. lia.
Qed.

Lemma filter_firstn_prefixOf {A} (p : A -> bool) (n : nat) (l : list A) :
  prefixOf (filter p (firstn n l)) (filter p l).
Proof.
  exists (filter p (skipn n l)). now rewrite <- filter_app, firstn_skipn.
Qed.

Lemma ranked_ties (m : list (string * nat)) (k : nat) :
  prefixOf (filter (fun p => (snd p =? k)%nat) (ranked m))
         (filter (fun p => (snd p =? k)%nat) m).
Proof.
  unfold ranked, Js.slice_to.
  assert (Hsame : forall l : list (string * nat),
             filter (fun p => (snd p =? k)%nat) l
             = filter (fun p => byCount p =? Z.of_nat k) l).
  { intros l. apply filter_ext. intros p. unfold byCount.
    destruct (Nat.eqb_spec (snd p) k), (Z.eqb_spec (Z.of_nat (snd p)) (Z.of_nat k));
      try reflexivity; lia. }
  rewrite (Hsame m), <- (sort_stable byCount byCountDesc byCountDesc_key), <- Hsame.
  apply filter_firstn_prefixOf.
Qed.

Lemma tagCounts_flat (entries : list Entry) :
  tagCounts entries = countInto [] (flat_map tags entries).
Proof. apply countInto_flat. Qed.

Lemma themeCounts_flat (entries : list Entry) :
  themeCounts entries = countInto [] (flat_map themes entries).
Proof. apply countInto_flat. Qed.

Lemma firstSeen_snoc (pre : list string) (t : string) :
  firstSeen (pre ++ [t])
  = if existsb (String.eqb t) pre then firstSeen pre else firstSeen pre ++ [t].
Proof.
  induction pre as [|x pre IH]; [reflexivity|].
  cbn [app firstSeen existsb]. rewrite IH.
  destruct (String.eqb_spec t x) as [->|Hne]; cbn [orb].
  - destruct (existsb (String.eqb x) pre); [reflexivity|].
    rewrite filter_app. cbn [filter]. rewrite String.eqb_refl. cbn [negb].
    now rewrite app_nil_r.
  - destruct (existsb (String.eqb t) pre); [reflexivity|].
    rewrite filter_app. cbn [filter].
    destruct (String.eqb_spec t x) as [|_]; [contradiction|reflexivity].
Qed.

(** X2: the tally of tags that the insights route builds holds one pair
    for each distinct tag of the entries, in the order in which the tags
    first occur in the sequence of entries, and the number stored with a tag
    is the number of its occurrences; the tally of themes is built in the
    same way from the themes.  The order of first occurrence lists every
    label once, and a label read after others is put last when it is new
    and changes nothing when it was seen. *)
Theorem tallies_count_occurrences (entries : list Entry) :
  let allTags := flat_map tags entries in
  let allThemes := flat_map themes entries in
  tagCounts entries = map (fun t => (t, occurrences allTags t)) (firstSeen allTags)
  /\ themeCounts entries
     = map (fun t => (t, occurrences allThemes t)) (firstSeen allThemes)
  /\ (forall labels,
        NoDup (firstSeen labels)
        /\ (forall t, In t (firstSeen labels) <-> In t labels)
        /\ (forall t, In t labels <-> (1 <= occurrences labels t)%nat))
  /\ (forall pre t,
        firstSeen (pre ++ [t])
        = if existsb (String.eqb t) pre then firstSeen pre else firstSeen pre ++ [t]).
Proof.
  intros allTags allThemes.
  split; [unfold allTags; now rewrite tagCounts_flat, countInto_tally|].
  split; [unfold allThemes; now rewrite themeCounts_flat, countInto_tally|].
  split; [|exact firstSeen_snoc].
  intros labels. split; [apply firstSeen_NoDup|].
  split; [intros t; apply firstSeen_In|intros t; apply occurrences_pos].
Qed.

(** The five most frequent labels of a sequence of labels, with what the
    statements about [topTags], [topThemes] and the recurring themes share. *)
Lemma ranked_tally (labels : list string) :
  let top := ranked (countInto [] labels) in
  List.length top = Nat.min 5 (List.length (firstSeen labels))
  /\ NoDup (map fst top)
  /\ (forall p, In p top -> In (fst p) labels /\ snd p = occurrences labels (fst p))
  /\ StronglySorted (fun a b => (snd b <= snd a)%nat) top
  /\ (forall t p, In t labels -> ~ In t (map fst top) -> In p top ->
                  (occurrences labels t <= snd p)%nat)
  /\ ((List.length (firstSeen labels) <= 5)%nat ->
      forall t, In t labels -> In t (map fst top))
  /\ (forall k, prefixOf (map fst (filter (fun p => (snd p =? k)%nat) top))
                       (filter (fun t => (occurrences labels t =? k)%nat)
                               (firstSeen labels))).
Proof.
  intros top. subst top.
  assert (Hlen : List.length (countInto [] labels) = List.length (firstSeen labels))
    by (now rewrite <- tally_keys, length_map).
  split; [now rewrite ranked_length, Hlen|].
  split; [apply ranked_NoDup; rewrite tally_keys; apply firstSeen_NoDup|].
  split; [intros p Hin; now apply tally_In, ranked_In|].
  split; [apply ranked_sorted|].
  split; [|split].
  - intros t p Hin Hout Hp.
    apply (ranked_best (countInto [] labels) (t, occurrences labels t) p).
    + now apply tally_In.
    + intros Htop. apply Hout. now apply (in_map fst) in Htop.
    + exact Hp.
  - intros Hfew t Hin.
    apply (in_map fst _ (t, occurrences labels t)). apply ranked_all; [lia|].
    now apply tally_In.
  - intros k. destruct (ranked_ties (countInto [] labels) k) as [rest Hrest].
    exists (map fst rest). rewrite <- map_app, <- Hrest, countInto_tally.
    clear. induction (firstSeen labels) as [|t l IH]; [reflexivity|].
    cbn [map filter snd]. destruct (occurrences labels t =? k)%nat; cbn [map fst]; now rewrite IH.
Qed.

(** X3: the top tags of the insights route.  At most five tags are
    returned, and all of them when the entries carry at most five distinct
    tags; no tag is returned twice; the count returned with a tag is the
    number of its occurrences in the entries, at least one; the counts never
    increase along the result; a tag that is left out occurs no more often
    than any tag returned; and the returned tags of equal count come in the
    order in which they first occur in the sequence of entries. *)
Theorem topTags_ranking (entries : list Entry) :
  let all := flat_map tags entries in
  let top := topTags entries in
  List.length top = Nat.min 5 (List.length (firstSeen all))
  /\ NoDup (map tag top)
  /\ (forall tc, In tc top ->
        count tc = occurrences all (tag tc) /\ (1 <= count tc)%nat)
  /\ StronglySorted (fun a b => (count b <= count a)%nat) top
  /\ (forall t tc, In t all -> ~ In t (map tag top) -> In tc top ->
                   (occurrences all t <= count tc)%nat)
  /\ ((List.length (firstSeen all) <= 5)%nat -> forall t, In t all -> In t (map tag top))
  /\ (forall k, prefixOf (map tag (filter (fun tc => (count tc =? k)%nat) top))
                       (filter (fun t => (occurrences all t =? k)%nat) (firstSeen all))).
Proof.
  intros all top.
  destruct (ranked_tally all) as (Hlen & Hnd & Hin & Hsorted & Hbest & Hfew & Hties).
  assert (Htop : top = map (fun p => mkTagCount (fst p) (snd p)) (ranked (countInto [] all)))
    by (unfold top, topTags, ranked, all; now rewrite tagCounts_flat).
  assert (Htags : map tag top = map fst (ranked (countInto [] all)))
    by (rewrite Htop, map_map; reflexivity).
  split; [now rewrite Htop, length_map|].
  split; [now rewrite Htags|].
  split; [|split; [|split; [|split]]].
  - intros tc Htc. rewrite Htop in Htc. apply in_map_iff in Htc as (p & <- & Hp).
    cbn [count tag]. destruct (Hin p Hp) as [Hlabel Hcount].
    split; [exact Hcount|]. rewrite Hcount. now apply occurrences_pos.
  - rewrite Htop. apply sorted_map. exact Hsorted.
  - intros t tc Ht Hout Htc. rewrite Htop in Htc. apply in_map_iff in Htc as (p & <- & Hp).
    cbn [count]. apply Hbest; [exact Ht| |exact Hp]. now rewrite <- Htags.
  - intros Hfew' t Ht. rewrite Htags. now apply Hfew.
  - intros k. rewrite Htop.
    replace (map tag (filter (fun tc => (count tc =? k)%nat)
                        (map (fun p => mkTagCount (fst p) (snd p))
                           (ranked (countInto [] all)))))
      with (map fst (filter (fun p => (snd p =? k)%nat) (ranked (countInto [] all))));
      [apply Hties|].
    clear. induction (ranked (countInto [] all)) as [|p l IH]; [reflexivity|].
    cbn [map filter count]. destruct (snd p =? k)%nat; cbn [map tag]; now rewrite IH.
Qed.

(** X4: the top themes of the insights route.  At most five themes are
    returned, and all of them when the entries carry at most five distinct
    themes; no theme is returned twice; every returned theme occurs in an
    entry; the numbers of occurrences never increase along the result; and a
    theme that is left out occurs no more often than any theme returned. *)
Theorem topThemes_ranking (entries : list Entry) :
  let all := flat_map themes entries in
  let top := topThemes entries in
  List.length top = Nat.min 5 (List.length (firstSeen all))
  /\ NoDup top
  /\ (forall t, In t top -> In t all)
  /\ StronglySorted (fun a b => (occurrences all b <= occurrences all a)%nat) top
  /\ (forall t t', In t all -> ~ In t top -> In t' top ->
                   (occurrences all t <= occurrences all t')%nat)
  /\ ((List.length (firstSeen all) <= 5)%nat -> forall t, In t all -> In t top).
Proof.
  intros all top.
  destruct (ranked_tally all) as (Hlen & Hnd & Hin & Hsorted & Hbest & Hfew & _).
  assert (Htop : top = map fst (ranked (countInto [] all)))
    by (unfold top, topThemes, ranked, all; now rewrite themeCounts_flat).
  split; [now rewrite Htop, length_map|].
  split; [now rewrite Htop|].
  split; [|split; [|split]].
  - intros t Ht. rewrite Htop in Ht. apply in_map_iff in Ht as (p & <- & Hp).
    now apply Hin.
  - rewrite Htop. apply sorted_map.
    assert (Hall : Forall (fun p => snd p = occurrences all (fst p))
                     (ranked (countInto [] all)))
      by (apply Forall_forall; intros p Hp; now apply Hin).
    clear - Hsorted Hall. induction Hsorted as [|p l Hsorted IH Hle]; [constructor|].
    inversion Hall as [|? ? Hp Hall']; subst. constructor; [now apply IH|].
    rewrite Forall_forall in *. intros q Hq. rewrite <- Hp, <- (Hall' q Hq). now apply Hle.
  - intros t t' Ht Hout Ht'. rewrite Htop in Ht'. apply in_map_iff in Ht' as (p & <- & Hp).
    destruct (Hin p Hp) as [_ <-]. apply Hbest; [exact Ht| |exact Hp]. now rewrite <- Htop.
  - intros Hfew' t Ht. rewrite Htop. now apply Hfew.
Qed.

(** ** The recurring themes of the context *)

Lemma tally_filter (labels : list string) (p : nat -> bool) :
  filter (fun q => p (snd q)) (countInto [] labels)
  = map (fun t => (t, occurrences labels t))
      (filter (fun t => p (occurrences labels t)) (firstSeen labels)).
Proof.
  rewrite countInto_tally. induction (firstSeen labels) as [|t l IH]; [reflexivity|].
  cbn [map filter snd]. destruct (p (occurrences labels t)); cbn [map]; now rewrite IH.
Qed.

Lemma recurringThemesOf_ranked (entries : list RecentEntry) :
  recurringThemesOf entries
  = map fst (ranked (filter (fun p => (2 <=? snd p)%nat)
                       (countInto [] (flat_map r_themes entries)))).
Proof.
  unfold recurringThemesOf, ranked, Js.slice_to.
  now rewrite countInto_flat, firstn_map.
Qed.

(** X5: the recurring themes of the context.  Every theme returned occurs
    at least twice in the themes of the recent entries; at most five are
    returned, and all that occur twice when these are at most five; no theme
    is returned twice; the numbers of occurrences never increase along the
    result; and a theme that occurs twice and is left out occurs no more
    often than any theme returned. *)
Theorem recurringThemes_ranking (entries : list RecentEntry) :
  let all := flat_map r_themes entries in
  let result := recurringThemesOf entries in
  let twice := filter (fun t => (2 <=? occurrences all t)%nat) (firstSeen all) in
  List.length result = Nat.min 5 (List.length twice)
  /\ NoDup result
  /\ (forall t, In t result -> (2 <= occurrences all t)%nat)
  /\ StronglySorted (fun a b => (occurrences all b <= occurrences all a)%nat) result
  /\ (forall t t', (2 <= occurrences all t)%nat -> ~ In t result -> In t' result ->
                   (occurrences all t <= occurrences all t')%nat)
  /\ ((List.length twice <= 5)%nat ->
      forall t, (2 <= occurrences all t)%nat -> In t result).
Proof.
  intros all result twice.
  assert (Hresult : result
                    = map fst (ranked (map (fun t => (t, occurrences all t)) twice))).
  { unfold result. rewrite recurringThemesOf_ranked. fold all.
    now rewrite (tally_filter all (fun n => (2 <=? n)%nat)). }
  set (m := map (fun t => (t, occurrences all t)) twice) in *.
  assert (Hkeys : map fst m = twice) by (unfold m; rewrite map_map; apply map_id).
  assert (Hm : forall p, In p m <-> (2 <= occurrences all (fst p))%nat
                                    /\ snd p = occurrences all (fst p)).
  { intros p. unfold m, twice. rewrite in_map_iff. split.
    - intros (t & <- & Hin). apply filter_In in Hin as [_ Hin]. cbn [fst snd].
      apply Nat.leb_le in Hin. now split.
    - intros [Htwice Hcount]. exists (fst p). split.
      + destruct p as [t n]. cbn in *. now subst n.
      + apply filter_In. split; [|now apply Nat.leb_le].
        apply firstSeen_In, occurrences_pos. lia. }
  split; [now rewrite Hresult, length_map, ranked_length, <- Hkeys, length_map|].
  split; [rewrite Hresult; apply ranked_NoDup; rewrite Hkeys; now apply NoDup_filter, firstSeen_NoDup|].
  split; [|split; [|split]].
  - intros t Ht. rewrite Hresult in Ht. apply in_map_iff in Ht as (p & <- & Hp).
    now apply Hm, ranked_In.
  - rewrite Hresult. apply sorted_map.
    assert (Hall : Forall (fun p => snd p = occurrences all (fst p)) (ranked m))
      by (apply Forall_forall; intros p Hp; now apply Hm, ranked_In).
    pose proof (ranked_sorted m) as Hsorted.
    clear - Hsorted Hall. induction Hsorted as [|p l Hsorted IH Hle]; [constructor|].
    inversion Hall as [|? ? Hp Hall']; subst. constructor; [now apply IH|].
    rewrite Forall_forall in *. intros q Hq. rewrite <- Hp, <- (Hall' q Hq). now apply Hle.
  - intros t t' Ht Hout Ht'. rewrite Hresult in Ht'.
    apply in_map_iff in Ht' as (p & <- & Hp).
    destruct (proj1 (Hm p) (ranked_In m p Hp)) as [_ <-].
    apply (ranked_best m (t, occurrences all t) p).
    + now apply Hm.
    + intros Htop. apply Hout. rewrite Hresult. now apply (in_map fst) in Htop.
    + exact Hp.
  - intros Hfew t Ht. rewrite Hresult.
    apply (in_map fst _ (t, occurrences all t)). apply ranked_all.
    + now rewrite <- Hkeys, length_map in Hfew.
    + now apply Hm.
Qed.

(** ** The start of the week *)

Lemma getWeekStart_day (date : Z) :
  getWeekStart date
  = Date_of_day (DATE date - (if getDay date =? 0 then 6 else getDay date - 1)).
Proof.
  unfold getWeekStart, setHours0, Date_of_day, DATE. f_equal.
  pose proof DAY_MS_pos as Hpos.
  replace (date + DAY_MS * (- getDay date + (if getDay date =? 0 then -6 else 1)))
    with (date + (- getDay date + (if getDay date =? 0 then -6 else 1)) * DAY_MS) by ring.
  rewrite Z.div_add by lia.
  destruct (Z.eqb_spec (getDay date) 0); lia.
Qed.

Lemma DATE_Date_of_day (d : Z) : DATE (Date_of_day d) = d.
Proof.
  unfold DATE, Date_of_day. rewrite Z.mul_comm, Z.div_mul; [reflexivity|].
  pose proof DAY_MS_pos. lia.
Qed.

Lemma DATE_bounds (t d : Z) :
  DATE t = d <-> Date_of_day d <= t < Date_of_day d + DAY_MS.
Proof.
  unfold DATE, Date_of_day. pose proof DAY_MS_pos as Hpos. split.
  - intros <-. pose proof (Z.mul_div_le t DAY_MS Hpos).
    pose proof (Z.mul_succ_div_gt t DAY_MS Hpos). lia.
  - intros [Hlo Hhi]. symmetry. apply Z.div_unique with (r := t - DAY_MS * d); lia.
Qed.

(** X9: the start of the week of a date is the midnight that begins a
    Monday, it is not after the date and less than seven days before it, and
    every instant of these seven days has the same start of week. *)
Theorem getWeekStart_monday (date : Z) :
  let weekStart := getWeekStart date in
  getDay weekStart = 1
  /\ setHours0 weekStart = weekStart
  /\ weekStart <= date < weekStart + 7 * DAY_MS
  /\ (forall t, weekStart <= t < weekStart + 7 * DAY_MS -> getWeekStart t = weekStart).
Proof.
  intros weekStart. subst weekStart. rewrite getWeekStart_day.
  set (day := getDay date).
  assert (Hday : day = (DATE date + 4) mod 7) by reflexivity.
  assert (Hrange : 0 <= day < 7) by (rewrite Hday; apply Z.mod_pos_bound; lia).
  set (back := if day =? 0 then 6 else day - 1).
  assert (Hback : 0 <= back <= 6 /\ (DATE date - back + 4) mod 7 = 1).
  { unfold back. destruct (Z.eqb_spec day 0) as [H0|H0].
    - split; [lia|]. rewrite Hday in H0.
      pose proof (Z.div_mod (DATE date + 4) 7 ltac:(lia)) as Hdm. rewrite H0 in Hdm.
      replace (DATE date - 6 + 4) with (1 + ((DATE date + 4) / 7 - 1) * 7) by lia.
      now rewrite Z.mod_add by lia.
    - split; [lia|].
      pose proof (Z.div_mod (DATE date + 4) 7 ltac:(lia)) as Hdm. rewrite <- Hday in Hdm.
      replace (DATE date - (day - 1) + 4) with (1 + ((DATE date + 4) / 7) * 7) by lia.
      now rewrite Z.mod_add by lia. }
  destruct Hback as [Hback Hmonday].
  pose proof DAY_MS_pos as Hpos.
  pose proof (proj1 (DATE_bounds date (DATE date)) eq_refl) as Hdate.
  split; [unfold getDay; fold (DATE (Date_of_day (DATE date - back)));
          now rewrite DATE_Date_of_day|].
  split; [apply setHours0_day|].
  split; [unfold Date_of_day in *; nia|].
  intros t Ht. rewrite getWeekStart_day. f_equal.
  assert (Hin : DATE date - back <= DATE t < DATE date - back + 7).
  { unfold Date_of_day in Ht.
    pose proof (proj1 (DATE_bounds t (DATE t)) eq_refl) as Htb. unfold Date_of_day in Htb.
    nia. }
  unfold getDay. fold (DATE t).
  set (m := DATE date - back) in *. set (k := DATE t - m).
  assert (Hk : 0 <= k < 7) by (unfold k; lia).
  replace (DATE t) with (m + k) by (unfold k; lia).
  assert (Hmod : (m + k + 4) mod 7 = (1 + k) mod 7).
  { pose proof (Z.div_mod (m + 4) 7 ltac:(lia)) as Hdm. rewrite Hmonday in Hdm.
    replace (m + k + 4) with (1 + k + ((m + 4) / 7) * 7) by lia.
    now rewrite Z.mod_add by lia. }
  rewrite Hmod.
  destruct (Z.eq_dec k 6) as [->|Hk6].
  - cbn. lia.
  - rewrite Z.mod_small by lia. destruct (Z.eqb_spec (1 + k) 0); lia.
Qed.

(** ** The rows that the context and the insights read *)

Lemma inWindow_visible (userId : string) (since : Z) (d : Db) :
  filter (inWindow userId since) (entries_tbl d)
  = filter (fun e => since <=? created_at e) (visible userId d).
Proof.
  unfold visible. rewrite <- filter_and. apply filter_ext. intros e. unfold inWindow.
  destruct (user_id e =? userId)%string, (since <=? created_at e), (live e); reflexivity.
Qed.

Lemma select_since_visible (userId : string) (since : Z) (d : Db) :
  select_since userId since d
  = Js.sort newestFirst (filter (fun e => since <=? created_at e) (visible userId d)).
Proof. unfold select_since. now rewrite inWindow_visible. Qed.

Lemma select_since_asc_visible (userId : string) (since : Z) (d : Db) :
  select_since_asc userId since d
  = Js.sort oldestFirst (filter (fun e => since <=? created_at e) (visible userId d)).
Proof. unfold select_since_asc. now rewrite inWindow_visible. Qed.

Lemma select_entry_dates_visible (userId : string) (d : Db) :
  select_entry_dates userId d
  = Js.sort newestDay (nodup Z.eq_dec (map (fun e => DATE (created_at e)) (visible userId d))).
Proof. reflexivity. Qed.

Lemma newestFirst_key (a b : Entry) : newestFirst a b = created_at b - created_at a.
Proof. reflexivity. Qed.

Lemma inWindow_spec (userId : string) (since : Z) (e : Entry) :
  inWindow userId since e = true
  <-> user_id e = userId /\ since <= created_at e /\ deleted_at e = None.
Proof.
  unfold inWindow, live. rewrite !andb_true_iff, String.eqb_eq, Z.leb_le.
  destruct (deleted_at e); split; intros H; try tauto.
  - destruct H as [_ H]. discriminate.
  - destruct H as (_ & _ & H). discriminate.
Qed.

(** X14: assembling the context changes nothing in the store and sends no
    completion request, and the recent entries of the context it returns are
    at most ten entries of the store, each written by the user within the
    last seven days and not soft-deleted, from the newest to the oldest; an
    entry of the window that is left out is not newer than any entry taken;
    the window is taken whole when it holds at most ten entries. *)
Theorem recent_entries_window (db_fault : nat -> option string)
  (userId : string) (now : Z) (w : World) :
  let since := now - 7 * DAY_MS in
  let window := filter (inWindow userId since) (entries_tbl (db w)) in
  let rows := select_recent userId since (db w) in
  wp (assembleContext db_fault userId now)
     (fun r w' =>
        db w' = db w /\ apiLog w' = apiLog w
        /\ forall context, r = Ok context -> recentEntries context = map toRecent rows)
     w
  /\ List.length rows = Nat.min 10 (List.length window)
  /\ (forall e, In e rows ->
        In e (entries_tbl (db w)) /\ user_id e = userId /\ since <= created_at e
        /\ deleted_at e = None)
  /\ StronglySorted (fun a b => created_at b <= created_at a) rows
  /\ (forall e e', In e window -> ~ In e rows -> In e' rows ->
                   created_at e <= created_at e')
  /\ ((List.length window <= 10)%nat -> Permutation rows window).
Proof.
  intros since window rows.
  assert (Hsorted : StronglySorted (fun a b => created_at b <= created_at a)
                      (Js.sort newestFirst window))
    by apply (sort_sorted created_at newestFirst newestFirst_key).
  assert (Hrows : rows = firstn 10 (Js.sort newestFirst window)) by reflexivity.
  assert (Hlen : List.length (Js.sort newestFirst window) = List.length window)
    by apply (Permutation_length (sort_perm newestFirst window)).
  clearbody rows. subst rows.
  split.
  { eapply wp_mono; [|apply assembleContext_contextOf].
    intros r w' (Hdb & Hlog & Hcontext). split; [exact Hdb|]. split; [exact Hlog|].
    intros context Hr. now rewrite (Hcontext context Hr). }
  split; [now rewrite length_firstn, Hlen|].
  split.
  { intros e He. apply firstn_incl, sort_In, filter_In in He as [Hin Hwin].
    apply inWindow_spec in Hwin. tauto. }
  split; [now apply firstn_sorted|].
  split.
  - intros e e' He Hout He'. apply (sort_In newestFirst) in He.
    rewrite <- (firstn_skipn 10 (Js.sort newestFirst window)) in He.
    apply in_app_or in He as [He|He]; [contradiction|].
    exact (sorted_firstn_skipn created_at 10 _ e' e Hsorted He' He).
  - intros Hfew. rewrite firstn_all2; [apply sort_perm|]. now rewrite Hlen.
Qed.

(** ** The long-term summary of the context *)

Lemma or_else_empty (s : string) : Js.or_else (Some s) EmptyString = s.
Proof. now destruct s. Qed.

Lemma latest_monthly (userId : string) (now : Z) (d : Db) :
  let text := longTermSummary (contextOf userId now d) in
  (ownMonthly userId d = [] -> text = EmptyString)
  /\ (ownMonthly userId d <> [] ->
      exists s, In s (summaries_tbl d)
                /\ Summary.user_id s = userId
                /\ Summary.period_type s = "monthly"
                /\ (forall s', In s' (ownMonthly userId d) ->
                               Summary.period_start s' <= Summary.period_start s)
                /\ text = Summary.summary s).
Proof.
  intros text. unfold text, contextOf. cbn [longTermSummary].
  unfold select_latest_monthly. fold (ownMonthly userId d).
  set (cmp := fun a b => Summary.period_start b - Summary.period_start a).
  assert (Hkey : forall a b, cmp a b = Summary.period_start b - Summary.period_start a)
    by reflexivity.
  pose proof (sort_sorted Summary.period_start cmp Hkey (ownMonthly userId d)) as Hsorted.
  pose proof (sort_perm cmp (ownMonthly userId d)) as Hperm.
  split.
  - intros Hnone. rewrite Hnone. reflexivity.
  - intros Hsome. destruct (Js.sort cmp (ownMonthly userId d)) as [|s rest] eqn:Hsort.
    + apply Permutation_nil in Hperm. contradiction.
    + exists s. cbn [firstn map hd_error]. rewrite or_else_empty.
      assert (Hin : In s (ownMonthly userId d))
        by (apply (Permutation_in _ Hperm); now left).
      unfold ownMonthly in Hin. apply filter_In in Hin as [Hin Hown].
      apply andb_prop in Hown as [Huser Htype].
      apply String.eqb_eq in Huser, Htype.
      split; [exact Hin|]. split; [exact Huser|]. split; [exact Htype|].
      split; [|reflexivity].
      intros s' Hs'. apply (Permutation_in _ (Permutation_sym Hperm)) in Hs'.
      inversion Hsorted as [|? ? _ Hall]; subst.
      destruct Hs' as [<-|Hs']; [lia|]. rewrite Forall_forall in Hall. now apply Hall.
Qed.

(** ** What the routes of a user read *)

Lemma select_summary_own (userId : string) (periodStart : Z) (periodType : string) (d : Db) :
  select_summary userId periodStart periodType d
  = map Summary.summary
      (filter (fun s => (Summary.period_start s =? periodStart)
                        && (Summary.period_type s =? periodType)%string)
              (ownSummaries userId d)).
Proof.
  unfold select_summary, ownSummaries. f_equal. rewrite <- filter_and.
  apply filter_ext. intros s. unfold sameKey.
  destruct (Summary.user_id s =? userId)%string, (Summary.period_start s =? periodStart),
    (Summary.period_type s =? periodType)%string; reflexivity.
Qed.

Lemma ownMonthly_own (userId : string) (d : Db) :
  ownMonthly userId d
  = filter (fun s => (Summary.period_type s =? "monthly")%string) (ownSummaries userId d).
Proof.
  unfold ownMonthly, ownSummaries. rewrite <- filter_and. apply filter_ext. intros s.
  apply andb_comm.
Qed.

Lemma contextOf_own (userId : string) (now : Z) (d d' : Db) :
  visible userId d = visible userId d' ->
  ownSummaries userId d = ownSummaries userId d' ->
  contextOf userId now d = contextOf userId now d'.
Proof.
  intros Hvis Hsum. unfold contextOf, select_recent, select_latest_monthly.
  fold (ownMonthly userId d). fold (ownMonthly userId d').
  now rewrite !select_since_visible, !ownMonthly_own, Hvis, Hsum.
Qed.

Lemma routes_agree
  (SUMMARY_GUIDELINES PATTERNS_INSTRUCTIONS : string)
  (anthropic_create : nat -> ApiRequest -> ApiResult)
  (db_fault : nat -> option string)
  (JSON_parse : string -> option Patterns)
  (userId period : string) (now : Z) (w w' : World) :
  dbCalls w = dbCalls w' ->
  List.length (apiLog w) = List.length (apiLog w') ->
  visible userId (db w) = visible userId (db w') ->
  ownSummaries userId (db w) = ownSummaries userId (db w') ->
  fst (insightsGet db_fault userId period now w)
  = fst (insightsGet db_fault userId period now w')
  /\ fst (patternsGet PATTERNS_INSTRUCTIONS anthropic_create db_fault JSON_parse userId now w)
     = fst (patternsGet PATTERNS_INSTRUCTIONS anthropic_create db_fault JSON_parse userId now w')
  /\ fst (summaryGet SUMMARY_GUIDELINES anthropic_create db_fault userId period now w)
     = fst (summaryGet SUMMARY_GUIDELINES anthropic_create db_fault userId period now w')
  /\ fst (assembleContext db_fault userId now w) = fst (assembleContext db_fault userId now w').
Proof.
  intros Hcalls Hlog Hvis Hsum.
  split; [|split; [|split]].
  - unfold insightsGet, calculateStreak, bind, query, reading, ret.
    rewrite Hcalls. destruct (db_fault (dbCalls w')); [reflexivity|].
    cbn [db apiLog dbCalls]. destruct (db_fault (S (dbCalls w'))); [reflexivity|].
    cbn [db apiLog dbCalls]. rewrite !select_since_visible, !select_entry_dates_visible, Hvis.
    destruct (Js.sort newestDay _); reflexivity.
  - unfold patternsGet, detectPatterns, bind, query, reading, ret, messages_create.
    rewrite Hcalls. destruct (db_fault (dbCalls w')); [reflexivity|].
    cbn [db apiLog dbCalls]. rewrite !select_since_visible, Hvis.
    destruct (List.length _ <? 3)%nat; [reflexivity|]. cbn [db apiLog dbCalls].
    rewrite Hlog. destruct (anthropic_create _ _); [|reflexivity].
    destruct (JSON_parse _); reflexivity.
  - unfold summaryGet, generateWeeklySummary, bind, query, reading, writing, ret,
      messages_create.
    rewrite Hcalls. destruct (db_fault (dbCalls w')); [reflexivity|].
    cbn [db apiLog dbCalls]. rewrite !select_summary_own, Hsum.
    destruct (map Summary.summary _) as [|stored rest]; [|reflexivity].
    cbn [db apiLog dbCalls]. destruct (db_fault (S (dbCalls w'))); [reflexivity|].
    cbn [db apiLog dbCalls]. rewrite !select_since_asc_visible, Hvis.
    destruct (Js.sort oldestFirst _) as [|e rows]; [reflexivity|].
    cbn [db apiLog dbCalls]. rewrite Hlog. destruct (anthropic_create _ _); [|reflexivity].
    cbn [db apiLog dbCalls]. destruct (db_fault (S (S (dbCalls w')))); reflexivity.
  - unfold assembleContext, bind, query, reading, ret.
    rewrite Hcalls. destruct (db_fault (dbCalls w')); [reflexivity|].
    cbn [db apiLog dbCalls]. destruct (db_fault (S (dbCalls w'))); [reflexivity|].
    cbn [db apiLog dbCalls fst]. unfold select_recent, select_latest_monthly.
    fold (ownMonthly userId (db w)). fold (ownMonthly userId (db w')).
    now rewrite !select_since_visible, !ownMonthly_own, Hvis, Hsum.
Qed.

(** X6: what the insights, patterns and summary routes and the context
    assembly answer to a user is determined by the entries that the user can
    see (the user's own entries that are not soft-deleted) and by the user's
    own summaries: two stores that agree on these give the same answers,
    whatever entries and summaries of other users, soft-deleted entries,
    conversations and messages they hold. *)
Theorem routes_read_own_rows
  (SUMMARY_GUIDELINES PATTERNS_INSTRUCTIONS : string)
  (anthropic_create : nat -> ApiRequest -> ApiResult)
  (db_fault : nat -> option string)
  (JSON_parse : string -> option Patterns)
  (userId period : string) (now : Z) (w w' : World) :
  dbCalls w = dbCalls w' ->
  List.length (apiLog w) = List.length (apiLog w') ->
  visible userId (db w) = visible userId (db w') ->
  ownSummaries userId (db w) = ownSummaries userId (db w') ->
  fst (insightsGet db_fault userId period now w)
  = fst (insightsGet db_fault userId period now w')
  /\ fst (patternsGet PATTERNS_INSTRUCTIONS anthropic_create db_fault JSON_parse userId now w)
     = fst (patternsGet PATTERNS_INSTRUCTIONS anthropic_create db_fault JSON_parse userId now w')
  /\ fst (summaryGet SUMMARY_GUIDELINES anthropic_create db_fault userId period now w)
     = fst (summaryGet SUMMARY_GUIDELINES anthropic_create db_fault userId period now w')
  /\ fst (assembleContext db_fault userId now w) = fst (assembleContext db_fault userId now w').
Proof. apply routes_agree. Qed.

Lemma visible_erased (userId entryId : string) (d : Db) :
  visible userId (erased entryId d)
  = filter (fun e => negb (id e =? entryId)%string) (visible userId d).
Proof.
  unfold visible, erased. cbn [entries_tbl].
  induction (entries_tbl d) as [|e es IH]; [reflexivity|]. cbn [filter].
  destruct (id e =? entryId)%string eqn:Hid, ((user_id e =? userId)%string && live e) eqn:Hown;
    cbn [negb filter]; rewrite ?Hid, ?Hown; cbn [negb]; now rewrite IH.
Qed.

(** X25: a soft-deleted entry and the aggregations.  Once the route that
    deletes an entry has answered, the insights, patterns and summary routes
    and the context assembly answer to the user what they would answer if
    the entries with this identifier had been removed from the store. *)
Theorem soft_delete_is_invisible
  (SUMMARY_GUIDELINES PATTERNS_INSTRUCTIONS : string)
  (anthropic_create : nat -> ApiRequest -> ApiResult)
  (db_fault : nat -> option string)
  (JSON_parse : string -> option Patterns)
  (userId entryId period : string) (now later : Z) (w : World) (reply : DeleteReply) :
  fst (entryDelete db_fault userId entryId now w) = Ok reply ->
  let w' := snd (entryDelete db_fault userId entryId now w) in
  let gone := mkWorld (erased entryId (db w)) (apiLog w') (dbCalls w') in
  fst (insightsGet db_fault userId period later w')
  = fst (insightsGet db_fault userId period later gone)
  /\ fst (patternsGet PATTERNS_INSTRUCTIONS anthropic_create db_fault JSON_parse userId later w')
     = fst (patternsGet PATTERNS_INSTRUCTIONS anthropic_create db_fault JSON_parse userId later
              gone)
  /\ fst (summaryGet SUMMARY_GUIDELINES anthropic_create db_fault userId period later w')
     = fst (summaryGet SUMMARY_GUIDELINES anthropic_create db_fault userId period later gone)
  /\ fst (assembleContext db_fault userId later w')
     = fst (assembleContext db_fault userId later gone).
Proof.
  intros Hreply w' gone. subst gone.
  assert (Hdb : db w' = soft_delete entryId userId now (db w)).
  { subst w'. revert Hreply. unfold entryDelete, bind, query, ret.
    destruct (db_fault (dbCalls w)); [discriminate|]. cbn [fst snd].
    now destruct (List.length (select_entry entryId userId (db w)) =? 0)%nat. }
  apply routes_agree; cbn [db apiLog dbCalls]; try reflexivity.
  - now rewrite Hdb, visible_soft_delete_own, visible_erased.
  - now rewrite Hdb.
Qed.


(** X15: the long-term summary of the context that is assembled for a
    user is empty when the store holds no monthly summary of the user, and it
    is otherwise the text of a monthly summary of the user whose period
    starts latest; summaries of another period type or of another user are
    never taken. *)
Theorem long_term_summary_is_latest_monthly (db_fault : nat -> option string)
  (userId : string) (now : Z) (w : World) :
  wp (assembleContext db_fault userId now)
     (fun r _ =>
        forall context,
          r = Ok context ->
          (ownMonthly userId (db w) = [] -> longTermSummary context = EmptyString)
          /\ (ownMonthly userId (db w) <> [] ->
              exists s, In s (summaries_tbl (db w))
                        /\ Summary.user_id s = userId
                        /\ Summary.period_type s = "monthly"
                        /\ (forall s', In s' (ownMonthly userId (db w)) ->
                                       Summary.period_start s' <= Summary.period_start s)
                        /\ longTermSummary context = Summary.summary s))
     w.
Proof.
  eapply wp_mono; [|apply assembleContext_contextOf].
  intros r w' (_ & _ & Hcontext) context Hr. rewrite (Hcontext context Hr).
  apply latest_monthly.
Qed.

(** ** The context of a reflection *)

Lemma substring_0_length (n : nat) (s : string) :
  (String.length (substring 0 n s) <= n)%nat.
Proof.
  revert s. induction n as [|n IH]; intros s.
  - destruct s; cbn; lia.
  - destruct s as [|c s]; cbn; [lia|]. specialize (IH s). lia.
Qed.

Lemma substring_0_prefix (n : nat) (s : string) : String.prefix (substring 0 n s) s = true.
Proof.
  revert s. induction n as [|n IH]; intros s.
  - destruct s; reflexivity.
  - destruct s as [|c s]; cbn; [reflexivity|].
    destruct (ascii_dec c c) as [_|Hne]; [apply IH|contradiction].
Qed.

Lemma substring_0_all (n : nat) (s : string) :
  (String.length s <= n)%nat -> substring 0 n s = s.
Proof.
  revert s. induction n as [|n IH]; intros s Hlen.
  - destruct s; [reflexivity|cbn in Hlen; lia].
  - destruct s as [|c s]; cbn; [reflexivity|]. rewrite IH; [reflexivity|]. cbn in Hlen. lia.
Qed.

(** X17: the reflection on an entry.  Its recent context is made of at
    most five entries of the store, the newest first, each written by the
    user, not soft-deleted and other than the entry reflected on; of every
    such entry it quotes the first 200 characters at most.  Generating the
    reflection never changes the store; when it answers, it has sent one
    completion request of at most 300 tokens whose prompt is built from the
    entry, the style and this context, and the answer is the text of the
    completion, or the empty text when it has none; a failure of the store or
    of the completion is surfaced. *)
Theorem reflection_reads_own_other_entries
  (anthropic_create : nat -> ApiRequest -> ApiResult)
  (db_fault : nat -> option string)
  (userId : string) (entry : Entry) (style : ReflectionStyle) (w : World) :
  let rows := select_reflection_context userId (id entry) (db w) in
  (List.length rows <= 5)%nat
  /\ (forall e, In e rows ->
        In e (entries_tbl (db w)) /\ user_id e = userId /\ id e <> id entry
        /\ deleted_at e = None)
  /\ StronglySorted (fun a b => created_at b <= created_at a) rows
  /\ (forall e,
        exists quoted,
          renderReflectionContext e
          = isoDate (created_at e) +++ " (" +++ Js.or_else (mood e) "no mood" +++ "): "
            +++ quoted +++ "..."
          /\ (String.length quoted <= 200)%nat
          /\ String.prefix quoted (content e) = true
          /\ ((String.length (content e) <= 200)%nat -> quoted = content e))
  /\ wp (generateReflection anthropic_create db_fault userId entry style)
       (fun r w' =>
          db w' = db w
          /\ forall text,
               r = Ok text ->
               let req := mkRequest MODEL 300 REFLECTION_SYSTEM
                            [(user, reflectionPrompt entry style rows)] in
               apiLog w' = apiLog w ++ [req]
               /\ exists blocks,
                    anthropic_create (List.length (apiLog w)) req = ApiOk blocks
                    /\ text = Js.or_else (findText blocks) EmptyString)
       w
  /\ surfaces anthropic_create db_fault
       (generateReflection anthropic_create db_fault userId entry style).
Proof.
  intros rows.
  split; [apply firstn_le_length|].
  split.
  { intros e He. apply firstn_incl, sort_In, filter_In in He as [Hin Hown].
    apply andb_prop in Hown as [Hown Hlive]. apply andb_prop in Hown as [Huser Hother].
    apply String.eqb_eq in Huser. apply negb_true_iff, String.eqb_neq in Hother.
    unfold live in Hlive. destruct (deleted_at e); [discriminate|]. auto. }
  split; [apply firstn_sorted, (sort_sorted created_at newestFirst newestFirst_key)|].
  split.
  { intros e. exists (substring 0 200 (content e)).
    split; [reflexivity|]. split; [apply substring_0_length|].
    split; [apply substring_0_prefix|apply substring_0_all]. }
  split; [apply generateReflection_run|apply surfaces_generateReflection].
Qed.

(** ** The list of entries *)

Lemma firstn_plus {A} (a b : nat) (l : list A) :
  firstn a l ++ firstn b (skipn a l) = firstn (a + b) l.
Proof.
  revert l. induction a as [|a IH]; intros l; [reflexivity|].
  destruct l as [|x l]; cbn [firstn skipn Nat.add app]; [now rewrite firstn_nil|].
  now rewrite IH.
Qed.

Lemma skipn_sorted {A} (R : A -> A -> Prop) (n : nat) (l : list A) :
  StronglySorted R l -> StronglySorted R (skipn n l).
Proof.
  intros Hsorted. revert n. induction Hsorted as [|x l Hsorted IH Hall]; intros n.
  - rewrite skipn_nil. constructor.
  - destruct n as [|n]; [now constructor|]. apply IH.
Qed.

(** X16: the list of entries.  The route changes nothing and returns,
    with their number, at most [limit] entries (20 when the parameter is
    absent, none when it is present and empty, which makes the limit 0),
    the newest first; each is an entry of the user
    that is not soft-deleted and meets every filter given: its mood is the
    mood asked for, it carries the tag asked for, it was written neither
    before the start date nor after the end date.  When offset and limit
    leave nothing out, every such entry is returned, and two consecutive
    pages together are the page of their joint length. *)
Theorem entries_list_filters (db_fault : nat -> option string)
  (userId : string) (q : ListQuery) (w : World) :
  let d := db w in
  let rows := select_entries userId q d in
  wp (entriesList db_fault userId q)
     (fun r w' =>
        db w' = db w /\ apiLog w' = apiLog w
        /\ forall returned n, r = Ok (returned, n) ->
                              returned = rows /\ n = List.length rows)
     w
  /\ (List.length rows <= limitOf q)%nat
  /\ (q_limit q = None -> limitOf q = 20%nat)
  /\ (q_limit q = Some 0%nat -> rows = [])
  /\ StronglySorted (fun a b => created_at b <= created_at a) rows
  /\ (forall e, In e rows ->
        In e (entries_tbl d) /\ user_id e = userId /\ deleted_at e = None
        /\ (Js.truthy (q_mood q) = true -> mood e = q_mood q)
        /\ (Js.truthy (q_tag q) = true -> exists t, q_tag q = Some t /\ In t (tags e))
        /\ (forall startDate, q_startDate q = Some startDate -> startDate <= created_at e)
        /\ (forall endDate, q_endDate q = Some endDate -> created_at e <= endDate))
  /\ (offsetOf q = 0%nat -> (List.length (entries_tbl d) <= limitOf q)%nat ->
      forall e, In e (entries_tbl d) ->
                forallb (fun c => c e) (listConditions userId q) = true -> In e rows)
  /\ (forall offset a b,
        select_entries userId (pageOf q offset a) d
        ++ select_entries userId (pageOf q (offset + a) b) d
        = select_entries userId (pageOf q offset (a + b)) d).
Proof.
  intros d rows.
  split.
  { eapply wp_mono; [|apply entriesList_run].
    intros r w' (Hdb & Hlog & Hrows). split; [exact Hdb|]. split; [exact Hlog|].
    intros returned n Hr. destruct (Hrows returned n Hr) as [-> ->]. now split. }
  unfold rows, select_entries.
  set (matching := filter (fun e => forallb (fun c => c e) (listConditions userId q))
                     (entries_tbl d)).
  split; [apply firstn_le_length|].
  split; [unfold limitOf; now intros ->|].
  split; [unfold limitOf; now intros ->|].
  split; [apply firstn_sorted, skipn_sorted,
            (sort_sorted created_at newestFirst newestFirst_key)|].
  split; [|split].
  - intros e He. apply firstn_incl, skipn_In, sort_In, filter_In in He as [Hin Hall].
    split; [exact Hin|]. unfold listConditions in Hall.
    rewrite !forallb_app in Hall. cbn [forallb] in Hall.
    apply andb_prop in Hall as [Hown Hall]. apply andb_prop in Hall as [Hmood Hall].
    apply andb_prop in Hall as [Htag Hall]. apply andb_prop in Hall as [Hstart Hend].
    rewrite andb_true_r in Hown. apply andb_prop in Hown as [Huser Hlive].
    apply String.eqb_eq in Huser. unfold live in Hlive.
    split; [exact Huser|]. split; [destruct (deleted_at e); [discriminate|reflexivity]|].
    split; [|split; [|split]].
    + intros Htruthy. rewrite Htruthy in Hmood. cbn [forallb] in Hmood.
      rewrite andb_true_r in Hmood.
      destruct (q_mood q) as [[|c m]|]; try discriminate. cbn [Js.or_else] in Hmood.
      destruct (mood e) as [m'|]; [|discriminate]. apply String.eqb_eq in Hmood.
      now subst m'.
    + intros Htruthy. rewrite Htruthy in Htag. cbn [forallb] in Htag.
      rewrite andb_true_r in Htag.
      destruct (q_tag q) as [[|c t]|]; try discriminate. cbn [Js.or_else] in Htag.
      exists (String c t). split; [reflexivity|].
      apply existsb_exists in Htag as (t' & Hin' & Heq). apply String.eqb_eq in Heq.
      now subst t'.
    + intros startDate Hq. rewrite Hq in Hstart. cbn [forallb] in Hstart.
      rewrite andb_true_r in Hstart. now apply Z.leb_le.
    + intros endDate Hq. rewrite Hq in Hend. cbn [forallb] in Hend.
      rewrite andb_true_r in Hend. now apply Z.leb_le.
  - intros Hoffset Hlimit e Hin Hall. rewrite Hoffset. cbn [skipn].
    rewrite firstn_all2.
    + apply sort_In, filter_In. now split.
    + rewrite (Permutation_length (sort_perm newestFirst matching)).
      pose proof (filter_length_le (fun e => forallb (fun c => c e) (listConditions userId q))
                    (entries_tbl d)). unfold matching. lia.
  - intros offset a b. unfold pageOf, limitOf, offsetOf, listConditions.
    cbn [q_limit q_offset q_mood q_tag q_startDate q_endDate].
    rewrite (Nat.add_comm offset a), <- skipn_skipn. apply firstn_plus.
Qed.

(** ** The numbers of the insights route *)

Lemma fold_left_sum {A} (f : A -> Z) (l : list A) (a : Z) :
  fold_left (fun sum e => sum + f e) l a = a + fold_right Z.add 0 (map f l).
Proof.
  revert a. induction l as [|x l IH]; intros a; cbn [fold_left map fold_right]; [lia|].
  rewrite IH. lia.
Qed.

Lemma sum_Permutation (l l' : list Z) :
  Permutation l l' -> fold_right Z.add 0 l = fold_right Z.add 0 l'.
Proof. induction 1; cbn [fold_right]; lia. Qed.

Lemma filter_length_Permutation {A} (p : A -> bool) (l l' : list A) :
  Permutation l l' -> List.length (filter p l) = List.length (filter p l').
Proof.
  induction 1 as [|x l l' _ IH|x y l|l l' l'' _ IH1 _ IH2]; cbn [filter].
  - reflexivity.
  - destruct (p x); cbn [List.length]; now rewrite IH.
  - destruct (p x), (p y); reflexivity.
  - now rewrite IH1.
Qed.

Lemma leading_length {A} (p : A -> bool) (l : list A) :
  (leading p l <= List.length l)%nat.
Proof. induction l as [|x l IH]; cbn; [lia|]. destruct (p x); lia. Qed.

Lemma nodup_length_le {A} (dec : forall x y : A, {x = y} + {x <> y}) (l : list A) :
  (List.length (nodup dec l) <= List.length l)%nat.
Proof.
  induction l as [|x l IH]; cbn [nodup]; [reflexivity|].
  destruct (in_dec dec x l); cbn [List.length]; lia.
Qed.

(** X12: the numbers of the insights route.  The route changes nothing
    in the store and sends no completion request.  Its answer counts the
    entries that the user wrote within the period and did not delete, sums
    their word counts, and counts those of each mood, whatever the order in
    which the store holds them; the three mood counts together never exceed
    the number of entries; at most five tags and five themes are listed; the
    streak never exceeds the number of the entries that the user can see;
    and the period runs from the day of the start of the period to today. *)
Theorem insights_totals (db_fault : nat -> option string)
  (userId period : string) (now : Z) (w : World) :
  let startDate := periodStartDate period now in
  let window := filter (inWindow userId startDate) (entries_tbl (db w)) in
  wp (insightsGet db_fault userId period now)
     (fun r w' =>
        db w' = db w /\ apiLog w' = apiLog w
        /\ forall insights,
             r = Ok insights ->
             entryCount insights = List.length window
             /\ totalWords insights = fold_right Z.add 0 (map word_count window)
             /\ good (ins_moodDistribution insights) = countMood "good" window
             /\ okay (ins_moodDistribution insights) = countMood "okay" window
             /\ rough (ins_moodDistribution insights) = countMood "rough" window
             /\ (good (ins_moodDistribution insights) + okay (ins_moodDistribution insights)
                 + rough (ins_moodDistribution insights) <= entryCount insights)%nat
             /\ (List.length (ins_topTags insights) <= 5)%nat
             /\ (List.length (ins_topThemes insights) <= 5)%nat
             /\ (ins_streak insights <= List.length (visible userId (db w)))%nat
             /\ period_start_date insights = isoDate startDate
             /\ period_end_date insights = isoDate now)
     w.
Proof.
  intros startDate window.
  eapply wp_mono; [|apply insightsGet_run].
  intros r w' (Hdb & Hlog & Hanswer). split; [exact Hdb|]. split; [exact Hlog|].
  intros insights Hr. rewrite (Hanswer insights Hr). cbv zeta. fold startDate.
  unfold select_since. fold window.
  pose proof (sort_perm newestFirst window) as Hperm.
  cbn [entryCount totalWords ins_moodDistribution ins_topTags ins_topThemes ins_streak
       period_start_date period_end_date].
  pose proof (moodDistribution_from (Js.sort newestFirst window) (mkMoodStats 0 0 0))
    as (Hgood & Hokay & Hrough).
  fold (moodDistribution (Js.sort newestFirst window)) in Hgood, Hokay, Hrough.
  cbn [good okay rough Nat.add] in Hgood, Hokay, Hrough.
  assert (Hcount : forall m, countMood m (Js.sort newestFirst window) = countMood m window)
    by (intros m; now apply filter_length_Permutation).
  rewrite Hcount in Hgood, Hokay, Hrough.
  split; [now apply Permutation_length|].
  split; [rewrite fold_left_sum, Z.add_0_l; now apply sum_Permutation, Permutation_map|].
  split; [exact Hgood|]. split; [exact Hokay|]. split; [exact Hrough|].
  split.
  { rewrite Hgood, Hokay, Hrough, (Permutation_length Hperm), countMood_known.
    apply filter_length_le. }
  split; [unfold topTags, Js.slice_to; rewrite length_map; apply firstn_le_length|].
  split; [unfold topThemes, Js.slice_to; rewrite length_map; apply firstn_le_length|].
  split; [|split; reflexivity].
  rewrite streakOf_leading.
  etransitivity; [apply leading_length|]. rewrite length_gaps, select_entry_dates_visible.
  rewrite (Permutation_length (sort_perm newestDay _)).
  etransitivity; [apply nodup_length_le|]. now rewrite length_map.
Qed.

(** ** The streak of the days on which the user wrote *)

Lemma select_entry_dates_In (userId : string) (d : Db) (day : Z) :
  In day (select_entry_dates userId d) <-> wroteOn userId d day = true.
Proof.
  rewrite select_entry_dates_visible, sort_In, nodup_In, in_map_iff.
  unfold wroteOn. rewrite existsb_exists. split.
  - intros (e & <- & Hin). exists e. split; [exact Hin|apply Z.eqb_refl].
  - intros (e & Hin & Heq). apply Z.eqb_eq in Heq. now exists e.
Qed.

Lemma descending_below (d : Z) (rest : list Z) (x : Z) :
  descending (d :: rest) -> In x rest -> x < d.
Proof.
  revert d. induction rest as [|d' rest IH]; intros d Hdesc Hin; [destruct Hin|].
  destruct Hdesc as [Hlt Hdesc]. destruct Hin as [<-|Hin]; [exact Hlt|].
  specialize (IH d' Hdesc Hin). lia.
Qed.

Lemma descending_tail (d : Z) (rest : list Z) : descending (d :: rest) -> descending rest.
Proof. intros [_ H]. exact H. Qed.

Lemma descending_ext (l l' : list Z) :
  descending l -> descending l' -> (forall x, In x l <-> In x l') -> l = l'.
Proof.
  revert l'. induction l as [|d rest IH]; intros l' Hl Hl' Hsame.
  - destruct l' as [|d' rest']; [reflexivity|].
    exfalso. apply (proj2 (Hsame d')). now left.
  - destruct l' as [|d' rest'].
    + exfalso. apply (proj1 (Hsame d)). now left.
    + assert (Hd : d = d').
      { destruct (proj1 (Hsame d) (or_introl eq_refl)) as [Heq|Hin]; [now symmetry|].
        destruct (proj2 (Hsame d') (or_introl eq_refl)) as [Heq|Hin']; [exact Heq|].
        pose proof (descending_below _ _ _ Hl Hin').
        pose proof (descending_below _ _ _ Hl' Hin). lia. }
      subst d'. f_equal. apply IH; [now apply descending_tail in Hl
                                   |now apply descending_tail in Hl'|].
      intros x. split; intros Hin.
      * pose proof (descending_below _ _ _ Hl Hin).
        destruct (proj1 (Hsame x) (or_intror Hin)) as [Heq|Hin']; [lia|exact Hin'].
      * pose proof (descending_below _ _ _ Hl' Hin).
        destruct (proj2 (Hsame x) (or_intror Hin)) as [Heq|Hin']; [lia|exact Hin'].
Qed.

Lemma contiguous_S (c : Z) (n : nat) :
  contiguous c (S n) = c :: contiguous (c - 1) n.
Proof.
  unfold contiguous. cbn [seq map]. f_equal; [cbn; lia|].
  rewrite <- seq_shift, map_map. apply map_ext. intros i. lia.
Qed.

(** A descending sequence that holds the [n] days down from [c], not the
    next one, and nothing above [c], starts with these [n] days. *)
Lemma descending_run (n : nat) (c : Z) (l : list Z) :
  descending l ->
  (forall x, In x l -> x <= c) ->
  (forall k, (k < n)%nat -> In (c - Z.of_nat k) l) ->
  ~ In (c - Z.of_nat n) l ->
  exists rest, l = contiguous c n ++ rest /\ (forall x, In x rest -> x < c - Z.of_nat n).
Proof.
  revert c l. induction n as [|n IH]; intros c l Hdesc Hmax Hrun Hstop.
  - exists l. split; [reflexivity|]. intros x Hin. specialize (Hmax x Hin).
    assert (x <> c - Z.of_nat 0) by (intros ->; contradiction). lia.
  - destruct l as [|d rest].
    + destruct (Hrun 0%nat ltac:(lia)).
    + assert (Hd : d = c).
      { destruct (Hrun 0%nat ltac:(lia)) as [Heq|Hin]; [lia|].
        pose proof (descending_below _ _ _ Hdesc Hin).
        specialize (Hmax d (or_introl eq_refl)). lia. }
      subst d. destruct (IH (c - 1) rest) as (rest' & Hrest & Hlow).
      * now apply descending_tail in Hdesc.
      * intros x Hin. pose proof (descending_below _ _ _ Hdesc Hin). lia.
      * intros k Hk. destruct (Hrun (S k) ltac:(lia)) as [Heq|Hin]; [lia|].
        replace (c - 1 - Z.of_nat k) with (c - Z.of_nat (S k)) by lia. exact Hin.
      * intros Hin. apply Hstop. right.
        replace (c - Z.of_nat (S n)) with (c - 1 - Z.of_nat n) by lia. exact Hin.
      * exists rest'. rewrite contiguous_S. cbn [app]. split; [now rewrite Hrest|].
        intros x Hin. specialize (Hlow x Hin). lia.
Qed.

Lemma gaps_run (today c : Z) (n : nat) :
  gaps today (contiguous c (S n)) = (today - c) :: repeat 1 n.
Proof.
  rewrite contiguous_S. cbn [gaps]. f_equal.
  pose proof (gaps_contiguous c n 1) as H. cbn [Z.of_nat] in H.
  replace (c - Z.pos (Pos.of_succ_nat 0) + 1) with c in H by lia.
  rewrite <- H. f_equal. unfold contiguous.
  rewrite <- seq_shift, map_map. apply map_ext. intros i. lia.
Qed.

Lemma last_run (today c : Z) (n : nat) :
  last (contiguous c (S n)) today = c - Z.of_nat n.
Proof.
  revert today c. induction n as [|n IH]; intros today c; [cbn; lia|].
  rewrite contiguous_S, last_cons, IH. lia.
Qed.

Lemma forallb_repeat_grace (n : nat) : forallb inGrace (repeat 1 n) = true.
Proof. induction n; [reflexivity|exact IHn]. Qed.

Lemma streakOf_run (now c : Z) (n : nat) (rest : list Z) :
  (DATE now - c = 0 \/ DATE now - c = 1) ->
  (n = 0%nat -> DATE now - c = 1) ->
  (forall x, In x rest -> x < c - Z.of_nat n) ->
  streakOf now (contiguous c n ++ rest) = n.
Proof.
  intros Hc Hzero Hlow.
  assert (Hgrace : forallb inGrace (gaps (DATE now) (contiguous c n)) = true).
  { destruct n as [|n]; [reflexivity|]. rewrite gaps_run. cbn [forallb].
    rewrite forallb_repeat_grace, andb_true_r. unfold inGrace.
    destruct Hc as [-> | ->]; reflexivity. }
  assert (Hlen : List.length (contiguous c n) = n)
    by (unfold contiguous; now rewrite length_map, length_seq).
  destruct rest as [|d rest].
  - rewrite streakOf_leading, app_nil_r.
    rewrite <- (app_nil_r (gaps (DATE now) (contiguous c n))), leading_all by exact Hgrace.
    rewrite length_gaps, Hlen. cbn. lia.
  - rewrite streakOf_truncated; [exact Hlen|exact Hgrace|].
    specialize (Hlow d (or_introl eq_refl)).
    destruct n as [|n]; [specialize (Hzero eq_refl); cbn in *; lia|].
    rewrite last_run. lia.
Qed.

(** X7: the streak that the insights route reports, read from the store.
    When no entry of the user is dated after today, the user wrote on each of
    the [n] days down from the last day (today, or yesterday when the user
    did not write today) and did not write on the day before these, the
    streak is [n]; entries of other users and soft-deleted entries do not
    count, and several entries of one day count once. *)
Theorem streak_of_consecutive_days (db_fault : nat -> option string)
  (userId : string) (now : Z) (w : World) (lastDay : Z) (n : nat) :
  db_fault (dbCalls w) = None ->
  (forall day, DATE now < day -> wroteOn userId (db w) day = false) ->
  (lastDay = DATE now /\ wroteOn userId (db w) (DATE now) = true
   \/ lastDay = DATE now - 1 /\ wroteOn userId (db w) (DATE now) = false) ->
  (forall k, (k < n)%nat -> wroteOn userId (db w) (lastDay - Z.of_nat k) = true) ->
  wroteOn userId (db w) (lastDay - Z.of_nat n) = false ->
  fst (calculateStreak db_fault userId now w) = Ok n.
Proof.
  intros Hup Hfuture Hlast Hrun Hstop.
  rewrite calculateStreak_streakOf by exact Hup. f_equal.
  destruct (descending_run n lastDay (select_entry_dates userId (db w)))
    as (rest & -> & Hlow).
  - apply select_entry_dates_descending.
  - intros x Hin. apply select_entry_dates_In in Hin.
    destruct (Z.le_gt_cases x (DATE now)) as [Hle|Hgt].
    + destruct Hlast as [[-> _]|[-> Hnot]]; [exact Hle|].
      assert (x <> DATE now) by (intros ->; congruence). lia.
    + rewrite Hfuture in Hin by lia. discriminate.
  - intros k Hk. apply select_entry_dates_In. now apply Hrun.
  - intros Hin. apply select_entry_dates_In in Hin. congruence.
  - apply streakOf_run; [| |exact Hlow].
    + destruct Hlast as [[-> _]|[-> _]]; lia.
    + intros ->. destruct Hlast as [[-> Hwrote]|[-> _]]; [|lia].
      cbn [Z.of_nat] in Hstop. rewrite Z.sub_0_r in Hstop. congruence.
Qed.

(** X8: the streak depends on the store only through the days on which
    the user wrote: two stores in which the user wrote on the same days give
    the same streak, whatever the number of entries of a day, their times
    and their content. *)
Theorem streak_depends_on_days (db_fault : nat -> option string)
  (userId : string) (now : Z) (w w' : World) :
  dbCalls w = dbCalls w' ->
  (forall day, wroteOn userId (db w) day = wroteOn userId (db w') day) ->
  fst (calculateStreak db_fault userId now w) = fst (calculateStreak db_fault userId now w').
Proof.
  intros Hcalls Hdays.
  assert (Hsame : select_entry_dates userId (db w) = select_entry_dates userId (db w')).
  { apply descending_ext; try apply select_entry_dates_descending.
    intros x. now rewrite !select_entry_dates_In, Hdays. }
  unfold calculateStreak, bind, query, reading, ret. rewrite Hcalls.
  destruct (db_fault (dbCalls w')); [reflexivity|]. cbn [db]. rewrite Hsame.
  destruct (select_entry_dates userId (db w')); reflexivity.
Qed.

(** ** The error handler *)

(** X23: the answer of the error handler.  Its status does not depend on
    the environment and is never 0: a unique violation of the store gives 409,
    a foreign key violation 400, a syntax error 400, and any other error its
    own status code, or 500 when it has none.  In production the answer never
    carries a stack, an answer with status 500 always reads 'Internal server
    error', and the message of the error is passed on only with the status
    code that the error carries itself. *)
Theorem errorHandler_hides_internal_errors (err : AppError.t) :
  let inProduction := errorHandler true err in
  let inDevelopment := errorHandler false err in
  res_status inProduction = res_status inDevelopment
  /\ res_status inProduction <> 0
  /\ (hasCode err "23505" = true -> res_status inProduction = 409)
  /\ (hasCode err "23505" = false -> hasCode err "23503" = true ->
      res_status inProduction = 400)
  /\ (hasCode err "23505" = false -> hasCode err "23503" = false ->
      AppError.name err = "SyntaxError" -> res_status inProduction = 400)
  /\ (hasCode err "23505" = false -> hasCode err "23503" = false ->
      AppError.name err <> "SyntaxError" ->
      res_status inProduction = 500
      \/ AppError.statusCode err = Some (res_status inProduction))
  /\ res_stack inProduction = None
  /\ res_stack inDevelopment = AppError.stack err
  /\ (res_status inProduction = 500 -> res_error inProduction = INTERNAL_SERVER_ERROR)
  /\ (res_error inProduction = INTERNAL_SERVER_ERROR
      \/ res_error inProduction = "Resource already exists"
      \/ res_error inProduction = "Invalid reference"
      \/ res_error inProduction = "Invalid JSON"
      \/ (res_error inProduction = AppError.message err
          /\ AppError.statusCode err = Some (res_status inProduction)
          /\ res_status inProduction <> 500)).
Proof.
  unfold errorHandler.
  destruct (hasCode err "23505") eqn:Hunique; cbn.
  { repeat split; try discriminate; auto. }
  destruct (hasCode err "23503") eqn:Hforeign; cbn.
  { repeat split; try discriminate; auto. }
  destruct (String.eqb_spec (AppError.name err) "SyntaxError") as [Hname|Hname]; cbn.
  { repeat split; try discriminate; try contradiction; auto. }
  destruct (AppError.statusCode err) as [n|]; cbn.
  - destruct (Z.eqb_spec n 0) as [->|Hn]; cbn.
    + repeat split; try discriminate; try contradiction; auto.
    + destruct (Z.eqb_spec n 500) as [->|H500]; cbn.
      * repeat split; try discriminate; try contradiction; auto.
      * repeat split; try discriminate; try assumption; try contradiction; auto.
        destruct (AppError.message err) as [|c m] eqn:Hmessage; cbn; [now left|].
        do 4 right. repeat split; assumption.
  - repeat split; try discriminate; try contradiction; auto.
Qed.

(** ** The chat of the client *)

Lemma dropLast_snoc {A} (l : list A) (x : A) : Client.dropLast (l ++ [x]) = l.
Proof.
  unfold Client.dropLast. rewrite length_app. cbn [List.length].
  replace (List.length l + 1 - 1)%nat with (List.length l) by lia.
  rewrite firstn_app, Nat.sub_diag, firstn_all. cbn [firstn]. apply app_nil_r.
Qed.

(** X22: one message sent from the client.  The request never names a
    conversation whose identifier is a temporary one of the client: it names
    the conversation of the store, or none.  When the request fails, the
    conversation of the store is what it was before, or, when there was none,
    a temporary conversation without messages.  When the request is answered,
    the conversation of the store takes the identifier that the server gave,
    and its messages are those it held, followed by the message of the user
    and the reply.  Either way the store is no longer typing. *)
Theorem sendMessage_settles
  (api_sendMessage : Client.SendMessageParams -> option Client.ChatResponse)
  (Number_toString toISOString : Z -> string)
  (content : string) (now later : Z) (s : Client.Store) :
  let request := Client.requestOf content s in
  let s' := Client.sendMessage api_sendMessage Number_toString toISOString
              content now later s in
  let before :=
    match Client.currentConversation s with
    | Some c => Client.c_messages c
    | None => []
    end in
  Client.isTyping s' = false
  /\ Client.selectedEntryId s' = Client.selectedEntryId s
  /\ Client.p_message request = content
  /\ (forall cid,
        Client.p_conversationId request = Some cid ->
        String.prefix "temp" cid = false
        /\ exists c, Client.currentConversation s = Some c /\ Client.c_id c = cid)
  /\ (api_sendMessage request = None ->
      match Client.currentConversation s with
      | Some c => Client.currentConversation s' = Some c
      | None =>
          exists c', Client.currentConversation s' = Some c'
                     /\ Client.c_messages c' = []
                     /\ Client.wireConversationId (Some c') = None
      end)
  /\ (forall response,
        api_sendMessage request = Some response ->
        exists c' sent reply,
          Client.currentConversation s' = Some c'
          /\ Client.c_id c' = Client.r_conversationId response
          /\ Client.c_messages c' = before ++ [sent; reply]
          /\ Client.m_role sent = user /\ Client.m_content sent = content
          /\ Client.m_role reply = assistant
          /\ Client.m_content reply = Client.r_response response).
Proof.
  intros request s' before. subst request s' before. unfold Client.sendMessage.
  split; [reflexivity|].
  split; [destruct (api_sendMessage _), (Client.currentConversation s); reflexivity|].
  split; [reflexivity|].
  split; [|split].
  - intros cid Hcid. cbn in Hcid. unfold Client.wireConversationId in Hcid.
    destruct (Client.currentConversation s) as [c|]; [|discriminate].
    destruct (String.prefix "temp" (Client.c_id c)) eqn:Htemp; [discriminate|].
    injection Hcid as <-. split; [exact Htemp|]. now exists c.
  - intros Hfail. rewrite Hfail.
    destruct (Client.currentConversation s) as [c|] eqn:Hcurrent.
    + cbn -[Client.dropLast]. rewrite Hcurrent. cbn -[Client.dropLast].
      rewrite dropLast_snoc. now destruct c.
    + cbn. eexists. split; [reflexivity|]. split; [reflexivity|].
      reflexivity.
  - intros response Hok. rewrite Hok.
    destruct (Client.currentConversation s) as [c|] eqn:Hcurrent.
    + cbn. rewrite Hcurrent. cbn. eexists. eexists. eexists.
      split; [reflexivity|]. split; [reflexivity|].
      split; [cbn; now rewrite <- app_assoc|]. repeat split.
    + cbn. eexists. eexists. eexists.
      split; [reflexivity|]. split; [reflexivity|].
      split; [reflexivity|]. repeat split.
Qed.

(** ** The calendar *)

Lemma yearOf_spec (doe : Z) :
  0 <= doe < 146097 ->
  0 <= yearOf doe <= 399
  /\ yearStart (yearOf doe) <= doe
  /\ doe - yearStart (yearOf doe) <= 365
  /\ (yearOf doe < 399 -> doe < yearStart (yearOf doe + 1)).
Proof.
  intros Hdoe. unfold yearOf, yearStart.
  Z.to_euclidean_division_equations; lia.
Qed.

Lemma yearStart_mono (a b : Z) : a <= b -> yearStart a <= yearStart b.
Proof. intros Hle. unfold yearStart. Z.to_euclidean_division_equations; lia. Qed.

Lemma yearOf_unique (doe yoe : Z) :
  0 <= doe < 146097 -> 0 <= yoe <= 399 ->
  yearStart yoe <= doe -> (yoe < 399 -> doe < yearStart (yoe + 1)) ->
  yearOf doe = yoe.
Proof.
  intros Hdoe Hyoe Hlo Hhi.
  destruct (yearOf_spec doe Hdoe) as (Hrange & Hlo' & _ & Hhi').
  destruct (Z.lt_trichotomy (yearOf doe) yoe) as [Hlt|[Heq|Hgt]]; [|exact Heq|].
  - pose proof (yearStart_mono (yearOf doe + 1) yoe ltac:(lia)). lia.
  - pose proof (yearStart_mono (yoe + 1) (yearOf doe) ltac:(lia)). lia.
Qed.

Lemma monthOffset_spec (doy : Z) :
  0 <= doy <= 365 ->
  let mp := (5 * doy + 2) / 153 in
  0 <= mp <= 11 /\ 0 <= monthOffset mp /\ 0 <= doy - monthOffset mp <= 30
  /\ (5 * monthOffset mp + 2) / 153 = mp.
Proof.
  intros Hdoy mp. subst mp. unfold monthOffset.
  Z.to_euclidean_division_equations; lia.
Qed.

Lemma civil_from_days_parts (z : Z) :
  civil_from_days z
  = let era := (z + 719468) / 146097 in
    let doe := z + 719468 - era * 146097 in
    let yoe := yearOf doe in
    let doy := doe - yearStart yoe in
    let mp := (5 * doy + 2) / 153 in
    let m := if mp <? 10 then mp + 3 else mp - 9 in
    (yoe + era * 400 + (if m <=? 2 then 1 else 0), m, doy - monthOffset mp + 1).
Proof. reflexivity. Qed.

Lemma days_from_civil_parts (yoe era mp : Z) :
  0 <= yoe <= 399 -> 0 <= mp <= 11 ->
  let m := if mp <? 10 then mp + 3 else mp - 9 in
  days_from_civil (yoe + era * 400 + (if m <=? 2 then 1 else 0)) m 1
  = era * 146097 + yearStart yoe + monthOffset mp - 719468.
Proof.
  intros Hyoe Hmp m. subst m. unfold days_from_civil, yearStart, monthOffset.
  destruct (Z.ltb_spec mp 10) as [Hlt|Hge].
  - destruct (Z.leb_spec (mp + 3) 2) as [H2|H2]; [lia|].
    destruct (Z.ltb_spec 2 (mp + 3)) as [_|H3]; [|lia].
    replace ((yoe + era * 400 + 0) / 400) with era
      by (Z.to_euclidean_division_equations; lia).
    replace (yoe + era * 400 + 0 - era * 400) with yoe by lia.
    replace (mp + 3 - 3) with mp by lia. lia.
  - destruct (Z.leb_spec (mp - 9) 2) as [H2|H2]; [|lia].
    destruct (Z.ltb_spec 2 (mp - 9)) as [H3|_]; [lia|].
    replace ((yoe + era * 400 + 1 - 1) / 400) with era
      by (Z.to_euclidean_division_equations; lia).
    replace (yoe + era * 400 + 1 - 1 - era * 400) with yoe by lia.
    replace (mp - 9 + 9) with mp by lia. lia.
Qed.

(** The first day of the month of a day. *)
Lemma month_start (z : Z) :
  let '(y, m, d) := civil_from_days z in
  1 <= m <= 12 /\ 1 <= d <= 31
  /\ days_from_civil y m 1 = z - (d - 1)
  /\ civil_from_days (z - (d - 1)) = (y, m, 1).
Proof.
  rewrite civil_from_days_parts. cbv zeta.
  set (era := (z + 719468) / 146097).
  set (doe := z + 719468 - era * 146097).
  assert (Hdoe : 0 <= doe < 146097)
    by (unfold doe, era; Z.to_euclidean_division_equations; lia).
  destruct (yearOf_spec doe Hdoe) as (Hyoe & Hlo & Hdoy & Hhi).
  set (yoe := yearOf doe) in *.
  set (doy := doe - yearStart yoe) in *.
  assert (Hdoy' : 0 <= doy <= 365) by (unfold doy; lia).
  destruct (monthOffset_spec doy Hdoy') as (Hmp & Hoffset & Hday & Hback).
  assert (Hstart : 0 <= yearStart yoe)
    by (apply (yearStart_mono 0 yoe); lia).
  set (mp := (5 * doy + 2) / 153) in *.
  split; [destruct (Z.ltb_spec mp 10); lia|].
  split; [lia|].
  split.
  - rewrite (days_from_civil_parts yoe era mp Hyoe Hmp). unfold doy, doe. lia.
  - rewrite civil_from_days_parts. cbv zeta.
    assert (Hera : (z - (doy - monthOffset mp + 1 - 1) + 719468) / 146097 = era).
    { symmetry. apply Z.div_unique with (r := doe - (doy - monthOffset mp)).
      - lia.
      - unfold doe. lia. }
    rewrite Hera.
    replace (z - (doy - monthOffset mp + 1 - 1) + 719468 - era * 146097)
      with (yearStart yoe + monthOffset mp) by (unfold doy, doe; lia).
    assert (Hyear : yearOf (yearStart yoe + monthOffset mp) = yoe).
    { apply yearOf_unique; [unfold doy in *; lia|exact Hyoe|lia|].
      intros Hlt. specialize (Hhi Hlt). unfold doy in *. lia. }
    rewrite Hyear.
    replace (yearStart yoe + monthOffset mp - yearStart yoe) with (monthOffset mp) by lia.
    rewrite Hback. f_equal. lia.
Qed.

(** X13: the start of the month of a monthly summary.  It is the
    midnight that begins the first day of the month of the instant, in the
    same year; it is not after the instant; and another instant has the same
    start of month exactly when it falls in the same month of the same
    year. *)
Theorem monthStart_first_of_month (now : Z) :
  let '(y, m, d) := civil_from_days (DATE now) in
  let start := monthStart now in
  1 <= m <= 12 /\ 1 <= d <= 31
  /\ setHours0 start = start
  /\ DATE start = DATE now - (d - 1)
  /\ civil_from_days (DATE start) = (y, m, 1)
  /\ start <= now
  /\ (forall t, monthStart t = start <-> exists d', civil_from_days (DATE t) = (y, m, d')).
Proof.
  pose proof (month_start (DATE now)) as Hmonth.
  destruct (civil_from_days (DATE now)) as [[y m] d] eqn:Hcivil.
  destruct Hmonth as (Hm & Hd & Hdays & Hback). cbv zeta.
  assert (Hstart : monthStart now = Date_of_day (DATE now - (d - 1))).
  { unfold monthStart. fold (DATE now). now rewrite Hcivil, Hdays. }
  rewrite Hstart, DATE_Date_of_day.
  split; [exact Hm|]. split; [exact Hd|]. split; [apply setHours0_day|].
  split; [reflexivity|]. split; [exact Hback|]. split.
  - pose proof (proj1 (DATE_bounds now (DATE now)) eq_refl) as Hnow.
    pose proof DAY_MS_pos. unfold Date_of_day in *. nia.
  - intros t. pose proof (month_start (DATE t)) as Ht.
    destruct (civil_from_days (DATE t)) as [[y' m'] d'] eqn:Hcivil'.
    destruct Ht as (_ & _ & Hdays' & Hback').
    assert (Hstart' : monthStart t = Date_of_day (DATE t - (d' - 1))).
    { unfold monthStart. fold (DATE t). now rewrite Hcivil', Hdays'. }
    rewrite Hstart'. split.
    + intros Hsame. apply (f_equal DATE) in Hsame. rewrite !DATE_Date_of_day in Hsame.
      rewrite Hsame, Hback in Hback'. injection Hback' as <- <-. now exists d'.
    + intros (d'' & Heq). injection Heq as -> -> _. now rewrite <- Hdays', Hdays.
Qed.

(** ** The claims at concrete inputs *)

(** C1, counterexample: of an entry without mood and an older good entry the
    specification's words make the trend 'down', and calculateMoodTrend
    answers 'Not enough data'; of ten entries with moods, the newest good and
    the others okay, the words make it 'up' (0.2 > 0 + 0.1), and
    calculateMoodTrend answers 'Relatively stable this week'. *)
Lemma context_trend_differs :
  spec_moodTrend sparse_moods = down
  /\ calculateMoodTrend sparse_moods = NOT_ENOUGH
  /\ spec_moodTrend ten_moods = up
  /\ calculateMoodTrend ten_moods = RELATIVELY_STABLE.
Proof. repeat split; vm_compute; reflexivity. Qed.

(** C2, counterexample: on the store of the scenario the route answers with
    the tags work, wins, health in this order and with the trend 'up'. *)
Lemma scenario_route_answer :
  exists insights,
    fst (insightsGet store_up "tom" "week" demo_now scenario_world) = Ok insights
    /\ ins_topTags insights
       = [mkTagCount "work" 2; mkTagCount "wins" 1; mkTagCount "health" 1]
    /\ ins_topTags insights
       <> [mkTagCount "work" 2; mkTagCount "health" 1; mkTagCount "wins" 1]
    /\ ins_moodTrend insights = up
    /\ ins_moodTrend insights <> down.
Proof.
  eexists. split; [reflexivity|].
  repeat split; try (vm_compute; reflexivity); vm_compute; discriminate.
Qed.



(** C4, counterexample: the context assembled from an empty store has no
    recurring theme, and its prompt holds the heading 'Recurring Themes'
    followed by the placeholder. *)
Lemma empty_themes_are_rendered :
  contextOf "tom" demo_now (db empty_world) = empty_context
  /\ recurringThemes empty_context = []
  /\ contains (buildSystemPrompt PERSONA empty_context None)
       ("### Recurring Themes" +++ nl +++ "No clear patterns yet" +++ nl).
Proof.
  split; [reflexivity|]. split; [reflexivity|].
  apply prompt_contains_context. exact (contextSection_themes empty_context).
Qed.

(** C5: soft-deleting an entry changes nothing in what the current-entry
    lookup of a chat turn reads.  At the failing input, the soft-deleted entry
    is absent from the context that is assembled for its owner, and a chat
    turn that names it sends its content to the completion service as the
    current entry. *)
Theorem deleted_entry_reaches_prompt :
  (forall target entryId owner now d,
      select_entry_content target (soft_delete entryId owner now d)
      = select_entry_content target d)
  /\ live deleted_entry = false
  /\ recentEntries (contextOf "tom" demo_now (db world_with_deleted)) = []
  /\ exists prompt,
       promptsSent
         (snd (chatPost PERSONA (completion_says "Tell me more.") store_up uuid_of
                 "tom" "Can we talk about it?" None (Some (id deleted_entry)) demo_now
                 world_with_deleted))
       = [prompt]
       /\ contains prompt
            ("### Current Entry Being Discussed" +++ nl +++ content deleted_entry +++ nl).
Proof.
  split; [intros; apply select_entry_content_soft_delete|].
  split; [reflexivity|]. split; [reflexivity|].
  exists (buildSystemPrompt PERSONA (contextOf "tom" demo_now (db world_with_deleted))
            (Some (content deleted_entry))).
  split; [vm_compute; reflexivity|].
  now apply prompt_contains_current.
Qed.

(** C6, counterexample: the mood trend of the insights route is 'stable'
    for no entry at all and 'down' for a single good entry. *)
Lemma insights_trend_has_no_sentinel :
  moodTrend [] = stable
  /\ moodTrend [good_entry] = down
  /\ exists insights,
       fst (insightsGet store_up "tom" "week" demo_now empty_world) = Ok insights
       /\ entryCount insights = 0%nat
       /\ ins_moodTrend insights = stable.
Proof.
  split; [reflexivity|]. split; [reflexivity|].
  eexists. split; [reflexivity|]. split; reflexivity.
Qed.

(** C6, witness: a single entry, even with a mood, is not enough data for
    the context window. *)
Lemma mood_trend_of_few_entries_witness :
  (List.length [recent_of (Some "good")] < 2)%nat
  /\ calculateMoodTrend [recent_of (Some "good")] = NOT_ENOUGH.
Proof.
  assert (H : (List.length [recent_of (Some "good")] < 2)%nat) by (cbn; lia).
  split; [exact H|]. exact (proj1 (mood_trend_of_few_entries _ H)).
Defined.

(** C7, witness: entries of today, yesterday and three days ago make a
    streak of two. *)
Lemma streak_walk_witness :
  store_up (dbCalls streak_world) = None
  /\ select_entry_dates "tom" (db streak_world) = [19723; 19722; 19720]
  /\ DATE demo_now = 19723
  /\ fst (calculateStreak store_up "tom" demo_now streak_world) = Ok 2%nat.
Proof.
  assert (H : store_up (dbCalls streak_world) = None) by reflexivity.
  split; [exact H|]. split; [reflexivity|]. split; [reflexivity|].
  destruct (streak_walk store_up "tom" demo_now streak_world H) as (_ & Hwalk & _).
  rewrite Hwalk. reflexivity.
Defined.

(** C7, counterexample: of a single entry dated tomorrow the day difference
    is -1, which is not greater than 1, and the walk ends there with the
    streak 0; of a single entry dated today the difference is 0 and the
    streak is 1: the larger gap has the larger streak. *)
Lemma streak_of_a_date_ahead :
  select_entry_dates "tom" (db tomorrow_world) = [DATE demo_now + 1]
  /\ gaps (DATE demo_now) (select_entry_dates "tom" (db tomorrow_world)) = [-1]
  /\ fst (calculateStreak store_up "tom" demo_now tomorrow_world) = Ok 0%nat
  /\ gaps (DATE demo_now) (select_entry_dates "tom" (db week_world)) = [0]
  /\ fst (calculateStreak store_up "tom" demo_now week_world) = Ok 1%nat.
Proof. repeat split; vm_compute; reflexivity. Qed.

(** C8, witness: the completion request of the first turn of a new
    conversation times out; the turn ends with that error and the store
    holds the user's message only. *)
Lemma failed_completion_witness :
  (forall req,
      completion_times_out (List.length (apiLog empty_world)) req
      = ApiError "Request timed out.")
  /\ let turn := chatPost PERSONA completion_times_out store_up uuid_of
                   "tom" "Hello" None None demo_now empty_world in
     fst turn = Throw (CompletionError "Request timed out.")
     /\ assistantMessages (db (snd turn)) = []
     /\ messages_tbl (db (snd turn)) = [Message.mk "conversation-00" user "Hello"].
Proof.
  assert (H : forall req,
             completion_times_out (List.length (apiLog empty_world)) req
             = ApiError "Request timed out.") by reflexivity.
  split; [exact H|]. intros turn.
  pose proof (failed_completion_saves_no_reply PERSONA completion_times_out store_up
                uuid_of "tom" "Hello" None None demo_now empty_world _ H) as Hturn.
  apply wp_run in Hturn. fold turn in Hturn.
  destruct Hturn as (Hkept & _ & Hsent & _).
  split; [|split; [exact Hkept|reflexivity]].
  apply Hsent. discriminate.
Defined.

(** C9, witness: a response without any content block makes chat answer
    with the canned reply. *)
Lemma thrown_failures_surface_witness :
  (forall req,
      completion_without_text (List.length (apiLog empty_world)) req = ApiOk [])
  /\ Js.truthy (findText []) = false
  /\ fst (chat PERSONA completion_without_text empty_context [(user, "Hello")] None
            empty_world)
     = Ok CANNED_REPLY.
Proof.
  assert (H1 : forall req,
             completion_without_text (List.length (apiLog empty_world)) req = ApiOk [])
    by reflexivity.
  assert (H2 : Js.truthy (findText []) = false) by reflexivity.
  split; [exact H1|]. split; [exact H2|].
  destruct (thrown_failures_surface PERSONA GUIDELINES GUIDELINES completion_without_text
              store_up uuid_of parse_objects_only) as (_ & _ & _ & _ & _ & Hcanned & _).
  exact (Hcanned empty_context [(user, "Hello")] None empty_world [] H1 H2).
Defined.

(** C9, counterexample: a completion that comes back without text makes
    the chat turn answer with the canned reply and store it as the
    assistant's message; a completion whose text is not JSON makes the
    patterns route answer with the default empty patterns. *)
Lemma untexted_completion_is_replaced :
  (let turn := chatPost PERSONA completion_without_text store_up uuid_of
                 "tom" "Hello" None None demo_now empty_world in
   fst turn = Ok (ChatJson "conversation-00" CANNED_REPLY)
   /\ messages_tbl (db (snd turn))
      = [Message.mk "conversation-00" user "Hello";
         Message.mk "conversation-00" assistant CANNED_REPLY])
  /\ fst (patternsGet GUIDELINES (completion_says "I see no patterns.") store_up
            parse_objects_only "tom" demo_now scenario_world)
     = Ok (PatternsJson DEFAULT_PATTERNS).
Proof. repeat split; vm_compute; reflexivity. Qed.


(** ** The further properties at concrete inputs *)

(** X6, witness: with the entries of ana, a soft-deleted entry of tom and
    a conversation of ana added to the store of the scenario, tom gets the
    same insights. *)
Lemma routes_read_own_rows_witness :
  dbCalls crowded_world = dbCalls scenario_world
  /\ List.length (apiLog crowded_world) = List.length (apiLog scenario_world)
  /\ visible "tom" (db crowded_world) = visible "tom" (db scenario_world)
  /\ ownSummaries "tom" (db crowded_world) = ownSummaries "tom" (db scenario_world)
  /\ fst (insightsGet store_up "tom" "week" demo_now crowded_world)
     = fst (insightsGet store_up "tom" "week" demo_now scenario_world).
Proof.
  assert (H1 : dbCalls crowded_world = dbCalls scenario_world) by reflexivity.
  assert (H2 : List.length (apiLog crowded_world) = List.length (apiLog scenario_world))
    by reflexivity.
  assert (H3 : visible "tom" (db crowded_world) = visible "tom" (db scenario_world))
    by reflexivity.
  assert (H4 : ownSummaries "tom" (db crowded_world) = ownSummaries "tom" (db scenario_world))
    by reflexivity.
  split; [exact H1|]. split; [exact H2|]. split; [exact H3|]. split; [exact H4|].
  exact (proj1 (routes_read_own_rows GUIDELINES GUIDELINES (completion_says "Noted.")
                  store_up parse_objects_only "tom" "week" demo_now
                  crowded_world scenario_world H1 H2 H3 H4)).
Defined.

Lemma two_day_world_days (day : Z) :
  wroteOn "tom" (db two_day_world) day = (day =? 19722) || (day =? 19723).
Proof.
  unfold wroteOn.
  change (visible "tom" (db two_day_world)) with [good_entry; week_entry; late_entry].
  cbn [existsb].
  change (DATE (created_at good_entry)) with 19722.
  change (DATE (created_at week_entry)) with 19723.
  change (DATE (created_at late_entry)) with 19723.
  destruct (Z.eqb_spec 19722 day), (Z.eqb_spec 19723 day), (Z.eqb_spec day 19722),
    (Z.eqb_spec day 19723); cbn; congruence.
Qed.

Lemma two_entry_world_days (day : Z) :
  wroteOn "tom" (db two_entry_world) day = (day =? 19722) || (day =? 19723).
Proof.
  unfold wroteOn.
  change (visible "tom" (db two_entry_world)) with [good_entry; week_entry].
  cbn [existsb].
  change (DATE (created_at good_entry)) with 19722.
  change (DATE (created_at week_entry)) with 19723.
  destruct (Z.eqb_spec 19722 day), (Z.eqb_spec 19723 day), (Z.eqb_spec day 19722),
    (Z.eqb_spec day 19723); cbn; congruence.
Qed.

(** X7, witness: tom wrote yesterday and twice today, and not the day
    before yesterday: the streak is two. *)
Lemma streak_of_consecutive_days_witness :
  store_up (dbCalls two_day_world) = None
  /\ wroteOn "tom" (db two_day_world) (DATE demo_now) = true
  /\ wroteOn "tom" (db two_day_world) (DATE demo_now - 2) = false
  /\ fst (calculateStreak store_up "tom" demo_now two_day_world) = Ok 2%nat.
Proof.
  assert (H1 : store_up (dbCalls two_day_world) = None) by reflexivity.
  assert (H2 : wroteOn "tom" (db two_day_world) (DATE demo_now) = true) by reflexivity.
  assert (H3 : wroteOn "tom" (db two_day_world) (DATE demo_now - Z.of_nat 2) = false)
    by reflexivity.
  split; [exact H1|]. split; [exact H2|]. split; [exact H3|].
  apply (streak_of_consecutive_days store_up "tom" demo_now two_day_world (DATE demo_now) 2).
  - exact H1.
  - intros day Hday. rewrite two_day_world_days. change (DATE demo_now) with 19723 in Hday.
    destruct (Z.eqb_spec day 19722), (Z.eqb_spec day 19723); cbn; try reflexivity; lia.
  - left. split; [reflexivity|exact H2].
  - intros k Hk. rewrite two_day_world_days. change (DATE demo_now) with 19723.
    destruct k as [|[|k]]; [reflexivity|reflexivity|lia].
  - exact H3.
Defined.

(** X8, witness: a second entry on a day on which tom wrote does not
    change the streak. *)
Lemma streak_depends_on_days_witness :
  dbCalls two_day_world = dbCalls two_entry_world
  /\ List.length (visible "tom" (db two_day_world)) = 3%nat
  /\ List.length (visible "tom" (db two_entry_world)) = 2%nat
  /\ fst (calculateStreak store_up "tom" demo_now two_day_world)
     = fst (calculateStreak store_up "tom" demo_now two_entry_world).
Proof.
  assert (H1 : dbCalls two_day_world = dbCalls two_entry_world) by reflexivity.
  split; [exact H1|]. split; [reflexivity|]. split; [reflexivity|].
  apply (streak_depends_on_days store_up "tom" demo_now two_day_world two_entry_world H1).
  intros day. now rewrite two_day_world_days, two_entry_world_days.
Defined.

(** X18, witness: the first turn of a new conversation in the empty
    store. *)
Lemma chat_turn_stores_both_messages_witness :
  (forall n, store_up n = None)
  /\ (forall req,
        completion_says "Tell me more." (List.length (apiLog empty_world)) req
        = ApiOk [TextBlock "Tell me more."])
  /\ let turn := chatPost PERSONA (completion_says "Tell me more.") store_up uuid_of
                   "tom" "Hello" None None demo_now empty_world in
     exists cid,
       fst turn = Ok (ChatJson cid "Tell me more.")
       /\ messages_tbl (db (snd turn))
          = [Message.mk cid user "Hello"; Message.mk cid assistant "Tell me more."].
Proof.
  assert (H1 : forall n, store_up n = None) by reflexivity.
  assert (H2 : forall req,
             completion_says "Tell me more." (List.length (apiLog empty_world)) req
             = ApiOk [TextBlock "Tell me more."]) by reflexivity.
  split; [exact H1|]. split; [exact H2|]. intros turn.
  pose proof (chat_turn_stores_both_messages PERSONA (completion_says "Tell me more.")
                store_up uuid_of "tom" "Hello" None None demo_now empty_world _ H1 H2)
    as Hturn.
  cbv zeta in Hturn. apply wp_run in Hturn. fold turn in Hturn.
  destruct Hturn as [(Hnot & _)|(cid & Hr & _ & _ & Hmessages & _)].
  - exfalso. revert Hnot. vm_compute. discriminate.
  - exists cid. split; [exact Hr|exact Hmessages].
Defined.

(** X19, witness: tom names the conversation of ana. *)
Lemma foreign_conversation_is_refused_witness :
  Js.truthy (Some "conversation-of-ana") = true
  /\ (forall c, In c (conversations_tbl (db crowded_world)) ->
                Conversation.id c = "conversation-of-ana" -> Conversation.user_id c <> "tom")
  /\ let turn := chatPost PERSONA (completion_says "Tell me more.") store_up uuid_of
                   "tom" "What did she write?" (Some "conversation-of-ana") None demo_now
                   crowded_world in
     db (snd turn) = db crowded_world /\ apiLog (snd turn) = apiLog crowded_world.
Proof.
  assert (H1 : Js.truthy (Some "conversation-of-ana") = true) by reflexivity.
  assert (H2 : forall c, In c (conversations_tbl (db crowded_world)) ->
                         Conversation.id c = "conversation-of-ana" ->
                         Conversation.user_id c <> "tom").
  { intros c [<-|[]] _. discriminate. }
  split; [exact H1|]. split; [exact H2|]. intros turn.
  pose proof (foreign_conversation_is_refused PERSONA (completion_says "Tell me more.")
                store_up uuid_of "tom" "What did she write?" "conversation-of-ana" None
                demo_now crowded_world H1 H2) as Hturn.
  apply wp_run in Hturn. fold turn in Hturn. destruct Hturn as (Hdb & Hlog & _).
  split; assumption.
Defined.

(** X21, witness: the conversation of the first turn read back. *)
Lemma conversation_read_after_turn_witness :
  (forall n, store_up n = None)
  /\ let turn := chatPost PERSONA (completion_says "Tell me more.") store_up uuid_of
                   "tom" "Hello" None None demo_now empty_world in
     fst turn = Ok (ChatJson "conversation-00" "Tell me more.")
     /\ exists conversation,
          fst (conversationGet store_up "tom" "conversation-00" (snd turn))
          = Ok (ConversationJson conversation
                  [Message.mk "conversation-00" user "Hello";
                   Message.mk "conversation-00" assistant "Tell me more."]).
Proof.
  assert (H1 : forall n, store_up n = None) by reflexivity.
  split; [exact H1|]. intros turn.
  assert (H2 : fst turn = Ok (ChatJson "conversation-00" "Tell me more."))
    by (vm_compute; reflexivity).
  split; [exact H2|].
  destruct (conversation_read_after_turn PERSONA (completion_says "Tell me more.") store_up
              uuid_of "tom" "Hello" None None demo_now empty_world "conversation-00"
              "Tell me more." H1 H2) as (conversation & Hread & _).
  exists conversation. exact Hread.
Defined.

(** X25, witness: tom deletes the entry written three days ago; his
    insights are those of the store without it. *)
Lemma soft_delete_is_invisible_witness :
  fst (entryDelete store_up "tom" "T-3" demo_now scenario_world) = Ok NoContent
  /\ let w' := snd (entryDelete store_up "tom" "T-3" demo_now scenario_world) in
     List.length (entries_tbl (db w')) = 3%nat
     /\ fst (insightsGet store_up "tom" "week" demo_now w')
        = fst (insightsGet store_up "tom" "week" demo_now
                 (mkWorld (erased "T-3" (db scenario_world)) (apiLog w') (dbCalls w'))).
Proof.
  assert (H : fst (entryDelete store_up "tom" "T-3" demo_now scenario_world) = Ok NoContent)
    by reflexivity.
  split; [exact H|]. intros w'. split; [reflexivity|].
  exact (proj1 (soft_delete_is_invisible GUIDELINES GUIDELINES (completion_says "Noted.")
                  store_up parse_objects_only "tom" "T-3" "week" demo_now demo_now
                  scenario_world NoContent H)).
Defined.

(** X27: the mood trends compare doubles.  Of twenty entries whose newer
    half averages -3/10 and whose older half averages -4/10 the insights
    route answers 'up', since -0.4 + 0.1 is the double just below -0.3, and
    of the same entries oldest first it answers 'stable', since -0.3 - 0.1
    is the double -0.4; of ten entries of the context window whose halves
    average -3/5 and -4/5, calculateMoodTrend answers 'Trending up'.  A
    mood that names an inherited member of objects makes the score of its
    half not a number and the trend 'stable', where an entry without mood
    leaves it 'up'. *)
Theorem mood_trends_round_as_doubles :
  moodScore (secondHalf boundary_entries) = (-0.3)%float
  /\ moodScore (firstHalf boundary_entries) = (-0.4)%float
  /\ ((-0.4) + Js.tenth)%float = (-0.30000000000000004)%float
  /\ moodTrend boundary_entries = up
  /\ ((-0.3) - Js.tenth)%float = (-0.4)%float
  /\ moodTrend (rev boundary_entries) = stable
  /\ recentAvgOf (moodValues boundary_moods) = (-0.6)%float
  /\ olderAvgOf (moodValues boundary_moods) = (-0.8)%float
  /\ calculateMoodTrend boundary_moods = TRENDING_UP
  /\ moodScore [member_entry] = Js.NaN
  /\ moodTrend [member_entry; entry_of_mood (Some "rough")] = stable
  /\ moodTrend [entry_of_mood None; entry_of_mood (Some "rough")] = up.
Proof. repeat split; vm_compute; reflexivity. Qed.
